(** * Sheet: formula evaluation, clipboard transfer and undo history

    A shallow embedding of the spreadsheet engine of the [sheet]
    repository: [utils/functions.ts] (formula evaluation, range and
    reference parsing), [store/sheetStore.ts] (the zustand store with its
    history, clipboard and row/column operations) and the recalculation
    effect of [components/Cell.tsx].

    Modelling conventions.
    - Text is a Rocq [string], a sequence of 8-bit characters: the model
      covers the ASCII fragment of JavaScript strings.  Case mapping and
      white space are defined on ASCII; [String.fromCharCode] keeps the low
      eight bits of its argument.
    - JavaScript numbers used as row, column and history indices are
      integers, modelled by [Z] (exact below 2^53).
    - JavaScript numbers used as cell values are IEEE 754 binary64 values,
      modelled by [spec_float] with precision 53 and maximal exponent
      1024; [Number(s)] and [n.toString()] follow ECMAScript's
      StringToNumber and Number::toString on that type.
    - A JavaScript object used as a dictionary is an association list in
      property-insertion order, because [Object.entries] and
      [Object.keys] expose that order.  (Keys that are canonical array
      indices would come first in JavaScript; cell ids are not.)
    - An exception is a [None] result. *)

From Stdlib Require Import ZArith List String Ascii Bool Lia.
From Stdlib Require Import DecimalString.
From Stdlib Require Import SpecFloat.
From Stdlib Require DecimalPos.
Import ListNotations.

Local Open Scope string_scope.
Local Open Scope Z_scope.

(** ** JavaScript strings *)

Module JsString.

(** [s.length] as an integer. *)
Definition len (s : string) : Z := Z.of_nat (String.length s).

(** [s.startsWith(p)] *)
Definition startsWith (s p : string) : bool := String.prefix p s.

Fixpoint drop (n : nat) (s : string) : string :=
  match n, s with
  | O, _ => s
  | S _, EmptyString => EmptyString
  | S n', String _ t => drop n' t
  end.

Fixpoint take (n : nat) (s : string) : string :=
  match n, s with
  | O, _ => EmptyString
  | S _, EmptyString => EmptyString
  | S n', String c t => String c (take n' t)
  end.

(** [s.substring(start)] for a non-negative [start]. *)
Definition substring_from (start : nat) (s : string) : string := drop start s.

(** [s.slice(start, end)]: negative positions count from the end. *)
Definition slice (s : string) (start end_ : Z) : string :=
  let from := if start <? 0 then Z.max (len s + start) 0 else Z.min start (len s) in
  let to := if end_ <? 0 then Z.max (len s + end_) 0 else Z.min end_ (len s) in
  take (Z.to_nat (to - from)) (drop (Z.to_nat from) s).

Definition code (c : ascii) : Z := Z.of_N (N_of_ascii c).

(** [String.fromCharCode(n)], on the 8-bit alphabet of the model. *)
Definition fromCharCode (n : Z) : string :=
  String (ascii_of_N (Z.to_N (n mod 256))) EmptyString.

Definition isUpper (c : ascii) : bool := (65 <=? code c) && (code c <=? 90).
Definition isLower (c : ascii) : bool := (97 <=? code c) && (code c <=? 122).
Definition isLetter (c : ascii) : bool := isUpper c || isLower c.
Definition isDigit (c : ascii) : bool := (48 <=? code c) && (code c <=? 57).

(** White space and line terminators (TAB, LF, VT, FF, CR, SP). *)
Definition isWhite (c : ascii) : bool :=
  ((9 <=? code c) && (code c <=? 13)) || (code c =? 32).

Definition upperChar (c : ascii) : ascii :=
  if isLower c then ascii_of_N (Z.to_N (code c - 32)) else c.
Definition lowerChar (c : ascii) : ascii :=
  if isUpper c then ascii_of_N (Z.to_N (code c + 32)) else c.

Fixpoint mapChars (f : ascii -> ascii) (s : string) : string :=
  match s with
  | EmptyString => EmptyString
  | String c t => String (f c) (mapChars f t)
  end.

Definition toUpperCase : string -> string := mapChars upperChar.
Definition toLowerCase : string -> string := mapChars lowerChar.

Fixpoint trimStart (s : string) : string :=
  match s with
  | EmptyString => EmptyString
  | String c t => if isWhite c then trimStart t else s
  end.

Fixpoint trimEnd (s : string) : string :=
  match s with
  | EmptyString => EmptyString
  | String c t =>
      match trimEnd t with
      | EmptyString => if isWhite c then EmptyString else String c EmptyString
      | t' => String c t'
      end
  end.

Definition trim (s : string) : string := trimEnd (trimStart s).

(** [s.split(sep)] for a one-character separator: never empty. *)
Fixpoint split (sep : ascii) (s : string) : list string :=
  match s with
  | EmptyString => [EmptyString]
  | String c t =>
      if Ascii.eqb c sep then EmptyString :: split sep t
      else match split sep t with
           | h :: r => String c h :: r
           | [] => [String c EmptyString]
           end
  end.

(** [s.includes(c)] for a one-character needle. *)
Fixpoint includesChar (c : ascii) (s : string) : bool :=
  match s with
  | EmptyString => false
  | String d t => Ascii.eqb d c || includesChar c t
  end.

(** [s.replace(/c/g, '')] for a literal character [c]. *)
Fixpoint removeChar (c : ascii) (s : string) : string :=
  match s with
  | EmptyString => EmptyString
  | String d t => if Ascii.eqb d c then removeChar c t else String d (removeChar c t)
  end.

Definition isQuote (c : ascii) : bool := (code c =? 34) || (code c =? 39).

(** The one-character string of a double quote. *)
Definition doubleQuote : string := String (ascii_of_N 34) EmptyString.

Fixpoint dropLastQuote (s : string) : string :=
  match s with
  | EmptyString => EmptyString
  | String c EmptyString => if isQuote c then EmptyString else s
  | String c t => String c (dropLastQuote t)
  end.

(** [s.replace(/^["']|["']$/g, '')]: one quote off the front, then one
    off the end of what is left. *)
Definition stripQuotes (s : string) : string :=
  match s with
  | String c t => if isQuote c then dropLastQuote t else dropLastQuote s
  | EmptyString => EmptyString
  end.

(** The replacement text of one match: [$$], [$&], [$`] and [$'] are
    expanded; a string pattern has no captures, so every other [$] stays. *)
Fixpoint expandReplacement (repl matched before after : string) : string :=
  match repl with
  | EmptyString => EmptyString
  | String c t =>
      if code c =? 36 then
        match t with
        | EmptyString => String c EmptyString
        | String d t' =>
            if code d =? 36 then String d (expandReplacement t' matched before after)
            else if code d =? 38 then matched ++ expandReplacement t' matched before after
            else if code d =? 96 then before ++ expandReplacement t' matched before after
            else if code d =? 39 then after ++ expandReplacement t' matched before after
            else String c (expandReplacement t matched before after)
        end
      else String c (expandReplacement t matched before after)
  end.

(** [s] is the suffix of [orig] at position [pos]; [skip] counts the
    characters of a match still to be passed over. *)
Fixpoint replaceAllFrom (orig find repl : string) (pos skip : nat) (s : string) : string :=
  match s with
  | EmptyString => EmptyString
  | String c t =>
      match skip with
      | S k => replaceAllFrom orig find repl (S pos) k t
      | O =>
          if String.prefix find s
          then expandReplacement repl find (take pos orig)
                 (drop (pos + String.length find) orig)
               ++ replaceAllFrom orig find repl (S pos) (String.length find - 1) t
          else String c (replaceAllFrom orig find repl (S pos) O t)
      end
  end.

(** The empty pattern matches before every character and at the end. *)
Fixpoint replaceAllEmpty (orig repl : string) (pos : nat) (s : string) : string :=
  expandReplacement repl EmptyString (take pos orig) (drop pos orig)
  ++ match s with
     | EmptyString => EmptyString
     | String c t => String c (replaceAllEmpty orig repl (S pos) t)
     end.

(** [s.replaceAll(find, repl)] for a string pattern. *)
Definition replaceAll (s find repl : string) : string :=
  match find with
  | EmptyString => replaceAllEmpty s repl O s
  | _ => replaceAllFrom s find repl O O s
  end.

(** [xs.join(sep)] *)
Fixpoint join (sep : string) (xs : list string) : string :=
  match xs with
  | [] => EmptyString
  | [x] => x
  | x :: r => x ++ sep ++ join sep r
  end.

(** The longest prefix whose characters satisfy [p], and the rest. *)
Fixpoint span (p : ascii -> bool) (s : string) : string * string :=
  match s with
  | EmptyString => (EmptyString, EmptyString)
  | String c t =>
      if p c then let '(a, b) := span p t in (String c a, b)
      else (EmptyString, s)
  end.

Fixpoint allChars (p : ascii -> bool) (s : string) : bool :=
  match s with
  | EmptyString => true
  | String c t => p c && allChars p t
  end.

(** [s.match(/[p]+/)?.[0]]: the first maximal run of [p]-characters. *)
Fixpoint firstRun (p : ascii -> bool) (s : string) : option string :=
  match s with
  | EmptyString => None
  | String c t => if p c then Some (fst (span p s)) else firstRun p t
  end.

Definition digitValue (c : ascii) : Z := code c - 48.

(** [parseInt(ds, 10)] on a run of decimal digits. *)
Definition parseDigits (ds : string) : Z :=
  (fix go (acc : Z) (s : string) : Z :=
     match s with
     | EmptyString => acc
     | String c t => go (acc * 10 + digitValue c) t
     end) 0 ds.

(** The decimal text of an integer, as in [`${n}`]. *)
Definition ofInt (n : Z) : string := NilZero.string_of_int (Z.to_int n).

(** [[...new Set(xs)]]: first occurrences, in order. *)
Definition uniq (xs : list string) : list string :=
  (fix go (seen : list string) (l : list string) : list string :=
     match l with
     | [] => []
     | x :: r =>
         if existsb (String.eqb x) seen then go seen r
         else x :: go (x :: seen) r
     end) [] xs.

End JsString.



(** ** JavaScript numbers *)

Module JsNumber.
Import JsString.

(** A Number is a binary64 value. *)
Definition number : Type := spec_float.
Definition prec : Z := 53.
Definition emax : Z := 1024.

Definition NaN : number := S754_nan.
Definition isNaN (x : number) : bool :=
  match x with S754_nan => true | _ => false end.

(** An integer literal, or an array length, as a Number. *)
Definition ofZ (n : Z) : number := binary_normalize prec emax n 0 false.

Definition add : number -> number -> number := SFadd prec emax.
Definition div : number -> number -> number := SFdiv prec emax.

(** The Number nearest to [m * 10^e] (ties to even), with sign [neg]. *)
Definition ofDecimal (neg : bool) (m e : Z) : number :=
  match m with
  | Zpos p =>
      if 0 <=? e then
        match Zpos p * 10 ^ e with
        | Zpos q => binary_round prec emax neg q 0
        | _ => S754_zero neg
        end
      else
        let '(q, e', l) := SFdiv_core_binary prec emax (Zpos p) 0 (10 ^ (- e)) 0 in
        binary_round_aux prec emax neg q e' l
  | _ => S754_zero neg
  end.

Definition hexValue (c : ascii) : option Z :=
  if isDigit c then Some (code c - 48)
  else if (65 <=? code c) && (code c <=? 70) then Some (code c - 55)
  else if (97 <=? code c) && (code c <=? 102) then Some (code c - 87)
  else None.

(** The value of a non-empty run of digits of base [b], if [s] is one. *)
Definition parseRadix (b : Z) (s : string) : option Z :=
  match s with
  | EmptyString => None
  | _ =>
      (fix go (acc : Z) (r : string) : option Z :=
         match r with
         | EmptyString => Some acc
         | String c t =>
             match hexValue c with
             | Some d => if d <? b then go (acc * b + d) t else None
             | None => None
             end
         end) 0 s
  end.

Definition isChar (n : Z) (c : ascii) : bool := code c =? n.

(** An optional sign: [(negative, rest)]. *)
Definition takeSign (s : string) : bool * string :=
  match s with
  | String c t =>
      if isChar 45 c then (true, t)
      else if isChar 43 c then (false, t)
      else (false, s)
  | EmptyString => (false, s)
  end.

(** The exponent part: [e] or [E], an optional sign, digits to the end. *)
Definition parseExponent (s : string) : option Z :=
  match s with
  | EmptyString => Some 0
  | String c t =>
      if isChar 101 c || isChar 69 c then
        let '(neg, ds) := takeSign t in
        match ds with
        | EmptyString => None
        | _ => if allChars isDigit ds
               then Some (if neg then - parseDigits ds else parseDigits ds)
               else None
        end
      else None
  end.

(** StrDecimalLiteral without its sign. *)
Definition parseUnsignedDecimal (neg : bool) (s : string) : number :=
  if String.eqb s "Infinity" then S754_infinity neg
  else
    let '(ip, r1) := span isDigit s in
    let '(fp, r2) :=
      match r1 with
      | String c t => if isChar 46 c then span isDigit t else (EmptyString, r1)
      | EmptyString => (EmptyString, r1)
      end in
    match (ip ++ fp)%string with
    | EmptyString => NaN
    | ds =>
        match parseExponent r2 with
        | Some ex => ofDecimal neg (parseDigits ds) (ex - len fp)
        | None => NaN
        end
    end.

Definition radixPrefix (s : string) : option (Z * string) :=
  match s with
  | String z (String x t) =>
      if isChar 48 z then
        if isChar 120 x || isChar 88 x then Some (16, t)
        else if isChar 111 x || isChar 79 x then Some (8, t)
        else if isChar 98 x || isChar 66 x then Some (2, t)
        else None
      else None
  | _ => None
  end.

(** [Number(s)]: StringToNumber. *)
Definition Number (s : string) : number :=
  match trim s with
  | EmptyString => S754_zero false
  | t =>
      match radixPrefix t with
      | Some (b, ds) =>
          match parseRadix b ds with
          | Some n => ofZ n
          | None => NaN
          end
      | None => let '(neg, r) := takeSign t in parseUnsignedDecimal neg r
      end
  end.

Definition ltb (x y : number) : bool := SFltb x y.

Definition isNegZero (x : number) : bool :=
  match x with S754_zero true => true | _ => false end.

(** One step of [Math.max]: NaN is contagious and [+0] is above [-0]. *)
Definition max2 (a b : number) : number :=
  if isNaN a || isNaN b then NaN
  else if ltb a b then b
  else if ltb b a then a
  else if isNegZero a then b else a.

Definition min2 (a b : number) : number :=
  if isNaN a || isNaN b then NaN
  else if ltb a b then a
  else if ltb b a then b
  else if isNegZero a then a else b.

(** [Math.max(...xs)] and [Math.min(...xs)]. *)
Definition Math_max (xs : list number) : number :=
  fold_left max2 xs (S754_infinity true).
Definition Math_min (xs : list number) : number :=
  fold_left min2 xs (S754_infinity false).

Definition eqb (x y : number) : bool :=
  match x, y with
  | S754_zero a, S754_zero b => Bool.eqb a b
  | S754_infinity a, S754_infinity b => Bool.eqb a b
  | S754_finite a m e, S754_finite b n f => Bool.eqb a b && Pos.eqb m n && (e =? f)
  | _, _ => false
  end.

(** [n] with [10^(n-1) <= num/den < 10^n], for [0 < num/den]. *)
Definition decimalExponent (num den : Z) : Z :=
  if den <=? num then len (ofInt (num / den))
  else
    (fix go (fuel : nat) (j : Z) (p : Z) : Z :=
       match fuel with
       | O => 1 - j
       | S f => if den <=? p then 1 - j else go f (j + 1) (p * 10)
       end) (String.length (ofInt den)) 1 (num * 10).

(** The [k]-digit decimal [s * 10^(n-k)] nearest to [num/den] among those
    that convert back to [x], if there is one. *)
Definition shortestAt (x : number) (num den n k : Z) : option Z :=
  let tn := if n <=? k then num * 10 ^ (k - n) else num in
  let td := if n <=? k then den else den * 10 ^ (n - k) in
  let lo := tn / td in
  let hi := if tn mod td =? 0 then lo else lo + 1 in
  let okLo := eqb (ofDecimal false lo (n - k)) x in
  let okHi := eqb (ofDecimal false hi (n - k)) x in
  let dl := tn - lo * td in
  let dh := hi * td - tn in
  if okLo && okHi then
    Some (if dl <? dh then lo else if dh <? dl then hi
          else if Z.even lo then lo else hi)
  else if okLo then Some lo
  else if okHi then Some hi
  else None.

Fixpoint zeros (n : nat) : string :=
  match n with O => EmptyString | S m => String "0" (zeros m) end.

(** The text of the decimal [ds * 10^(n-k)] with [k] digits [ds]. *)
Definition formatDecimal (ds : string) (n : Z) : string :=
  let k := len ds in
  if (k <=? n) && (n <=? 21) then ds ++ zeros (Z.to_nat (n - k))
  else if (0 <? n) && (n <=? 21) then
    take (Z.to_nat n) ds ++ "." ++ drop (Z.to_nat n) ds
  else if (-6 <? n) && (n <=? 0) then "0." ++ zeros (Z.to_nat (- n)) ++ ds
  else
    let e := n - 1 in
    let es := (if e <? 0 then "-" else "+") ++ ofInt (Z.abs e) in
    if k =? 1 then ds ++ "e" ++ es
    else take 1 ds ++ "." ++ drop 1 ds ++ "e" ++ es.

(** The text of a positive finite Number: the fewest digits that convert
    back to it. *)
Definition positiveToString (m : positive) (e : Z) : string :=
  let x := S754_finite false m e in
  let num := if 0 <=? e then Zpos m * 2 ^ e else Zpos m in
  let den := if 0 <=? e then 1 else 2 ^ (- e) in
  let n := decimalExponent num den in
  (fix go (fuel : nat) (k : Z) : string :=
     match fuel with
     | O => formatDecimal (ofInt (num * 10 ^ (k - n) / den)) n
     | S f =>
         match shortestAt x num den n k with
         | Some s =>
             if s =? 10 ^ k then formatDecimal "1" (n + 1)
             else formatDecimal (ofInt s) n
         | None => go f (k + 1)
         end
     end) 17%nat 1.

(** [x.toString()]: Number::toString in radix 10. *)
Definition toString (x : number) : string :=
  match x with
  | S754_nan => "NaN"
  | S754_zero _ => "0"
  | S754_infinity false => "Infinity"
  | S754_infinity true => "-Infinity"
  | S754_finite false m e => positiveToString m e
  | S754_finite true m e => "-" ++ positiveToString m e
  end.

End JsNumber.


(** ** utils/functions.ts *)

Module Functions.
Import JsString JsNumber.

(** The result of [parseReference]. *)
Record Reference : Type := mkReference {
  colIndex : Z;
  row : Z;
  colAbsolute : bool;
  rowAbsolute : bool;
  original : string
}.

(** The loop of [parseReference] over the column letters. *)
Definition columnIndexOf (colLetter : string) : Z :=
  (fix go (colIndex : Z) (s : string) : Z :=
     match s with
     | EmptyString => colIndex
     | String c t => go (colIndex * 26 + (code c - 65)) t
     end) 0 colLetter.

(** [parseReference(ref)]; [None] stands for the thrown
    "Invalid cell reference" error. *)
Definition parseReference (ref : string) : option Reference :=
  if String.eqb ref "" then None
  else
    let original := trim ref in
    let colAbsolute := startsWith original "$" in
    let workingRef1 := if colAbsolute then substring_from 1 original else original in
    match fst (span isLetter workingRef1) with
    | EmptyString => None
    | colMatch =>
        let colLetter := toUpperCase colMatch in
        let workingRef2 := substring_from (String.length colLetter) workingRef1 in
        let rowAbsolute := startsWith workingRef2 "$" in
        let workingRef3 := if rowAbsolute then substring_from 1 workingRef2 else workingRef2 in
        match workingRef3 with
        | EmptyString => None
        | _ =>
            if allChars isDigit workingRef3 then
              Some {| colIndex := columnIndexOf colLetter;
                      row := parseDigits workingRef3;
                      colAbsolute := colAbsolute;
                      rowAbsolute := rowAbsolute;
                      original := original |}
            else None
        end
    end.

(** [normalizeReference(ref, currentCell)]; an absent [currentCell] is
    [None], and the empty string is falsy as well. *)
Definition normalizeReference (ref : string) (currentCell : option string) : string :=
  let noCurrent :=
    match currentCell with
    | None => true
    | Some c => String.eqb c ""
    end in
  if noCurrent || includesChar "$" ref then removeChar "$" ref else ref.

(** The integers [lo, lo+1, ..., hi] of a [for (i = lo; i <= hi; i++)]. *)
Definition upto (lo hi : Z) : list Z :=
  map (fun i => lo + Z.of_nat i) (seq 0 (Z.to_nat (hi - lo + 1))).

(** The two nested loops of [parseRange]. *)
Definition rangeCells (startRef endRef : Reference) : list string :=
  flat_map
    (fun col =>
       map (fun row => fromCharCode (65 + col) ++ ofInt row)
           (upto (row startRef) (row endRef)))
    (upto (colIndex startRef) (colIndex endRef)).

(** [parseRange(range, currentCell)]; the [catch] block returns []. *)
Definition parseRange (range : string) (currentCell : option string) : list string :=
  if String.eqb range "" || String.eqb (trim range) "" then []
  else
    let parts := split ":" range in
    let start := trim (nth 0 parts "") in
    let end_ :=
      match parts with
      | _ :: p1 :: _ => trim p1
      | _ => start
      end in
    if String.eqb end_ "" then [normalizeReference start currentCell]
    else
      match parseReference start with
      | None => []
      | Some startRef =>
          match parseReference end_ with
          | None => []
          | Some endRef => rangeCells startRef endRef
          end
      end.

(** The loop state of [splitParameters]. *)
Record SplitState : Type := mkSplit {
  params : list string;
  currentParam : string;
  inQuotes : bool;
  quoteChar : option ascii
}.

Definition pushChar (s : string) (c : ascii) : string := s ++ String c EmptyString.

Definition splitStep (st : SplitState) (char : ascii) : SplitState :=
  let sameQuote :=
    match quoteChar st with
    | Some q => Ascii.eqb q char
    | None => false
    end in
  if isQuote char && (negb (inQuotes st) || sameQuote) then
    let inQuotes' := negb (inQuotes st) in
    {| params := params st;
       currentParam := pushChar (currentParam st) char;
       inQuotes := inQuotes';
       quoteChar := if inQuotes' then Some char else quoteChar st |}
  else if Ascii.eqb char "," && negb (inQuotes st) then
    {| params := params st ++ [trim (currentParam st)];
       currentParam := "";
       inQuotes := inQuotes st;
       quoteChar := quoteChar st |}
  else
    {| params := params st;
       currentParam := pushChar (currentParam st) char;
       inQuotes := inQuotes st;
       quoteChar := quoteChar st |}.

Fixpoint splitLoop (st : SplitState) (s : string) : SplitState :=
  match s with
  | EmptyString => st
  | String c t => splitLoop (splitStep st c) t
  end.

(** [splitParameters(paramString)] *)
Definition splitParameters (paramString : string) : list string :=
  let st := splitLoop (mkSplit [] "" false None) paramString in
  match currentParam st with
  | EmptyString => params st
  | cur => params st ++ [trim cur]
  end.

(** [range.map(getCellValue).filter(v => !isNaN(Number(v)))] *)
Definition numericValues (getCellValue : string -> string) (range : list string)
  : list string :=
  filter (fun v => negb (isNaN (Number v))) (map getCellValue range).

(** [values.reduce((sum, val) => sum + Number(val), 0)] *)
Definition sumValues (values : list string) : number :=
  fold_left (fun sum val => add sum (Number val)) values (ofZ 0).

Definition lengthOf {A : Type} (xs : list A) : number := ofZ (Z.of_nat (List.length xs)).

Definition expected3 : string :=
  "#ERROR: Expected 3 parameters (range, find_text, replace_text)".

(** [evaluateFormula(formula, getCellValue)].  Nothing in the body of the
    FIND_AND_REPLACE [try] block throws on strings, so its [catch] branch
    has no counterpart here. *)
Definition evaluateFormula (formula : string) (getCellValue : string -> string) : string :=
  if negb (startsWith formula "=") then formula
  else
    let cleanFormula := toUpperCase (substring_from 1 formula) in
    if startsWith cleanFormula "SUM(" then
      let range := parseRange (slice cleanFormula 4 (-1)) None in
      let values := numericValues getCellValue range in
      toString (sumValues values)
    else if startsWith cleanFormula "AVERAGE(" then
      let range := parseRange (slice cleanFormula 8 (-1)) None in
      let values := numericValues getCellValue range in
      toString (div (sumValues values) (lengthOf values))
    else if startsWith cleanFormula "MAX(" then
      let range := parseRange (slice cleanFormula 4 (-1)) None in
      let values := numericValues getCellValue range in
      toString (Math_max (map Number values))
    else if startsWith cleanFormula "MIN(" then
      let range := parseRange (slice cleanFormula 4 (-1)) None in
      let values := numericValues getCellValue range in
      toString (Math_min (map Number values))
    else if startsWith cleanFormula "COUNT(" then
      let range := parseRange (slice cleanFormula 6 (-1)) None in
      toString (lengthOf (numericValues getCellValue range))
    else if startsWith cleanFormula "TRIM(" then
      let ref := slice cleanFormula 5 (-1) in
      trim (getCellValue ref)
    else if startsWith cleanFormula "UPPER(" then
      let ref := slice cleanFormula 6 (-1) in
      toUpperCase (getCellValue ref)
    else if startsWith cleanFormula "LOWER(" then
      let ref := slice cleanFormula 6 (-1) in
      toLowerCase (getCellValue ref)
    else if startsWith cleanFormula "REMOVE_DUPLICATES(" then
      let range := parseRange (slice cleanFormula 17 (-1)) None in
      let values := map getCellValue range in
      let uniqueValues := uniq values in
      join ", " uniqueValues
    else if startsWith cleanFormula "FIND_AND_REPLACE(" then
      let params := splitParameters (slice cleanFormula 16 (-1)) in
      match params with
      | [rangeStr; findText; replaceText] =>
          let cleanFindText := stripQuotes findText in
          let cleanReplaceText := stripQuotes replaceText in
          let range := parseRange rangeStr None in
          let values := map getCellValue range in
          let replacedValues :=
            map (fun value => replaceAll value cleanFindText cleanReplaceText) values in
          join ", " replacedValues
      | _ => expected3
      end
    else formula.

End Functions.


(** ** JavaScript objects used as dictionaries *)

Module JsObject.

(** Own properties in insertion order. *)
Definition obj (A : Type) : Type := list (string * A).

(** [o[k]] *)
Fixpoint get {A : Type} (o : obj A) (k : string) : option A :=
  match o with
  | [] => None
  | (k', v) :: r => if String.eqb k' k then Some v else get r k
  end.

(** [o[k] = v]: an existing property keeps its place, a new one goes last. *)
Fixpoint set {A : Type} (o : obj A) (k : string) (v : A) : obj A :=
  match o with
  | [] => [(k, v)]
  | (k', v') :: r => if String.eqb k' k then (k', v) :: r else (k', v') :: set r k v
  end.

(** [Object.keys(o)] *)
Definition keys {A : Type} (o : obj A) : list string := map fst o.

End JsObject.

(** ** types/sheet.ts *)

Module SheetTypes.
Import JsNumber JsObject.

Record CellStyle : Type := mkCellStyle {
  bold : bool;
  italic : bool;
  fontSize : number;
  color : string
}.

(** [id] is an optional property. *)
Record CellData : Type := mkCellData {
  id : option string;
  value : string;
  formula : string;
  style : CellStyle
}.

(** [Partial<CellData>]: the properties that are present. *)
Record PartialCellData : Type := mkPartial {
  p_id : option string;
  p_value : option string;
  p_formula : option string;
  p_style : option CellStyle
}.

Variant ClipboardType : Type := copy | cut.

(** [ClipboardData]; [type] and [data] are optional. *)
Record ClipboardData : Type := mkClipboard {
  type : option ClipboardType;
  data : option (list CellData);
  clip_cells : obj CellData;
  topLeft : string;
  bottomRight : string
}.

Record HistoryState : Type := mkHistoryState {
  h_cells : obj CellData;
  h_rows : Z;
  h_cols : Z
}.

(** The data part of [SheetState]. *)
Record SheetState : Type := mkSheetState {
  cells : obj CellData;
  selectedCell : option string;
  selectedCells : list string;
  rows : Z;
  cols : Z;
  isDragging : bool;
  dragStart : option string;
  dragStartCell : option string;
  clipboard : option ClipboardData;
  history : list HistoryState;
  historyIndex : Z
}.

End SheetTypes.

(** ** store/sheetStore.ts *)

Module SheetStore.
Import JsString JsNumber JsObject SheetTypes.

Definition DEFAULT_ROWS : Z := 100.
Definition DEFAULT_COLS : Z := 26.
Definition MAX_HISTORY : Z := 50.

Definition createEmptyCell : CellData :=
  {| id := None;
     value := "";
     formula := "";
     style := {| bold := false; italic := false; fontSize := ofZ 14; color := "#000000" |} |}.

(** The store as [create] makes it. *)
Definition initialState : SheetState :=
  {| cells := [];
     selectedCell := None;
     selectedCells := [];
     rows := DEFAULT_ROWS;
     cols := DEFAULT_COLS;
     isDragging := false;
     dragStart := None;
     dragStartCell := None;
     clipboard := None;
     history := [];
     historyIndex := -1 |}.

(** *** Partial updates, as passed to zustand's [set] *)

Definition setCells (c : obj CellData) (st : SheetState) : SheetState :=
  mkSheetState c (selectedCell st) (selectedCells st) (rows st) (cols st)
    (isDragging st) (dragStart st) (dragStartCell st) (clipboard st)
    (history st) (historyIndex st).

Definition setRows (r : Z) (st : SheetState) : SheetState :=
  mkSheetState (cells st) (selectedCell st) (selectedCells st) r (cols st)
    (isDragging st) (dragStart st) (dragStartCell st) (clipboard st)
    (history st) (historyIndex st).

Definition setCols (c : Z) (st : SheetState) : SheetState :=
  mkSheetState (cells st) (selectedCell st) (selectedCells st) (rows st) c
    (isDragging st) (dragStart st) (dragStartCell st) (clipboard st)
    (history st) (historyIndex st).

Definition setHistory (h : list HistoryState) (i : Z) (st : SheetState) : SheetState :=
  mkSheetState (cells st) (selectedCell st) (selectedCells st) (rows st) (cols st)
    (isDragging st) (dragStart st) (dragStartCell st) (clipboard st) h i.

Definition setClipboard (c : option ClipboardData) (st : SheetState) : SheetState :=
  mkSheetState (cells st) (selectedCell st) (selectedCells st) (rows st) (cols st)
    (isDragging st) (dragStart st) (dragStartCell st) c
    (history st) (historyIndex st).

Definition setSelection (sel : list string) (st : SheetState) : SheetState :=
  mkSheetState (cells st) (selectedCell st) sel (rows st) (cols st)
    (isDragging st) (dragStart st) (dragStartCell st) (clipboard st)
    (history st) (historyIndex st).

(** [set({cells, rows, cols, historyIndex})] of [undo] and [redo]. *)
Definition restore (h : HistoryState) (i : Z) (st : SheetState) : SheetState :=
  mkSheetState (h_cells h) (selectedCell st) (selectedCells st) (h_rows h) (h_cols h)
    (isDragging st) (dragStart st) (dragStartCell st) (clipboard st)
    (history st) i.

(** *** Arrays *)

Definition lengthZ {A : Type} (xs : list A) : Z := Z.of_nat (List.length xs).

(** [xs.slice(0, e)] *)
Definition sliceTo {A : Type} (xs : list A) (e : Z) : list A :=
  let to := if e <? 0 then Z.max (lengthZ xs + e) 0 else Z.min e (lengthZ xs) in
  firstn (Z.to_nat to) xs.

(** [xs[i]]; [None] is [undefined]. *)
Definition at_ {A : Type} (xs : list A) (i : Z) : option A :=
  if i <? 0 then None else nth_error xs (Z.to_nat i).

(** *** History *)

Definition snapshot (st : SheetState) : HistoryState :=
  {| h_cells := cells st; h_rows := rows st; h_cols := cols st |}.

Definition saveState (state : SheetState) : SheetState :=
  let currentState := snapshot state in
  let truncated :=
    if historyIndex state <? lengthZ (history state) - 1
    then sliceTo (history state) (historyIndex state + 1)
    else history state in
  let pushed := (truncated ++ [currentState])%list in
  let newHistory := if MAX_HISTORY <? lengthZ pushed then tl pushed else pushed in
  setHistory newHistory (lengthZ newHistory - 1) state.

(** Reading a property of [undefined] throws before [set] is reached:
    the state stays as it is. *)
Definition undo (state : SheetState) : SheetState :=
  if historyIndex state <=? 0 then state
  else
    let newIndex := historyIndex state - 1 in
    match at_ (history state) newIndex with
    | Some previousState => restore previousState newIndex state
    | None => state
    end.

Definition redo (state : SheetState) : SheetState :=
  if lengthZ (history state) - 1 <=? historyIndex state then state
  else
    let newIndex := historyIndex state + 1 in
    match at_ (history state) newIndex with
    | Some nextState => restore nextState newIndex state
    | None => state
    end.

(** *** Rows, columns and cells *)

Definition addRow (st : SheetState) : SheetState :=
  let state := saveState st in setRows (rows state + 1) state.

Definition deleteRow (st : SheetState) : SheetState :=
  let state := saveState st in setRows (Z.max 1 (rows state - 1)) state.

Definition addColumn (st : SheetState) : SheetState :=
  let state := saveState st in setCols (cols state + 1) state.

Definition deleteColumn (st : SheetState) : SheetState :=
  let state := saveState st in setCols (Z.max 1 (cols state - 1)) state.

Definition orElse {A : Type} (o : option A) (d : A) : A :=
  match o with Some a => a | None => d end.

(** [{...base, ...data}] *)
Definition mergeCell (base : CellData) (data : PartialCellData) : CellData :=
  {| id := match p_id data with Some i => Some i | None => id base end;
     value := orElse (p_value data) (value base);
     formula := orElse (p_formula data) (formula base);
     style := orElse (p_style data) (style base) |}.

Definition updateCell (cellId : string) (data : PartialCellData) (st : SheetState)
  : SheetState :=
  let state := saveState st in
  setCells
    (set (cells state) cellId
       (mergeCell (orElse (get (cells state) cellId) createEmptyCell) data))
    state.

Definition setSelectedCell (cellId : option string) (st : SheetState) : SheetState :=
  mkSheetState (cells st) cellId (selectedCells st) (rows st) (cols st)
    (isDragging st) (dragStart st) (dragStartCell st) (clipboard st)
    (history st) (historyIndex st).

(** The argument of [setSelectedCells]: an array or a single id. *)
Variant CellIds : Type := Many (ids : list string) | One (cellId : string).

Definition setSelectedCells (ids : CellIds) (st : SheetState) : SheetState :=
  setSelection (match ids with Many l => l | One c => [c] end) st.

(** *** Helper functions *)

(** [columnLetterToIndex(col)] *)
Definition columnLetterToIndex (col : string) : Z :=
  (fix go (result : Z) (s : string) : Z :=
     match s with
     | EmptyString => result
     | String c t => go (result * 26 + (code c - 64)) t
     end) 0 col - 1.

(** The [while (index > 0)] loop of [indexToColumnLetter]; [index]
    shrinks at every turn, so [index] turns are enough. *)
Fixpoint indexToColumnLetterLoop (fuel : nat) (index : Z) (letter : string) : string :=
  match fuel with
  | O => letter
  | S f =>
      if 0 <? index then
        let remainder := (index - 1) mod 26 in
        indexToColumnLetterLoop f ((index - 1) / 26) (fromCharCode (65 + remainder) ++ letter)
      else letter
  end.

(** [indexToColumnLetter(index)] *)
Definition indexToColumnLetter (index : Z) : string :=
  indexToColumnLetterLoop (Z.to_nat (index + 1)) (index + 1) "".

(** [cellId.match(/[A-Z]+/)?.[0] || ''], then [columnLetterToIndex]. *)
Definition cellColumn (cellId : string) : Z :=
  columnLetterToIndex (orElse (firstRun isUpper cellId) "").

(** [parseInt(cellId.match(/\d+/)?.[0] || '0')] *)
Definition cellRow (cellId : string) : Z :=
  parseDigits (orElse (firstRun isDigit cellId) "0").

(** [getSelectionBetween(start, end)] *)
Definition getSelectionBetween (start end_ : string) : list string :=
  let startColIndex := cellColumn start in
  let startRow := cellRow start in
  let endColIndex := cellColumn end_ in
  let endRow := cellRow end_ in
  let minCol := Z.min startColIndex endColIndex in
  let maxCol := Z.max startColIndex endColIndex in
  let minRow := Z.min startRow endRow in
  let maxRow := Z.max startRow endRow in
  flat_map
    (fun row =>
       map (fun colIdx => indexToColumnLetter colIdx ++ ofInt row)
           (Functions.upto minCol maxCol))
    (Functions.upto minRow maxRow).

(** [x < m] where [None] is [Infinity]. *)
Definition below (x : Z) (m : option Z) : bool :=
  match m with None => true | Some y => x <? y end.

(** [getTopLeftCell(cells)].  On the empty array both minima stay
    [Infinity] and the loop of [indexToColumnLetter] does not end:
    [None].  Every caller returns early on an empty selection. *)
Definition getTopLeftCell (cellIds : list string) : option string :=
  let step (acc : option Z * option Z) (cellId : string) :=
    let colIndex := cellColumn cellId in
    let row := cellRow cellId in
    (if below colIndex (fst acc) then Some colIndex else fst acc,
     if below row (snd acc) then Some row else snd acc) in
  match fold_left step cellIds (None, None) with
  | (Some minCol, Some minRow) => Some (indexToColumnLetter minCol ++ ofInt minRow)
  | _ => None
  end.

(** [getBottomRightCell(cells)] *)
Definition getBottomRightCell (cellIds : list string) : string :=
  let step (acc : Z * Z) (cellId : string) :=
    let colIndex := cellColumn cellId in
    let row := cellRow cellId in
    (if fst acc <? colIndex then colIndex else fst acc,
     if snd acc <? row then row else snd acc) in
  let '(maxCol, maxRow) := fold_left step cellIds (-1, -1) in
  indexToColumnLetter maxCol ++ ofInt maxRow.

(** *** Drag *)

Definition startDrag (cellId : string) (st : SheetState) : SheetState :=
  mkSheetState (cells st) (selectedCell st) [cellId] (rows st) (cols st)
    true (Some cellId) (Some cellId) (clipboard st)
    (history st) (historyIndex st).

(** [null] and the empty string are falsy. *)
Definition truthy (o : option string) : option string :=
  match o with
  | Some s => if String.eqb s "" then None else Some s
  | None => None
  end.

Definition handleDrag (cellId : string) (state : SheetState) : SheetState :=
  if negb (isDragging state) then state
  else match truthy (dragStart state) with
       | None => state
       | Some start => setSelection (getSelectionBetween start cellId) state
       end.

Definition endDrag (st : SheetState) : SheetState :=
  mkSheetState (cells st) (selectedCell st) (selectedCells st) (rows st) (cols st)
    false (dragStart st) (dragStartCell st) (clipboard st)
    (history st) (historyIndex st).

(** *** Clipboard *)

(** The [forEach] of [copySelectedCells]: cells that exist are copied. *)
Definition copyExisting (source : obj CellData) (cellsToCopy : obj CellData)
  (cellId : string) : obj CellData :=
  match get source cellId with
  | Some c => set cellsToCopy cellId c
  | None => cellsToCopy
  end.

(** [copySelectedCells()].  The text written to the system clipboard
    afterwards is not part of the store. *)
Definition copySelectedCells (state : SheetState) : SheetState :=
  match selectedCells state with
  | [] => state
  | sel =>
      match getTopLeftCell sel with
      | None => state
      | Some tl =>
          setClipboard
            (Some {| type := None;
                     data := None;
                     clip_cells := fold_left (copyExisting (cells state)) sel [];
                     topLeft := tl;
                     bottomRight := getBottomRightCell sel |})
            state
      end
  end.

(** The body of the [forEach] of [pasteCells]. *)
Definition pasteOne (state : SheetState) (colOffset rowOffset : Z)
  (newCells : obj CellData) (entry : string * CellData) : obj CellData :=
  let '(cellId, cellData) := entry in
  let newColIndex := cellColumn cellId + colOffset in
  let newRow := cellRow cellId + rowOffset in
  if (newColIndex <? 0) || (cols state <=? newColIndex)
     || (newRow <=? 0) || (rows state <? newRow)
  then newCells
  else
    let newCellId := indexToColumnLetter newColIndex ++ ofInt newRow in
    let newCells' := set newCells newCellId cellData in
    if negb (String.eqb (formula cellData) "")
    then set newCells' newCellId cellData
    else newCells'.

Definition pasteCells (targetCellId : string) (st : SheetState) : SheetState :=
  let state := saveState st in
  match clipboard state with
  | None => state
  | Some clip =>
      let colOffset := cellColumn targetCellId - cellColumn (topLeft clip) in
      let rowOffset := cellRow targetCellId - cellRow (topLeft clip) in
      setCells
        (fold_left (pasteOne state colOffset rowOffset) (clip_cells clip) (cells state))
        state
  end.

(** [{ id: cellId, ...(state.cells[cellId] || createEmptyCell()) }]: an
    [id] property of the cell itself comes later and wins. *)
Definition withId (cellId : string) (c : CellData) : CellData :=
  {| id := match id c with Some i => Some i | None => Some cellId end;
     value := value c;
     formula := formula c;
     style := style c |}.

Definition cellOrEmpty (source : obj CellData) (cellId : string) : CellData :=
  orElse (get source cellId) createEmptyCell.

(** The [reduce] that builds the [cells] of the clipboard. *)
Definition copyAll (source : obj CellData) (sel : list string) : obj CellData :=
  fold_left (fun acc cellId => set acc cellId (cellOrEmpty source cellId)) sel [].

Definition selectionClipboard (t : ClipboardType) (state : SheetState) (sel : list string)
  (tl : string) : ClipboardData :=
  {| type := Some t;
     data := Some (map (fun cellId => withId cellId (cellOrEmpty (cells state) cellId)) sel);
     clip_cells := copyAll (cells state) sel;
     topLeft := tl;
     bottomRight := getBottomRightCell sel |}.

Definition copySelection (state : SheetState) : SheetState :=
  match selectedCells state with
  | [] => state
  | sel =>
      match getTopLeftCell sel with
      | None => state
      | Some tl => setClipboard (Some (selectionClipboard copy state sel tl)) state
      end
  end.

Definition cutSelection (st : SheetState) : SheetState :=
  let state := saveState st in
  match selectedCells state with
  | [] => state
  | sel =>
      match getTopLeftCell sel with
      | None => state
      | Some tl =>
          let newCells :=
            fold_left (fun acc cellId => set acc cellId createEmptyCell) sel (cells state) in
          setCells newCells
            (setClipboard (Some (selectionClipboard cut state sel tl)) state)
      end
  end.

(** [parseCellId(cellId)]; [None] is the thrown "Invalid cell ID". *)
Definition parseCellId (cellId : string) : option (Z * string) :=
  match firstRun isUpper cellId, firstRun isDigit cellId with
  | Some colMatch, Some rowMatch => Some (parseDigits rowMatch, colMatch)
  | _, _ => None
  end.

(** [xs.map(f)] where [f] may throw. *)
Fixpoint mapM {A B : Type} (f : A -> option B) (xs : list A) : option (list B) :=
  match xs with
  | [] => Some []
  | x :: r =>
      match f x with
      | None => None
      | Some y =>
          match mapM f r with
          | None => None
          | Some ys => Some (y :: ys)
          end
      end
  end.

(** [Math.min(...xs)] on integers; [None] is [Infinity]. *)
Definition minOf (xs : list Z) : option Z :=
  fold_left (fun acc x => if below x acc then Some x else acc) xs None.

(** [calculatePasteOffset(sourceCellIds, targetCellId)] as
    [(rowOffset, colOffset)]. *)
Definition calculatePasteOffset (sourceCellIds : list string) (targetCellId : string)
  : option (Z * Z) :=
  match sourceCellIds with
  | [] => Some (0, 0)
  | _ =>
      match mapM parseCellId sourceCellIds with
      | None => None
      | Some parsed =>
          match minOf (map fst parsed),
                minOf (map (fun rc => columnLetterToIndex (snd rc)) parsed),
                parseCellId targetCellId with
          | Some minSourceRow, Some minSourceCol, Some (targetRow, targetCol) =>
              Some (targetRow - minSourceRow, columnLetterToIndex targetCol - minSourceCol)
          | _, _, _ => None
          end
      end
  end.

(** [{ ...createEmptyCell(), value, formula, style }] *)
Definition pastedCell (c : CellData) : CellData :=
  {| id := None; value := value c; formula := formula c; style := style c |}.

(** The [forEach] of the multi-cell branch of [pasteSelection].  [col] is
    a string there, so [col + colOffset] is a concatenation and
    [createCellId] appends the row to it. *)
Fixpoint pasteData (rowOffset colOffset : Z) (newCells : obj CellData)
  (cs : list CellData) : option (obj CellData) :=
  match cs with
  | [] => Some newCells
  | cell :: r =>
      match id cell with
      | None => None
      | Some cellId =>
          match parseCellId cellId with
          | None => None
          | Some (row, col) =>
              let newCellId := (col ++ ofInt colOffset) ++ ofInt (row + rowOffset) in
              pasteData rowOffset colOffset (set newCells newCellId (pastedCell cell)) r
          end
      end
  end.

(** [pasteSelection()].  An exception leaves the state as [saveState] made it. *)
Definition pasteSelection (st : SheetState) : SheetState :=
  let state := saveState st in
  match clipboard state, truthy (selectedCell state) with
  | Some clip, Some target =>
      match data clip with
      | Some [] => state
      | Some ((sourceCell :: rest) as cs) =>
          match rest, selectedCells state with
          | [], _ :: _ :: _ =>
              setCells
                (fold_left (fun acc cellId => set acc cellId (pastedCell sourceCell))
                   (selectedCells state) (cells state))
                state
          | _, _ =>
              match mapM id cs with
              | None => state
              | Some cellIds =>
                  match calculatePasteOffset cellIds target with
                  | None => state
                  | Some (rowOffset, colOffset) =>
                      match pasteData rowOffset colOffset (cells state) cs with
                      | None => state
                      | Some newCells => setCells newCells state
                      end
                  end
              end
          end
      | None => pasteCells target state
      end
  | _, _ => state
  end.

(** *** Import and clear *)

(** [clearSpreadsheet()], given the answer of [window.confirm]. *)
Definition clearSpreadsheet (confirmed : bool) (st : SheetState) : SheetState :=
  if confirmed then
    let state := saveState st in
    let ids :=
      flat_map
        (fun col =>
           map (fun row => indexToColumnLetter col ++ ofInt row)
               (Functions.upto 1 (rows state)))
        (Functions.upto 0 (cols state - 1)) in
    setCells
      (fold_left
         (fun acc cellId =>
            set acc cellId
              {| id := None; value := ""; formula := ""; style := style createEmptyCell |})
         ids [])
      state
  else st.

(** The loop state of the line parser of [importFromCSV]. *)
Record CsvState : Type := mkCsv {
  values : list string;
  currentValue : string;
  inQuotes : bool
}.

(** [skip] is set when [i++] has consumed the second of two quotes. *)
Fixpoint csvLoop (cs : CsvState) (skip : bool) (line : string) : CsvState :=
  match line with
  | EmptyString => cs
  | String char t =>
      if skip then csvLoop cs false t
      else if isChar 34 char then
        if inQuotes cs && startsWith t doubleQuote
        then csvLoop (mkCsv (values cs) (Functions.pushChar (currentValue cs) char) (inQuotes cs))
               true t
        else csvLoop (mkCsv (values cs) (currentValue cs) (negb (inQuotes cs))) false t
      else if isChar 44 char && negb (inQuotes cs)
      then csvLoop (mkCsv (values cs ++ [currentValue cs]) "" (inQuotes cs)) false t
      else csvLoop (mkCsv (values cs) (Functions.pushChar (currentValue cs) char) (inQuotes cs))
             false t
  end.

Definition csvValues (line : string) : list string :=
  let cs := csvLoop (mkCsv [] "" false) false line in
  (values cs ++ [currentValue cs])%list.

(** What [reader.onload] accumulates: [(newCells, maxRow, maxCol)]. *)
Definition ImportAcc : Type := (obj CellData * Z * Z)%type.

Definition importValue (rowIndex : Z) (acc : ImportAcc) (entry : Z * string) : ImportAcc :=
  let '(newCells, maxRow, maxCol) := acc in
  let '(colIndex, v) := entry in
  let cellId := indexToColumnLetter colIndex ++ ofInt (rowIndex + 1) in
  let isFormula := startsWith v "=" in
  (set newCells cellId
     {| id := None;
        value := if isFormula then "" else v;
        formula := if isFormula then v else "";
        style := style createEmptyCell |},
   maxRow,
   if maxCol <? colIndex then colIndex else maxCol).

Definition indexed {A : Type} (xs : list A) : list (Z * A) :=
  combine (map Z.of_nat (seq 0 (List.length xs))) xs.

Definition importLine (acc : ImportAcc) (entry : Z * string) : ImportAcc :=
  let '(rowIndex, line) := entry in
  if String.eqb (trim line) "" then acc
  else
    let '(newCells, maxRow, maxCol) :=
      fold_left (importValue rowIndex) (indexed (csvValues line)) acc in
    (newCells, if maxRow <? rowIndex then rowIndex else maxRow, maxCol).

(** [importFromCSV(file)] up to the start of the asynchronous read. *)
Definition importFromCSV (st : SheetState) : SheetState := saveState st.

(** The [reader.onload] handler, given the text of the file. *)
Definition importLoaded (content : string) (state : SheetState) : SheetState :=
  let lines := split (ascii_of_N 10) content in
  let '(newCells, maxRow, maxCol) := fold_left importLine (indexed lines) ([], 0, 0) in
  setCells newCells
    (setRows (Z.max (rows state) (maxRow + 1))
       (setCols (Z.max (cols state) (maxCol + 1)) state)).

(** [cells[ref]?.value || ''] *)
Definition getCellValue (cs : obj CellData) (ref : string) : string :=
  match get cs ref with
  | Some c => value c
  | None => ""
  end.

Definition evaluateCell (updatedCells : obj CellData) (cellId : string) : obj CellData :=
  match get updatedCells cellId with
  | None => updatedCells
  | Some cell =>
      if startsWith (formula cell) "="
      then set updatedCells cellId
             {| id := id cell;
                value := Functions.evaluateFormula (formula cell) (getCellValue updatedCells);
                formula := formula cell;
                style := style cell |}
      else updatedCells
  end.

(** The [setTimeout] callback of [importFromCSV]: formulas are evaluated
    in key order, each one seeing the values written before it.  The
    write goes to the cell object in place; here it reaches the current
    [cells] only. *)
Definition importEvaluate (state : SheetState) : SheetState :=
  setCells (fold_left evaluateCell (keys (cells state)) (cells state)) state.

End SheetStore.

(** ** components/Cell.tsx and components/FormulaBar.tsx *)

Module CellView.
Import JsString JsObject SheetTypes SheetStore.

(** [cells[id] || { value: '', formula: '', style: ... }] *)
Definition cellOf (state : SheetState) (cellId : string) : CellData :=
  orElse (get (cells state) cellId) createEmptyCell.

(** The recalculation effect of the cell [cellId]: one evaluation of its
    formula over the stored values, written back when it differs. *)
Definition recalculate (cellId : string) (state : SheetState) : SheetState :=
  let cell := cellOf state cellId in
  if String.eqb (formula cell) "" then state
  else
    let v := Functions.evaluateFormula (formula cell) (getCellValue (cells state)) in
    if String.eqb v (value cell) then state
    else updateCell cellId (mkPartial None (Some v) None None) state.


(** [handleChange] of the formula bar. *)
Definition formulaBarChange (newValue : string) (state : SheetState) : SheetState :=
  match truthy (selectedCell state) with
  | None => state
  | Some cellId =>
      updateCell cellId
        (mkPartial None (Some (if startsWith newValue "=" then "" else newValue))
           (Some newValue) None)
        state
  end.

End CellView.

(** ** Sessions: sequences of store actions *)

Module Session.
Import JsString JsObject SheetTypes SheetStore.

(** The actions of the store, the phases of a CSV import and the
    recalculation effect of a cell. *)
Inductive action : Type :=
| SaveState
| Undo
| Redo
| AddRow
| DeleteRow
| AddColumn
| DeleteColumn
| UpdateCell (cellId : string) (data : PartialCellData)
| SetSelectedCell (cellId : option string)
| SetSelectedCells (ids : CellIds)
| StartDrag (cellId : string)
| HandleDrag (cellId : string)
| EndDrag
| CopySelectedCells
| PasteCells (targetCellId : string)
| CopySelection
| CutSelection
| PasteSelection
| ExportToCSV
| ImportFromCSV
| ImportLoaded (content : string)
| ImportEvaluate
| ClearSpreadsheet (confirmed : bool)
| Recalculate (cellId : string).

Definition perform (a : action) (st : SheetState) : SheetState :=
  match a with
  | SaveState => saveState st
  | Undo => undo st
  | Redo => redo st
  | AddRow => addRow st
  | DeleteRow => deleteRow st
  | AddColumn => addColumn st
  | DeleteColumn => deleteColumn st
  | UpdateCell cellId data => updateCell cellId data st
  | SetSelectedCell cellId => setSelectedCell cellId st
  | SetSelectedCells ids => setSelectedCells ids st
  | StartDrag cellId => startDrag cellId st
  | HandleDrag cellId => handleDrag cellId st
  | EndDrag => endDrag st
  | CopySelectedCells => copySelectedCells st
  | PasteCells targetCellId => pasteCells targetCellId st
  | CopySelection => copySelection st
  | CutSelection => cutSelection st
  | PasteSelection => pasteSelection st
  | ExportToCSV => st
  | ImportFromCSV => importFromCSV st
  | ImportLoaded content => importLoaded content st
  | ImportEvaluate => importEvaluate st
  | ClearSpreadsheet confirmed => clearSpreadsheet confirmed st
  | Recalculate cellId => CellView.recalculate cellId st
  end.

Definition run (actions : list action) (st : SheetState) : SheetState :=
  fold_left (fun s a => perform a s) actions st.

(** The mutating edits: the actions that begin with [saveState]. *)
Definition isEdit (a : action) : bool :=
  match a with
  | AddRow | DeleteRow | AddColumn | DeleteColumn
  | UpdateCell _ _ | PasteCells _ | CutSelection | PasteSelection
  | ImportFromCSV | ClearSpreadsheet true => true
  | _ => false
  end.


End Session.


(** ** Vocabulary of the properties *)

Module Properties.
Import JsString JsNumber JsObject SheetTypes Functions SheetStore Session.

(** An Address: a column index, a row and the two absolute markers. *)
Record Address : Type := mkAddress {
  column : Z;
  addrRow : Z;
  columnAbsolute : bool;
  rowAbsolute_ : bool
}.

(** Modelled from the spec: the textual form of an Address (section 4.1),
    which no function of the repository builds with its [$] markers.  A
    [$] per absolute flag, the column letters of the store's
    [indexToColumnLetter], the decimal row; without flags this is the
    store's [createCellId(row, col)]. *)
Definition encode (a : Address) : string :=
  (if columnAbsolute a then "$" else "")
  ++ indexToColumnLetter (column a)
  ++ (if rowAbsolute_ a then "$" else "")
  ++ ofInt (addrRow a).

(** The Address that [parseReference] reads. *)
Definition decode (text : string) : option Address :=
  match parseReference text with
  | Some r => Some (mkAddress (colIndex r) (row r) (colAbsolute r) (rowAbsolute r))
  | None => None
  end.

(** The prefixes that [evaluateFormula] dispatches on. *)
Definition functionNames : list string :=
  ["SUM("; "AVERAGE("; "MAX("; "MIN("; "COUNT("; "TRIM("; "UPPER("; "LOWER(";
   "REMOVE_DUPLICATES("; "FIND_AND_REPLACE("].

(** [formula.substring(1).toUpperCase()] *)
Definition cleanOf (formula : string) : string :=
  toUpperCase (substring_from 1 formula).

Definition recognized (formula : string) : bool :=
  startsWith formula "=" && existsb (startsWith (cleanOf formula)) functionNames.

(** Where [pasteCells] writes the snapshot cell [cellId]; [None] when the
    destination is out of bounds. *)
Definition destination (state : SheetState) (colOffset rowOffset : Z) (cellId : string)
  : option string :=
  let newColIndex := cellColumn cellId + colOffset in
  let newRow := cellRow cellId + rowOffset in
  if (newColIndex <? 0) || (cols state <=? newColIndex)
     || (newRow <=? 0) || (rows state <? newRow)
  then None
  else Some (indexToColumnLetter newColIndex ++ ofInt newRow).

(** The destination of [cellId] when the clipboard [clip] is pasted at
    [target]. *)
Definition pasteDestination (state : SheetState) (clip : ClipboardData) (target cellId : string)
  : option string :=
  destination state
    (cellColumn target - cellColumn (topLeft clip))
    (cellRow target - cellRow (topLeft clip))
    cellId.

(** The history holds at most [MAX_HISTORY] entries. *)
Definition historyBounded (st : SheetState) : Prop :=
  lengthZ (history st) <= MAX_HISTORY.

(** The current index is the last entry of a non-empty history. *)
Definition atLatest (st : SheetState) : Prop :=
  historyBounded st /\ 1 <= lengthZ (history st)
  /\ historyIndex st = lengthZ (history st) - 1.

Definition positiveDims (h : HistoryState) : Prop := 1 <= h_rows h /\ 1 <= h_cols h.

(** The grid and every snapshot have at least one row and one column. *)
Definition dimensionsOk (st : SheetState) : Prop :=
  1 <= rows st /\ 1 <= cols st /\ Forall positiveDims (history st).

(** Two states with the same history and the same index. *)
Definition sameHistory (s1 s2 : SheetState) : Prop :=
  history s1 = history s2 /\ historyIndex s1 = historyIndex s2.

(** Cell ids as the grid makes them: upper-case text. *)
Definition upperCased (s : string) : Prop := toUpperCase s = s.

(** The rectangle A1:B2 in the order of [getSelectionBetween], and its
    image under a paste at D4. *)
Definition sourceA1B2 : list string := ["A1"; "B1"; "A2"; "B2"].
Definition pairsA1B2_D4 : list (string * string) :=
  [("A1", "D4"); ("B1", "E4"); ("A2", "D5"); ("B2", "E5")].

Definition typed (text : string) : PartialCellData := mkPartial None (Some text) None None.

(** A grid with A1, B1, A2 and E5 filled, B2 empty, and A1:B2 selected. *)
Definition sparseGrid : SheetState :=
  run [UpdateCell "A1" (typed "1"); UpdateCell "B1" (typed "2");
       UpdateCell "A2" (typed "3"); UpdateCell "E5" (typed "old");
       SetSelectedCells (Many sourceA1B2)]
    initialState.

End Properties.

Import JsString JsNumber JsObject SheetTypes Functions SheetStore CellView Session Properties.

(** ** Vocabulary of further properties *)

Module StoreFacts.
Import JsString JsObject SheetTypes SheetStore Session.

(** The index is [-1] on an empty history and a position of it otherwise,
    and the history holds at most [MAX_HISTORY] entries. *)
Definition historyOk (st : SheetState) : Prop :=
  lengthZ (history st) <= MAX_HISTORY
  /\ -1 <= historyIndex st < lengthZ (history st).

(** The grid of a state: what a history entry records. *)
Definition sameGrid (s1 s2 : SheetState) : Prop :=
  cells s1 = cells s2 /\ rows s1 = rows s2 /\ cols s1 = cols s2.

End StoreFacts.

Import StoreFacts.

Module StoreFacts2.
Import JsString JsNumber JsObject SheetTypes SheetStore.

(** The cell that [clearSpreadsheet] writes everywhere. *)
Definition blankCell : CellData :=
  {| id := None; value := ""; formula := ""; style := style createEmptyCell |}.

End StoreFacts2.

Import StoreFacts2.

Module CodecFacts.
Import JsString SheetStore.

(** The loop of [columnLetterToIndex], from the accumulator [result]. *)
Definition letterValue (result : Z) (col : string) : Z :=
  (fix go (result : Z) (s : string) : Z :=
     match s with
     | EmptyString => result
     | String c t => go (result * 26 + (code c - 64)) t
     end) result col.

(** Column letters as [indexToColumnLetter] writes them: A to Z only. *)
Definition upperLetters (s : string) : bool := allChars isUpper s.

(** The loop of [parseInt] over decimal digits, from the accumulator. *)
Definition digitsValue (acc : Z) (ds : string) : Z :=
  (fix go (acc : Z) (s : string) : Z :=
     match s with
     | EmptyString => acc
     | String c t => go (acc * 10 + digitValue c) t
     end) acc ds.

End CodecFacts.

Import CodecFacts.

Module CellIds.
Import JsString JsObject SheetTypes SheetStore.

(** The [col] argument of [createCellId]: a column index or its letters. *)
Variant ColumnArg : Type := ColIndex (index : Z) | ColLetters (letters : string).

(** [createCellId(row, col)] *)
Definition createCellId (row : Z) (col : ColumnArg) : string :=
  let colStr :=
    match col with
    | ColIndex index => indexToColumnLetter index
    | ColLetters letters => letters
    end in
  colStr ++ ofInt row.

(** The id of the cell in column [col] (from 0) and row [row]. *)
Definition cellIdAt (col row : Z) : string := createCellId row (ColIndex col).

(** The bounds test of [pasteCells]. *)
Definition inGrid (state : SheetState) (col row : Z) : bool :=
  negb ((col <? 0) || (cols state <=? col) || (row <=? 0) || (rows state <? row)).

End CellIds.

Import CellIds.

Module PasteFacts.
Import JsString JsObject SheetTypes SheetStore CellIds.

(** A snapshot whose keys are cell ids of the grid's form, each once. *)
Definition wellFormedSnapshot (snapshot : obj CellData) : Prop :=
  NoDup (map fst snapshot)
  /\ forall k, In k (map fst snapshot) ->
       exists col row, 0 <= col /\ 0 <= row /\ k = cellIdAt col row.

End PasteFacts.

Import PasteFacts.

(** ** store/sheetStore.ts: the text written by [exportToCSV] *)

Module CsvExport.
Import JsString JsNumber JsObject SheetTypes SheetStore.

(** The [replace] of [exportToCSV]: every double quote of the value is
    written twice. *)
Fixpoint doubleQuotes (cellValue : string) : string :=
  match cellValue with
  | EmptyString => EmptyString
  | String c t =>
      if isChar 34 c then String c (String c (doubleQuotes t))
      else String c (doubleQuotes t)
  end.

(** [formattedValue]: a value with a comma or a quote is wrapped in
    quotes, its own quotes doubled. *)
Definition formatValue (cellValue : string) : string :=
  if includesChar "," cellValue || includesChar (ascii_of_N 34) cellValue
  then doubleQuote ++ doubleQuotes cellValue ++ doubleQuote
  else cellValue.

(** The first loop of [exportToCSV]: [(maxRow, maxCol)] over the keys. *)
Definition exportBounds (cells : obj CellData) : Z * Z :=
  fold_left
    (fun (acc : Z * Z) (id : string) =>
       let '(maxRow, maxCol) := acc in
       let colNum := cellColumn id in
       let rowNum := cellRow id in
       (if maxRow <? rowNum then rowNum else maxRow,
        if maxCol <? colNum then colNum else maxCol))
    (keys cells) (0, 0).

(** [rowValues.join(',')] of one row. *)
Definition exportRow (cells : obj CellData) (maxCol row : Z) : string :=
  join ","
    (map (fun col => formatValue (getCellValue cells (indexToColumnLetter col ++ ofInt row)))
         (Functions.upto 0 maxCol)).

(** [csvContent] as [exportToCSV] hands it to the download. *)
Definition exportToCSV (state : SheetState) : string :=
  let '(maxRow, maxCol) := exportBounds (cells state) in
  fold_left
    (fun csvContent row =>
       csvContent ++ exportRow (cells state) maxCol row ++ String (ascii_of_N 10) EmptyString)
    (Functions.upto 1 maxRow) EmptyString.

End CsvExport.

Import CsvExport.

Module CsvFacts.
Import JsString JsNumber JsObject SheetTypes SheetStore.

(** The cell that [importFromCSV] makes of one field. *)
Definition importedCell (v : string) : CellData :=
  {| id := None;
     value := if startsWith v "=" then "" else v;
     formula := if startsWith v "=" then v else "";
     style := style createEmptyCell |}.

(** A value that a CSV file carries as it is: no line break inside, no
    leading [=], and not made of white space only. *)
Definition plainValue (v : string) : Prop :=
  includesChar (ascii_of_N 10) v = false
  /\ startsWith v "=" = false
  /\ (trim v = "" -> v = "").

Definition plainCells (cells : obj CellData) : Prop :=
  forall cellId c, get cells cellId = Some c -> plainValue (value c).

End CsvFacts.

Import CsvFacts.

Module ParameterFacts.
Import JsString JsNumber Functions.

(** A parameter written without quotes and commas. *)
Definition plainParameter (text : string) : Prop :=
  allChars (fun c => negb (isQuote c || Ascii.eqb c ",")) text = true.

(** A parameter inside a pair of equal quotes, none of them in between. *)
Definition quotedParameter (text : string) : Prop :=
  exists (q : ascii) (body : string),
    isQuote q = true
    /\ includesChar q body = false
    /\ text = String q (body ++ String q EmptyString).

Definition parameterText (text : string) : Prop :=
  plainParameter text \/ quotedParameter text.

End ParameterFacts.

Import ParameterFacts.

(** * Properties *)

(** *** Strings *)

Lemma startsWith_split :
  forall p s, startsWith s p = true -> s = p ++ drop (String.length p) s.
Proof.
  unfold startsWith.
  induction p as [|a p IH]; intros s H.
  - reflexivity.
  - destruct s as [|b s]; simpl in H; [discriminate|].
    destruct (ascii_dec a b) as [->|]; [|discriminate].
    simpl. f_equal. apply IH. exact H.
Qed.

Lemma startsWith_app :
  forall p r, startsWith (p ++ r) p = true.
Proof.
  unfold startsWith.
  induction p as [|a p IH]; intros r; simpl.
  - destruct r; reflexivity.
  - destruct (ascii_dec a a); [apply IH|congruence].
Qed.

Lemma mapChars_app :
  forall f a b, mapChars f (a ++ b) = mapChars f a ++ mapChars f b.
Proof.
  induction a as [|c a IH]; intros b; simpl; [reflexivity|].
  now rewrite IH.
Qed.

Lemma toUpperCase_app :
  forall a b, toUpperCase (a ++ b) = toUpperCase a ++ toUpperCase b.
Proof. apply mapChars_app. Qed.

Lemma length_mapChars :
  forall f s, String.length (mapChars f s) = String.length s.
Proof.
  induction s as [|c s IH]; simpl; congruence.
Qed.

Lemma take_app_length :
  forall a b, take (String.length a) (a ++ b) = a.
Proof.
  induction a as [|c a IH]; intros b; simpl.
  - destruct b; reflexivity.
  - now rewrite IH.
Qed.

Lemma string_length_app :
  forall a b, String.length (a ++ b) = (String.length a + String.length b)%nat.
Proof.
  induction a as [|c a IH]; intros b; simpl; [reflexivity|].
  now rewrite IH.
Qed.

(** [(p ++ body ++ ")").slice(n, -1)] keeps the last [length p - n]
    characters of [p] and the body. *)
Lemma slice_call :
  forall (p body : string) (n : nat),
    (n <= String.length p)%nat ->
    slice (p ++ body ++ ")") (Z.of_nat n) (-1) = drop n p ++ body.
Proof.
  intros p body n Hn.
  unfold slice, len.
  rewrite !string_length_app. simpl String.length.
  replace (Z.of_nat n <? 0) with false by (symmetry; apply Z.ltb_ge; lia).
  replace (-1 <? 0) with true by reflexivity.
  rewrite Z.min_l by lia.
  rewrite Z.max_l by lia.
  rewrite Nat2Z.id.
  replace (Z.to_nat (Z.of_nat (String.length p + (String.length body + 1)) + -1 - Z.of_nat n))
    with (String.length (drop n p ++ body)).
  2:{ rewrite string_length_app.
      assert (String.length (drop n p) = (String.length p - n)%nat) as ->.
      { clear Hn. revert n. induction p as [|c p IH]; intros [|n]; simpl; auto. }
      lia. }
  assert (drop n (p ++ body ++ ")") = (drop n p ++ body) ++ ")") as ->.
  { clear - Hn. revert n Hn. induction p as [|c p IH]; intros [|n] Hn; simpl in *.
    - destruct body; reflexivity.
    - lia.
    - f_equal. clear. induction p; simpl; [destruct body; reflexivity|]. now f_equal.
    - apply IH. lia. }
  apply take_app_length.
Qed.

(** ** The formula evaluator *)

(** C10: on a text that does not begin with [=], [evaluateFormula] returns
    the text unchanged, whatever the cell-value lookup is. *)
Theorem evaluateFormula_non_formula :
  forall (formula : string) (getCellValue : string -> string),
    startsWith formula "=" = false ->
    evaluateFormula formula getCellValue = formula.
Proof.
  intros formula getCellValue H.
  unfold evaluateFormula.
  rewrite H.
  reflexivity.
Qed.

Lemma evaluateFormula_non_formula_witness :
  startsWith "hello" "=" = false
  /\ evaluateFormula "hello" (fun _ => "42") = "hello".
Proof.
  split.
  - reflexivity.
  - apply (evaluateFormula_non_formula "hello" (fun _ => "42")). reflexivity.
Defined.




(** The FIND_AND_REPLACE branch answers a parameter list that has not three
    entries with its error text. *)
Lemma evaluateFormula_find_and_replace_arity :
  forall (formula : string) (getCellValue : string -> string),
    startsWith formula "=" = true ->
    startsWith (cleanOf formula) "FIND_AND_REPLACE(" = true ->
    List.length (splitParameters (slice (cleanOf formula) 16 (-1))) <> 3%nat ->
    evaluateFormula formula getCellValue = expected3.
Proof.
  intros formula g Heq Hp Hn.
  unfold evaluateFormula. rewrite Heq. simpl negb. cbv iota.
  unfold cleanOf in *.
  set (c := toUpperCase (substring_from 1 formula)) in *.
  assert (forall q, startsWith ("FIND_AND_REPLACE(" ++ drop 17 c) q = startsWith c q) as Hq.
  { intros q. pose proof (startsWith_split _ _ Hp) as E.
    change (String.length "FIND_AND_REPLACE(") with 17%nat in E.
    now rewrite <- E. }
  rewrite <- (Hq "SUM("), <- (Hq "AVERAGE("), <- (Hq "MAX("), <- (Hq "MIN("),
    <- (Hq "COUNT("), <- (Hq "TRIM("), <- (Hq "UPPER("), <- (Hq "LOWER("),
    <- (Hq "REMOVE_DUPLICATES("), Hp.
  cbn [startsWith String.prefix append ascii_dec ascii_rec ascii_rect bool_dec bool_rec bool_rect sumbool_rec sumbool_rect].
  destruct (splitParameters (slice c 16 (-1))) as [|a [|b [|d [|e l]]]]; try reflexivity.
  simpl in Hn. congruence.
Qed.

(** The tests of [evaluateFormula] on a text that begins with [p]. *)
Lemma startsWith_known :
  forall (p c : string) (n : nat),
    startsWith c p = true ->
    n = String.length p ->
    forall q, startsWith c q = startsWith (p ++ drop n c) q.
Proof.
  intros p c n Hp -> q.
  now rewrite <- (startsWith_split _ _ Hp).
Qed.

Ltac reduce_tests :=
  cbn [startsWith String.prefix append ascii_dec ascii_rec ascii_rect
       bool_dec bool_rec bool_rect sumbool_rec sumbool_rect].

(** C6: an AVERAGE whose range has no numeric-coercible value divides zero
    by zero and shows the text of NaN. *)
Theorem evaluateFormula_average_empty :
  forall (formula : string) (getCellValue : string -> string),
    startsWith formula "=" = true ->
    startsWith (cleanOf formula) "AVERAGE(" = true ->
    numericValues getCellValue (parseRange (slice (cleanOf formula) 8 (-1)) None) = [] ->
    evaluateFormula formula getCellValue = "NaN".
Proof.
  intros formula g Heq Hp Hv.
  unfold evaluateFormula. rewrite Heq. cbn [negb].
  unfold cleanOf in *.
  set (c := toUpperCase (substring_from 1 formula)) in *.
  rewrite (startsWith_known _ _ 8 Hp eq_refl "SUM("), Hp.
  reduce_tests.
  rewrite Hv.
  reflexivity.
Qed.

Lemma evaluateFormula_average_empty_witness :
  startsWith "=AVERAGE(A1:A2)" "=" = true
  /\ startsWith (cleanOf "=AVERAGE(A1:A2)") "AVERAGE(" = true
  /\ numericValues (fun _ => "n/a") (parseRange (slice (cleanOf "=AVERAGE(A1:A2)") 8 (-1)) None) = []
  /\ evaluateFormula "=AVERAGE(A1:A2)" (fun _ => "n/a") = "NaN".
Proof.
  split; [reflexivity|].
  split; [reflexivity|].
  split; [reflexivity|].
  apply (evaluateFormula_average_empty "=AVERAGE(A1:A2)" (fun _ => "n/a")); reflexivity.
Defined.

(** C6, as stated, fails: the result is not the division-by-zero token. *)
Lemma evaluateFormula_average_no_DIV0 :
  numericValues (fun _ => "n/a") (parseRange "A1:A2" None) = []
  /\ evaluateFormula "=AVERAGE(A1:A2)" (fun _ => "n/a") <> "#DIV0"
  /\ evaluateFormula "=AVERAGE(A1:A2)" (fun _ => "n/a") <> "#DIV/0!".
Proof.
  repeat split; vm_compute; discriminate.
Qed.

(** The range text that the REMOVE_DUPLICATES branch hands to [parseRange]
    begins with the opening parenthesis. *)
Lemma evaluateFormula_remove_duplicates_range :
  forall (body : string) (getCellValue : string -> string),
    evaluateFormula ("=REMOVE_DUPLICATES(" ++ body ++ ")") getCellValue
    = join ", " (uniq (map getCellValue (parseRange ("(" ++ toUpperCase body) None))).
Proof.
  intros body g.
  unfold evaluateFormula.
  change (startsWith ("=REMOVE_DUPLICATES(" ++ body ++ ")") "=") with true.
  cbn [negb].
  change (substring_from 1 ("=REMOVE_DUPLICATES(" ++ body ++ ")"))
    with ("REMOVE_DUPLICATES(" ++ body ++ ")").
  rewrite !toUpperCase_app.
  change (toUpperCase "REMOVE_DUPLICATES(") with "REMOVE_DUPLICATES(".
  change (toUpperCase ")") with ")".
  set (B := toUpperCase body).
  assert (startsWith ("REMOVE_DUPLICATES(" ++ B ++ ")") "REMOVE_DUPLICATES(" = true) as Hp
      by apply startsWith_app.
  pose proof (slice_call "REMOVE_DUPLICATES(" B 17 ltac:(simpl; lia)) as Hs.
  change (Z.of_nat 17) with 17 in Hs.
  change (drop 17 "REMOVE_DUPLICATES(") with "(" in Hs.
  rewrite Hs, Hp.
  reduce_tests.
  reflexivity.
Qed.

(** C8: on the range A1:A3 holding x, y, x the REMOVE_DUPLICATES formula
    shows the empty text, not "x, y": the range is read from one
    character too early and does not parse. *)
Theorem evaluateFormula_remove_duplicates_empty :
  let getCellValue :=
    fun ref => if String.eqb ref "A2" then "y"
               else if String.eqb ref "A1" || String.eqb ref "A3" then "x" else "" in
  join ", " (uniq (map getCellValue (parseRange "A1:A3" None))) = "x, y"
  /\ parseRange (slice (cleanOf "=REMOVE_DUPLICATES(A1:A3)") 17 (-1)) None = []
  /\ evaluateFormula "=REMOVE_DUPLICATES(A1:A3)" getCellValue = "".
Proof.
  repeat split; reflexivity.
Qed.

(** *** A range text behind an opening parenthesis *)

Lemma trimEnd_paren :
  forall s, exists s', trimEnd (String "(" s) = String "(" s'.
Proof.
  intros s. simpl. destruct (trimEnd s); eauto.
Qed.

Lemma trim_paren :
  forall s, exists s', trim (String "(" s) = String "(" s'.
Proof.
  intros s. unfold trim. cbn [trimStart isWhite]. 
  change (isWhite "(") with false. cbv iota.
  apply trimEnd_paren.
Qed.

Lemma parseReference_paren :
  forall s, parseReference (String "(" s) = None.
Proof.
  intros s. unfold parseReference.
  change (String.eqb (String "(" s) "") with false. cbv iota.
  destruct (trim_paren s) as [s' ->].
  reflexivity.
Qed.

Lemma split_paren :
  forall r, exists h t,
    split ":" r = h :: t /\ split ":" (String "(" r) = String "(" h :: t.
Proof.
  intros r. simpl.
  destruct (split ":" r) as [|h t] eqn:E.
  - destruct r; simpl in E; [discriminate|].
    destruct (Ascii.eqb a ":"); [discriminate|].
    destruct (split ":" r); discriminate.
  - eauto.
Qed.

(** Behind the parenthesis a range does not parse, unless its second
    corner is blank. *)
Lemma parseRange_paren :
  forall r,
    match split ":" r with
    | _ :: p1 :: _ => trim p1 <> ""
    | _ => True
    end ->
    parseRange ("(" ++ r) None = [].
Proof.
  intros r H.
  change ("(" ++ r) with (String "(" r).
  unfold parseRange.
  change (String.eqb (String "(" r) "") with false.
  destruct (trim_paren r) as [s0 E0]. rewrite E0.
  change (String.eqb (String "(" s0) "") with false.
  cbn [orb]. cbv iota.
  destruct (split_paren r) as (h & t & E1 & ->).
  rewrite E1 in H.
  cbn [nth].
  destruct (trim_paren h) as [s1 ->].
  destruct t as [|p1 t].
  - change (String.eqb (String "(" s1) "") with false. cbv iota.
    now rewrite parseReference_paren.
  - destruct (String.eqb (trim p1) "") eqn:E2.
    + apply String.eqb_eq in E2. contradiction.
    + now rewrite parseReference_paren.
Qed.

(** Whatever the cells hold, a REMOVE_DUPLICATES formula over a range with
    a non-blank second corner shows the empty text. *)
Lemma evaluateFormula_remove_duplicates_any :
  forall (body : string) (getCellValue : string -> string),
    match split ":" (toUpperCase body) with
    | _ :: p1 :: _ => trim p1 <> ""
    | _ => True
    end ->
    evaluateFormula ("=REMOVE_DUPLICATES(" ++ body ++ ")") getCellValue = "".
Proof.
  intros body g H.
  rewrite evaluateFormula_remove_duplicates_range.
  now rewrite parseRange_paren.
Qed.

(** ** References and ranges *)

Lemma upto_empty :
  forall lo hi, hi < lo -> upto lo hi = [].
Proof.
  intros lo hi H. unfold upto.
  replace (Z.to_nat (hi - lo + 1)) with O by lia.
  reflexivity.
Qed.

Lemma flat_map_nil :
  forall (A B : Type) (l : list A), flat_map (fun _ : A => @nil B) l = [].
Proof.
  induction l; simpl; auto.
Qed.

(** The loops of [parseRange] run from the first corner to the second: a
    second corner to the left of or above the first leaves them empty. *)
Lemma rangeCells_reversed :
  forall startRef endRef : Reference,
    colIndex endRef < colIndex startRef \/ row endRef < row startRef ->
    rangeCells startRef endRef = [].
Proof.
  intros s e [H|H]; unfold rangeCells.
  - now rewrite (upto_empty _ _ H).
  - rewrite (upto_empty (row s) (row e) H). simpl map.
    apply flat_map_nil.
Qed.

(** C3: the range B2:A1 expands to nothing, whereas A1:B2 expands to the
    four cells; the corners are not put in order.  A1:A1 is the single
    cell. *)
Theorem parseRange_corner_order :
  parseRange "A1:B2" None = ["A1"; "A2"; "B1"; "B2"]
  /\ parseRange "B2:A1" None = []
  /\ parseRange "A1:A1" None = ["A1"]
  /\ getSelectionBetween "B2" "A1" = getSelectionBetween "A1" "B2".
Proof.
  repeat split; reflexivity.
Qed.

(** C2: the Address of column 26 and row 1 is written AA1, and AA1 is
    read back as column 0: [parseReference] takes the letters as plain
    base-26 digits, [columnLetterToIndex] does not. *)
Theorem decode_encode_column_26 :
  let a := mkAddress 26 1 false false in
  encode a = "AA1"
  /\ decode (encode a) = Some (mkAddress 0 1 false false)
  /\ decode (encode a) <> Some a
  /\ columnLetterToIndex (indexToColumnLetter 26) = 26.
Proof.
  repeat split; try reflexivity.
  vm_compute. discriminate.
Qed.

(** ** Recalculation *)

Lemma get_set_same :
  forall (A : Type) (o : obj A) (k : string) (v : A), get (set o k v) k = Some v.
Proof.
  induction o as [|[k' v'] o IH]; intros k v; simpl.
  - now rewrite String.eqb_refl.
  - destruct (String.eqb k' k) eqn:E; simpl; rewrite E; auto.
Qed.

Lemma get_set_other :
  forall (A : Type) (o : obj A) (k k' : string) (v : A),
    k <> k' -> get (set o k v) k' = get o k'.
Proof.
  induction o as [|[k0 v0] o IH]; intros k k' v Hne; simpl.
  - destruct (String.eqb k k') eqn:E; [apply String.eqb_eq in E; contradiction|reflexivity].
  - destruct (String.eqb k0 k) eqn:E; simpl.
    + apply String.eqb_eq in E. subst k0.
      destruct (String.eqb k k') eqn:E'; [apply String.eqb_eq in E'; contradiction|reflexivity].
    + destruct (String.eqb k0 k'); auto.
Qed.




(** ** Grid dimensions *)

Lemma Forall_tl :
  forall (A : Type) (P : A -> Prop) (l : list A), Forall P l -> Forall P (tl l).
Proof.
  intros A P l H. destruct H; simpl; auto.
Qed.

Lemma Forall_firstn_keep :
  forall (A : Type) (P : A -> Prop) (n : nat) (l : list A),
    Forall P l -> Forall P (firstn n l).
Proof.
  intros A P n l H. revert n.
  induction H; intros [|n]; simpl; auto.
Qed.

Lemma at_In :
  forall (A : Type) (xs : list A) (i : Z) (x : A), at_ xs i = Some x -> In x xs.
Proof.
  unfold at_. intros A xs i x H.
  destruct (i <? 0); [discriminate|].
  eapply nth_error_In; eauto.
Qed.

(** [dimensionsOk] reads the rows, the columns and the history only. *)
Lemma dimensionsOk_fields :
  forall st st' : SheetState,
    dimensionsOk st ->
    rows st' = rows st -> cols st' = cols st -> history st' = history st ->
    dimensionsOk st'.
Proof.
  unfold dimensionsOk. intros st st' H Hr Hc Hh.
  now rewrite Hr, Hc, Hh.
Qed.

Lemma saveState_dimensionsOk :
  forall st, dimensionsOk st -> dimensionsOk (saveState st).
Proof.
  unfold dimensionsOk, saveState. intros st (Hr & Hc & Hh).
  cbn [rows cols history setHistory].
  repeat split; auto.
  assert (Forall positiveDims
            ((if historyIndex st <? lengthZ (history st) - 1
              then sliceTo (history st) (historyIndex st + 1)
              else history st) ++ [snapshot st])%list) as Hp.
  { apply Forall_app. split.
    - destruct (_ <? _); auto. unfold sliceTo. now apply Forall_firstn_keep.
    - constructor; [|constructor]. split; assumption. }
  destruct (MAX_HISTORY <? _); auto using Forall_tl.
Qed.

Lemma restore_dimensionsOk :
  forall st h i,
    dimensionsOk st -> In h (history st) -> dimensionsOk (restore h i st).
Proof.
  unfold dimensionsOk. intros st h i (Hr & Hc & Hh) Hin.
  cbn [rows cols history restore].
  rewrite Forall_forall in Hh.
  destruct (Hh h Hin). repeat split; auto.
  now apply Forall_forall.
Qed.

Ltac split_matches :=
  repeat match goal with
         | |- context [match ?x with _ => _ end] => destruct x eqn:?
         | |- context [if ?x then _ else _] => destruct x eqn:?
         end.

Ltac same_dims H :=
  first [ exact H
        | apply (dimensionsOk_fields _ _ H); reflexivity ].

Lemma pasteCells_dimensionsOk :
  forall target st, dimensionsOk st -> dimensionsOk (pasteCells target st).
Proof.
  intros target st H. apply saveState_dimensionsOk in H.
  unfold pasteCells. destruct (clipboard (saveState st)); same_dims H.
Qed.

Lemma perform_dimensionsOk :
  forall (a : action) (st : SheetState),
    dimensionsOk st -> dimensionsOk (perform a st).
Proof.
  intros a st H.
  pose proof (saveState_dimensionsOk st H) as Hs.
  destruct a; cbn [perform].
  - exact Hs.
  - unfold undo. split_matches; try exact H.
    apply restore_dimensionsOk; eauto using at_In.
  - unfold redo. split_matches; try exact H.
    apply restore_dimensionsOk; eauto using at_In.
  - unfold addRow. destruct Hs as (Hr & Hc & Hh).
    repeat split; cbn [rows cols history setRows]; auto; lia.
  - unfold deleteRow. destruct Hs as (Hr & Hc & Hh).
    repeat split; cbn [rows cols history setRows]; auto; lia.
  - unfold addColumn. destruct Hs as (Hr & Hc & Hh).
    repeat split; cbn [rows cols history setCols]; auto; lia.
  - unfold deleteColumn. destruct Hs as (Hr & Hc & Hh).
    repeat split; cbn [rows cols history setCols]; auto; lia.
  - unfold updateCell. same_dims Hs.
  - same_dims H.
  - same_dims H.
  - same_dims H.
  - unfold handleDrag. split_matches; same_dims H.
  - same_dims H.
  - unfold copySelectedCells.
    destruct (selectedCells st); [exact H|].
    destruct (getTopLeftCell _); same_dims H.
  - now apply pasteCells_dimensionsOk.
  - unfold copySelection.
    destruct (selectedCells st); [exact H|].
    destruct (getTopLeftCell _); same_dims H.
  - unfold cutSelection.
    destruct (selectedCells (saveState st)); [exact Hs|].
    destruct (getTopLeftCell _); same_dims Hs.
  - unfold pasteSelection.
    destruct (clipboard (saveState st)) as [clip|]; [|exact Hs].
    destruct (truthy (selectedCell (saveState st))) as [target|]; [|exact Hs].
    destruct (data clip) as [[|sourceCell rest]|].
    + exact Hs.
    + destruct rest.
      * destruct (selectedCells (saveState st)) as [|? [|? ?]];
          try same_dims Hs;
          (destruct (mapM id _); [|exact Hs];
           destruct (calculatePasteOffset _ _) as [[? ?]|]; [|exact Hs];
           destruct (pasteData _ _ _ _); same_dims Hs).
      * destruct (mapM id _); [|exact Hs].
        destruct (calculatePasteOffset _ _) as [[? ?]|]; [|exact Hs].
        destruct (pasteData _ _ _ _); same_dims Hs.
    + now apply pasteCells_dimensionsOk.
  - exact H.
  - exact Hs.
  - unfold importLoaded.
    destruct (fold_left importLine _ _) as [[newCells maxRow] maxCol].
    destruct H as (Hr & Hc & Hh).
    repeat split; cbn [rows cols history setCells setRows setCols]; auto; lia.
  - same_dims H.
  - unfold clearSpreadsheet. destruct confirmed; [same_dims Hs|exact H].
  - unfold recalculate. split_matches; try exact H.
    unfold updateCell. same_dims Hs.
Qed.

Lemma initialState_dimensionsOk : dimensionsOk initialState.
Proof.
  unfold dimensionsOk. cbn [rows cols history initialState].
  unfold DEFAULT_ROWS, DEFAULT_COLS.
  split; [lia|]. split; [lia|]. constructor.
Qed.

Lemma run_dimensionsOk :
  forall (actions : list action) (st : SheetState),
    dimensionsOk st -> dimensionsOk (run actions st).
Proof.
  unfold run.
  induction actions as [|a actions IH]; intros st H; simpl; auto.
  apply IH. now apply perform_dimensionsOk.
Qed.

(** C9: from the initial store, whatever the actions, the grid keeps at
    least one row and one column. *)
Theorem dimensions_at_least_one :
  forall actions : list action,
    1 <= rows (run actions initialState) /\ 1 <= cols (run actions initialState).
Proof.
  intros actions.
  destruct (run_dimensionsOk actions initialState initialState_dimensionsOk) as (Hr & Hc & _).
  split; assumption.
Qed.

(** ** Undo history *)

Lemma lengthZ_app :
  forall (A : Type) (l1 l2 : list A), lengthZ (l1 ++ l2) = lengthZ l1 + lengthZ l2.
Proof.
  intros. unfold lengthZ. rewrite List.length_app. lia.
Qed.

Lemma lengthZ_tl :
  forall (A : Type) (l : list A), 1 <= lengthZ l -> lengthZ (tl l) = lengthZ l - 1.
Proof.
  intros A [|x l] H; unfold lengthZ in *; cbn [tl List.length] in *; lia.
Qed.

Lemma lengthZ_nonneg :
  forall (A : Type) (l : list A), 0 <= lengthZ l.
Proof.
  intros. unfold lengthZ. lia.
Qed.

Lemma lengthZ_sliceTo :
  forall (A : Type) (l : list A) (e : Z), lengthZ (sliceTo l e) <= lengthZ l.
Proof.
  intros. unfold sliceTo, lengthZ. rewrite length_firstn. lia.
Qed.

(** After [saveState] the index is the last entry. *)
Lemma saveState_atLatest :
  forall st, historyBounded st -> atLatest (saveState st).
Proof.
  unfold atLatest, historyBounded, saveState, MAX_HISTORY. intros st Hb.
  cbn [history historyIndex setHistory].
  set (truncated := if historyIndex st <? lengthZ (history st) - 1
                    then sliceTo (history st) (historyIndex st + 1)
                    else history st).
  assert (lengthZ truncated <= lengthZ (history st)) as Ht.
  { subst truncated. destruct (_ <? _); [apply lengthZ_sliceTo|lia]. }
  pose proof (lengthZ_nonneg _ truncated) as H0.
  pose proof (lengthZ_app _ truncated [snapshot st]) as Hp.
  change (lengthZ [snapshot st]) with 1 in Hp.
  destruct (50 <? lengthZ (truncated ++ [snapshot st])) eqn:E.
  - rewrite lengthZ_tl by lia. lia.
  - apply Z.ltb_ge in E. lia.
Qed.

(** At the last entry [saveState] appends, and evicts the oldest entry of
    a full history. *)
Lemma saveState_length :
  forall st,
    atLatest st ->
    lengthZ (history (saveState st)) = Z.min MAX_HISTORY (lengthZ (history st) + 1).
Proof.
  unfold atLatest, historyBounded, saveState, MAX_HISTORY. intros st (Hb & H1 & Hi).
  cbn [history setHistory].
  replace (historyIndex st <? lengthZ (history st) - 1) with false
    by (symmetry; apply Z.ltb_ge; lia).
  pose proof (lengthZ_app _ (history st) [snapshot st]) as Hp.
  change (lengthZ [snapshot st]) with 1 in Hp.
  destruct (50 <? lengthZ (history st ++ [snapshot st])) eqn:E.
  - apply Z.ltb_lt in E. rewrite lengthZ_tl by lia. lia.
  - apply Z.ltb_ge in E. lia.
Qed.


Lemma sameHistory_refl : forall s, sameHistory s s.
Proof. split; reflexivity. Qed.

Lemma pasteCells_sameHistory :
  forall target st, sameHistory (pasteCells target st) (saveState st).
Proof.
  intros target st. unfold pasteCells.
  destruct (clipboard (saveState st)); split; reflexivity.
Qed.

(** Every edit leaves the history as one or two calls of [saveState] make
    it. *)
Lemma edit_sameHistory :
  forall (a : action) (st : SheetState),
    isEdit a = true ->
    sameHistory (perform a st) (saveState st)
    \/ sameHistory (perform a st) (saveState (saveState st)).
Proof.
  intros a st Ha.
  destruct a; try discriminate Ha; cbn [perform].
  - left. split; reflexivity.
  - left. split; reflexivity.
  - left. split; reflexivity.
  - left. split; reflexivity.
  - left. split; reflexivity.
  - left. apply pasteCells_sameHistory.
  - left. unfold cutSelection.
    destruct (selectedCells (saveState st)); [apply sameHistory_refl|].
    destruct (getTopLeftCell _); split; reflexivity.
  - unfold pasteSelection.
    destruct (clipboard (saveState st)) as [clip|]; [|left; apply sameHistory_refl].
    destruct (truthy (selectedCell (saveState st))) as [target|];
      [|left; apply sameHistory_refl].
    destruct (data clip) as [[|sourceCell rest]|].
    + left; apply sameHistory_refl.
    + left. destruct rest.
      * destruct (selectedCells (saveState st)) as [|? [|? ?]];
          try (split; reflexivity);
          (destruct (mapM id _); [|apply sameHistory_refl];
           destruct (calculatePasteOffset _ _) as [[? ?]|]; [|apply sameHistory_refl];
           destruct (pasteData _ _ _ _); split; reflexivity).
      * destruct (mapM id _); [|apply sameHistory_refl].
        destruct (calculatePasteOffset _ _) as [[? ?]|]; [|apply sameHistory_refl].
        destruct (pasteData _ _ _ _); split; reflexivity.
    + right. apply pasteCells_sameHistory.
  - left. apply sameHistory_refl.
  - destruct confirmed; [|discriminate Ha].
    left. split; reflexivity.
Qed.

Lemma atLatest_sameHistory :
  forall s1 s2, sameHistory s1 s2 -> atLatest s2 -> atLatest s1.
Proof.
  unfold atLatest, historyBounded. intros s1 s2 [Hh Hi] H.
  now rewrite Hh, Hi.
Qed.

Lemma atLatest_bounded : forall s, atLatest s -> historyBounded s.
Proof. intros s H. apply H. Qed.

Lemma edit_atLatest :
  forall (a : action) (st : SheetState),
    isEdit a = true -> historyBounded st -> atLatest (perform a st).
Proof.
  intros a st Ha Hb.
  pose proof (saveState_atLatest st Hb) as H1.
  destruct (edit_sameHistory a st Ha) as [H|H];
    apply (atLatest_sameHistory _ _ H); auto.
  apply saveState_atLatest, atLatest_bounded, H1.
Qed.





Lemma undo_at_earliest :
  forall st, historyIndex st <= 0 -> undo st = st.
Proof.
  intros st H. unfold undo.
  now replace (historyIndex st <=? 0) with true by (symmetry; apply Z.leb_le; lia).
Qed.

Lemma at_inside :
  forall (A : Type) (xs : list A) (i : Z),
    0 <= i < lengthZ xs -> exists x, at_ xs i = Some x.
Proof.
  intros A xs i H. unfold at_, lengthZ in *.
  replace (i <? 0) with false by (symmetry; apply Z.ltb_ge; lia).
  destruct (nth_error xs (Z.to_nat i)) eqn:E; eauto.
  apply nth_error_None in E. lia.
Qed.

Lemma undo_step :
  forall st,
    0 < historyIndex st < lengthZ (history st) ->
    history (undo st) = history st
    /\ historyIndex (undo st) = historyIndex st - 1.
Proof.
  intros st H. unfold undo.
  replace (historyIndex st <=? 0) with false by (symmetry; apply Z.leb_gt; lia).
  destruct (at_inside _ (history st) (historyIndex st - 1)) as [h ->]; [lia|].
  split; reflexivity.
Qed.








(** ** Paste *)

Lemma destination_saveState :
  forall st co ro cellId,
    destination (saveState st) co ro cellId = destination st co ro cellId.
Proof. reflexivity. Qed.

(** One turn of the loop of [pasteCells] writes the cell at its
    destination, or nothing when that is out of bounds. *)
Lemma pasteOne_get :
  forall state co ro newCells cellId cellData k,
    get (pasteOne state co ro newCells (cellId, cellData)) k
    = match destination state co ro cellId with
      | Some d => if String.eqb d k then Some cellData else get newCells k
      | None => get newCells k
      end.
Proof.
  intros state co ro newCells cellId cellData k.
  unfold pasteOne, destination.
  destruct (_ || _); [reflexivity|].
  set (d := indexToColumnLetter _ ++ ofInt _).
  destruct (String.eqb d k) eqn:E.
  - apply String.eqb_eq in E. subst k.
    destruct (negb _); now rewrite ?get_set_same.
  - apply String.eqb_neq in E.
    destruct (negb _); now rewrite ?get_set_other by exact E.
Qed.

Lemma paste_untouched :
  forall state co ro entries newCells k,
    (forall e, In e entries -> destination state co ro (fst e) <> Some k) ->
    get (fold_left (pasteOne state co ro) entries newCells) k = get newCells k.
Proof.
  induction entries as [|[cellId cellData] entries IH]; intros newCells k H.
  - reflexivity.
  - cbn [fold_left]. rewrite IH by (intros e He; apply H; now right).
    rewrite pasteOne_get.
    specialize (H (cellId, cellData) (or_introl eq_refl)). cbn [fst] in H.
    destruct (destination state co ro cellId) as [d|]; [|reflexivity].
    destruct (String.eqb d k) eqn:E; [|reflexivity].
    apply String.eqb_eq in E. congruence.
Qed.

Lemma paste_written :
  forall state co ro before cellId cellData after newCells k,
    destination state co ro cellId = Some k ->
    (forall e, In e after -> destination state co ro (fst e) <> Some k) ->
    get (fold_left (pasteOne state co ro) (before ++ (cellId, cellData) :: after) newCells) k
    = Some cellData.
Proof.
  intros state co ro before cellId cellData after newCells k Hd Hafter.
  rewrite fold_left_app. cbn [fold_left].
  rewrite paste_untouched by exact Hafter.
  rewrite pasteOne_get, Hd.
  now rewrite String.eqb_refl.
Qed.

(** The destinations of A1:B2 under a paste at D4, on a grid of at least
    five rows and five columns. *)
Lemma destination_A1B2 :
  forall st,
    5 <= rows st -> 5 <= cols st ->
    destination st 3 3 "A1" = Some "D4"
    /\ destination st 3 3 "B1" = Some "E4"
    /\ destination st 3 3 "A2" = Some "D5"
    /\ destination st 3 3 "B2" = Some "E5".
Proof.
  intros st Hr Hc. unfold destination.
  change (cellColumn "A1" + 3) with 3. change (cellColumn "B1" + 3) with 4.
  change (cellColumn "A2" + 3) with 3. change (cellColumn "B2" + 3) with 4.
  change (cellRow "A1" + 3) with 4. change (cellRow "B1" + 3) with 4.
  change (cellRow "A2" + 3) with 5. change (cellRow "B2" + 3) with 5.
  replace (cols st <=? 3) with false by (symmetry; apply Z.leb_gt; lia).
  replace (cols st <=? 4) with false by (symmetry; apply Z.leb_gt; lia).
  replace (rows st <? 4) with false by (symmetry; apply Z.ltb_ge; lia).
  replace (rows st <? 5) with false by (symmetry; apply Z.ltb_ge; lia).
  repeat split; reflexivity.
Qed.

(** What [copySelectedCells] snapshots of A1:B2: the cells that exist, in
    the order of the selection. *)
Lemma copyExisting_A1B2 :
  forall source : obj CellData,
    fold_left (copyExisting source) sourceA1B2 []
    = flat_map (fun cellId =>
                  match get source cellId with
                  | Some c => [(cellId, c)]
                  | None => []
                  end) sourceA1B2.
Proof.
  intros source. unfold sourceA1B2. cbn [fold_left flat_map].
  unfold copyExisting.
  destruct (get source "A1"), (get source "B1"), (get source "A2"), (get source "B2");
    reflexivity.
Qed.

(** Copying A1:B2 and pasting at D4: a destination whose source cell
    exists receives it, the others and the rest of the grid stay. *)
Lemma copy_paste_A1B2_D4 :
  forall st,
    selectedCells st = sourceA1B2 ->
    5 <= rows st -> 5 <= cols st ->
    forall k,
      get (cells (pasteCells "D4" (copySelectedCells st))) k
      = match find (fun p => String.eqb (snd p) k) pairsA1B2_D4 with
        | Some (src, _) =>
            match get (cells st) src with
            | Some c => Some c
            | None => get (cells st) k
            end
        | None => get (cells st) k
        end.
Proof.
  intros st Hsel Hr Hc k.
  destruct (destination_A1B2 (saveState st) Hr Hc) as (D1 & D2 & D3 & D4).
  unfold copySelectedCells. rewrite Hsel. unfold sourceA1B2.
  change (getTopLeftCell ["A1"; "B1"; "A2"; "B2"]) with (Some "A1").
  cbv iota. unfold pasteCells.
  cbn [clipboard saveState setHistory setClipboard clip_cells topLeft cells rows cols setCells].
  change (cellColumn "D4" - cellColumn "A1") with 3.
  change (cellRow "D4" - cellRow "A1") with 3.
  fold sourceA1B2. rewrite copyExisting_A1B2. unfold sourceA1B2.
  unfold pairsA1B2_D4. cbn [find snd flat_map].
  set (state := saveState _).
  assert (forall id, destination state 3 3 id = destination (saveState st) 3 3 id) as Hd
      by reflexivity.
  rewrite <- !Hd in D1, D2, D3, D4. clear Hd.
  clearbody state.
  destruct (get (cells st) "A1") as [c1|] eqn:E1;
    destruct (get (cells st) "B1") as [c2|] eqn:E2;
    destruct (get (cells st) "A2") as [c3|] eqn:E3;
    destruct (get (cells st) "B2") as [c4|] eqn:E4;
    cbn [app fold_left];
    rewrite ?pasteOne_get, ?D1, ?D2, ?D3, ?D4;
    repeat match goal with
           | |- context [String.eqb ?a k] =>
               let K := fresh "K" in
               destruct (String.eqb a k) eqn:K;
               [ apply String.eqb_eq in K; subst k; simpl String.eqb; cbv iota;
                 rewrite ?E1, ?E2, ?E3, ?E4; reflexivity | ]
           end;
    reflexivity.
Qed.

(** What [pasteCells] does with any snapshot: it leaves the size of the
    grid and the clipboard as they are; a snapshot cell whose destination
    is in bounds is found there afterwards, unless a later snapshot cell
    has the same destination; a cell that is the destination of no
    snapshot cell keeps its content, which covers the destinations out of
    bounds.  After [copySelectedCells] on A1:B2, pasting at D4 gives each
    cell of D4:E5 the source cell that exists and leaves the destination
    of an absent source cell, and every cell outside D4:E5, as it was. *)
Theorem pasteCells_writes_snapshot :
  forall (st : SheetState) (clip : ClipboardData) (target : string),
    clipboard st = Some clip ->
    (rows (pasteCells target st) = rows st
     /\ cols (pasteCells target st) = cols st
     /\ clipboard (pasteCells target st) = Some clip)
    /\ (forall before cellId cellData after k,
          clip_cells clip = (before ++ (cellId, cellData) :: after)%list ->
          pasteDestination st clip target cellId = Some k ->
          (forall e, In e after -> pasteDestination st clip target (fst e) <> Some k) ->
          get (cells (pasteCells target st)) k = Some cellData)
    /\ (forall k,
          (forall e, In e (clip_cells clip) ->
                     pasteDestination st clip target (fst e) <> Some k) ->
          get (cells (pasteCells target st)) k = get (cells st) k)
    /\ (forall s,
          selectedCells s = sourceA1B2 -> 5 <= rows s -> 5 <= cols s ->
          (forall src dst,
              In (src, dst) pairsA1B2_D4 ->
              get (cells (pasteCells "D4" (copySelectedCells s))) dst
              = match get (cells s) src with
                | Some c => Some c
                | None => get (cells s) dst
                end)
          /\ (forall k,
                 ~ In k (map snd pairsA1B2_D4) ->
                 get (cells (pasteCells "D4" (copySelectedCells s))) k = get (cells s) k)).
Proof.
  intros st clip target Hclip.
  assert (clipboard (saveState st) = Some clip) as Hclip' by exact Hclip.
  split; [|split; [|split]].
  - unfold pasteCells. rewrite Hclip'. repeat split; exact Hclip.
  - intros before cellId cellData after k Hsplit Hd Hafter.
    unfold pasteCells. rewrite Hclip'. cbn [cells setCells].
    rewrite Hsplit. apply paste_written; assumption.
  - intros k Hk.
    unfold pasteCells. rewrite Hclip'. cbn [cells setCells].
    now rewrite paste_untouched by exact Hk.
  - intros s Hsel Hr Hc. split.
    + intros src dst Hin.
      rewrite (copy_paste_A1B2_D4 s Hsel Hr Hc dst).
      unfold pairsA1B2_D4 in *.
      cbn [In] in Hin.
      destruct Hin as [E|[E|[E|[E|[]]]]]; inversion E; subst; reflexivity.
    + intros k Hk.
      rewrite (copy_paste_A1B2_D4 s Hsel Hr Hc k).
      unfold pairsA1B2_D4 in *. cbn [map snd In find] in *.
      repeat match goal with
             | |- context [String.eqb ?a k] =>
                 let K := fresh "K" in
                 destruct (String.eqb a k) eqn:K;
                 [apply String.eqb_eq in K; tauto|]
             end.
      reflexivity.
Qed.

Lemma pasteCells_writes_snapshot_witness :
  exists clip,
    clipboard (copySelectedCells sparseGrid) = Some clip
    /\ rows (pasteCells "D4" (copySelectedCells sparseGrid)) = 100
    /\ getCellValue (cells (pasteCells "Z99" (copySelectedCells sparseGrid))) "A1" = "1".
Proof.
  eexists. split; [vm_compute; reflexivity|]. 
  split.
  - pose proof (pasteCells_writes_snapshot (copySelectedCells sparseGrid) _ "D4" eq_refl)
      as ((Hrows & _) & _).
    rewrite Hrows. reflexivity.
  - pose proof (pasteCells_writes_snapshot (copySelectedCells sparseGrid) _ "Z99" eq_refl)
      as (_ & _ & Hkeep & _).
    unfold getCellValue. rewrite (Hkeep "A1").
    + vm_compute. reflexivity.
    + intros e He. vm_compute in He.
      destruct He as [<-|[<-|[<-|[]]]]; vm_compute; discriminate.
Defined.

(** C5: copying A1:B2 with [copySelectedCells] and pasting at D4 does not
    make D4:E5 identical to the source.  B2 is empty, [copySelectedCells]
    leaves it out of the snapshot, and E5 still shows its old text after
    the paste, while D4, E4 and D5 show the sources.  [copySelection]
    takes the empty cell into the snapshot as an empty cell, and the same
    paste then makes the four cells of D4:E5 show what A1:B2 shows. *)
Theorem paste_keeps_destination_of_empty_source :
  let pasted := pasteCells "D4" (copySelectedCells sparseGrid) in
  let sibling := pasteCells "D4" (copySelection sparseGrid) in
  map (getCellValue (cells sparseGrid)) ["A1"; "B1"; "A2"; "B2"] = ["1"; "2"; "3"; ""]
  /\ map (getCellValue (cells pasted)) ["D4"; "E4"; "D5"; "E5"] = ["1"; "2"; "3"; "old"]
  /\ get (cells pasted) "E5" <> get (cells sparseGrid) "B2"
  /\ get (cells pasted) "E5" = get (cells sparseGrid) "E5"
  /\ map (getCellValue (cells sibling)) ["D4"; "E4"; "D5"; "E5"] = ["1"; "2"; "3"; ""].
Proof.
  vm_compute. repeat split. discriminate.
Qed.

(** ** Further properties of the store *)









(** The entry that [saveState] appends is the last one. *)
Lemma saveState_last :
  forall st, exists older, history (saveState st) = (older ++ [snapshot st])%list.
Proof.
  intros st. unfold saveState. cbn [history setHistory].
  set (truncated := if historyIndex st <? lengthZ (history st) - 1
                    then sliceTo (history st) (historyIndex st + 1)
                    else history st).
  destruct (MAX_HISTORY <? lengthZ (truncated ++ [snapshot st])) eqn:E.
  - destruct truncated as [|t ts].
    + apply Z.ltb_lt in E. unfold MAX_HISTORY, lengthZ in E. simpl in E. lia.
    + exists ts. reflexivity.
  - exists truncated. reflexivity.
Qed.

Lemma saveState_two_entries :
  forall st,
    historyOk st -> 0 <= historyIndex st ->
    2 <= lengthZ (history (saveState st)).
Proof.
  unfold historyOk, MAX_HISTORY. intros st [Hb Hi] H0.
  unfold saveState. cbn [history setHistory].
  set (truncated := if historyIndex st <? lengthZ (history st) - 1
                    then sliceTo (history st) (historyIndex st + 1)
                    else history st).
  assert (1 <= lengthZ truncated) as Ht.
  { subst truncated. destruct (_ <? _) eqn:E; [|lia].
    apply Z.ltb_lt in E. unfold sliceTo.
    replace (historyIndex st + 1 <? 0) with false by (symmetry; apply Z.ltb_ge; lia).
    unfold lengthZ in *. rewrite length_firstn. lia. }
  pose proof (lengthZ_app _ truncated [snapshot st]) as Hp.
  change (lengthZ [snapshot st]) with 1 in Hp.
  unfold MAX_HISTORY.
  destruct (50 <? lengthZ (truncated ++ [snapshot st])) eqn:E.
  - apply Z.ltb_lt in E. rewrite lengthZ_tl by lia. lia.
  - lia.
Qed.

(** After an edit the last history entry records the grid as it was
    before the edit. *)
Lemma edit_last_entry :
  forall (a : action) (st : SheetState),
    isEdit a = true ->
    exists older h,
      history (perform a st) = (older ++ [h])%list
      /\ h_cells h = cells st /\ h_rows h = rows st /\ h_cols h = cols st.
Proof.
  intros a st Ha.
  destruct (edit_sameHistory a st Ha) as [[Hh _]|[Hh _]]; rewrite Hh.
  - destruct (saveState_last st) as [older ->].
    exists older, (snapshot st). repeat split.
  - destruct (saveState_last (saveState st)) as [older ->].
    exists older, (snapshot (saveState st)). repeat split.
Qed.

Lemma edit_two_entries :
  forall (a : action) (st : SheetState),
    isEdit a = true -> historyOk st -> 0 <= historyIndex st ->
    2 <= lengthZ (history (perform a st)).
Proof.
  intros a st Ha Hok H0.
  pose proof (saveState_two_entries st Hok H0) as H2.
  destruct (edit_sameHistory a st Ha) as [[Hh _]|[Hh _]]; rewrite Hh; [exact H2|].
  pose proof (saveState_atLatest st (proj1 Hok)) as Hl.
  pose proof (saveState_length _ Hl) as Hlen.
  unfold MAX_HISTORY in *. lia.
Qed.

Lemma at_last :
  forall (A : Type) (older : list A) (x : A),
    at_ (older ++ [x]) (lengthZ (older ++ [x]) - 1) = Some x.
Proof.
  intros A older x. unfold at_.
  rewrite lengthZ_app. change (lengthZ [x]) with 1.
  pose proof (lengthZ_nonneg _ older) as H.
  replace (lengthZ older + 1 - 1 <? 0) with false by (symmetry; apply Z.ltb_ge; lia).
  replace (Z.to_nat (lengthZ older + 1 - 1)) with (List.length older)
    by (unfold lengthZ; lia).
  rewrite nth_error_app2 by lia.
  now rewrite Nat.sub_diag.
Qed.

(** X2: an undo followed by a redo does not bring the last edit back: the
    grid is then the one from before the edit.  (The state after an edit
    is in no history entry.) *)
Theorem redo_undo_loses_last_edit :
  forall (a : action) (st : SheetState),
    isEdit a = true ->
    historyOk st ->
    0 <= historyIndex st ->
    sameGrid (redo (undo (perform a st))) st.
Proof.
  intros a st Ha Hok H0.
  pose proof (edit_atLatest a st Ha (proj1 Hok)) as (Hb & _ & Hi).
  pose proof (edit_two_entries a st Ha Hok H0) as H2.
  destruct (edit_last_entry a st Ha) as (older & h & Hh & Hc & Hr & Hco).
  set (s := perform a st) in *.
  destruct (undo_step s) as [Hh1 Hi1]; [lia|].
  unfold redo. rewrite Hh1, Hi1, Hi.
  replace (lengthZ (history s) - 1 <=? lengthZ (history s) - 1 - 1) with false
    by (symmetry; apply Z.leb_gt; lia).
  replace (lengthZ (history s) - 1 - 1 + 1) with (lengthZ (history s) - 1) by lia.
  rewrite Hh, at_last.
  unfold sameGrid. cbn [cells rows cols restore]. auto.
Qed.

Lemma redo_undo_loses_last_edit_witness :
  isEdit AddRow = true
  /\ historyOk (addRow initialState)
  /\ 0 <= historyIndex (addRow initialState)
  /\ rows (addRow (addRow initialState)) = 102
  /\ rows (redo (undo (addRow (addRow initialState)))) = 101.
Proof.
  assert (historyOk (addRow initialState)) as Hok by (vm_compute; intuition discriminate).
  assert (0 <= historyIndex (addRow initialState)) as H0 by (vm_compute; discriminate).
  split; [reflexivity|]. split; [exact Hok|]. split; [exact H0|].
  split; [reflexivity|].
  destruct (redo_undo_loses_last_edit AddRow (addRow initialState) eq_refl Hok H0)
    as (_ & Hr & _).
  cbn [perform] in Hr. rewrite Hr. reflexivity.
Defined.

(** X3: on a store without history the first edit cannot be undone: undo
    is a no-op right after it.  ([pasteSelection] may save twice and is
    left out.) *)
Theorem undo_after_first_edit :
  forall (a : action) (st : SheetState),
    isEdit a = true ->
    a <> PasteSelection ->
    history st = [] ->
    undo (perform a st) = perform a st.
Proof.
  intros a st Ha Hp Hh.
  apply undo_at_earliest.
  assert (historyIndex (saveState st) = 0) as H0.
  { unfold saveState. cbn [historyIndex setHistory]. rewrite Hh.
    change (lengthZ (@nil HistoryState)) with 0.
    unfold sliceTo. rewrite firstn_nil.
    destruct (historyIndex st <? 0 - 1); reflexivity. }
  assert (sameHistory (perform a st) (saveState st)) as [_ Hi].
  { destruct a; try discriminate Ha; cbn [perform]; try (split; reflexivity).
    - apply pasteCells_sameHistory.
    - unfold cutSelection.
      destruct (selectedCells (saveState st)); [apply sameHistory_refl|].
      destruct (getTopLeftCell _); split; reflexivity.
    - contradiction.
    - destruct confirmed; [split; reflexivity|discriminate Ha]. }
  rewrite Hi, H0. lia.
Qed.

Lemma undo_after_first_edit_witness :
  isEdit (UpdateCell "A1" (typed "7")) = true
  /\ UpdateCell "A1" (typed "7") <> PasteSelection
  /\ history initialState = []
  /\ getCellValue (cells (undo (perform (UpdateCell "A1" (typed "7")) initialState))) "A1"
     = "7".
Proof.
  split; [reflexivity|]. split; [discriminate|]. split; [reflexivity|].
  rewrite (undo_after_first_edit (UpdateCell "A1" (typed "7")) initialState eq_refl).
  - reflexivity.
  - discriminate.
  - reflexivity.
Defined.

(** X4: undo and redo touch the grid and the index only: the history, the
    clipboard, the selection and the drag state stay. *)
Theorem undo_redo_frame :
  forall (st : SheetState) (f : SheetState -> SheetState),
    f = undo \/ f = redo ->
    history (f st) = history st
    /\ clipboard (f st) = clipboard st
    /\ selectedCell (f st) = selectedCell st
    /\ selectedCells (f st) = selectedCells st
    /\ isDragging (f st) = isDragging st
    /\ dragStart (f st) = dragStart st.
Proof.
  intros st f [-> | ->].
  - unfold undo. split_matches; repeat split.
  - unfold redo. split_matches; repeat split.
Qed.

Lemma undo_redo_frame_witness :
  clipboard (undo (addRow (copySelectedCells sparseGrid)))
  = clipboard (addRow (copySelectedCells sparseGrid)).
Proof.
  apply (undo_redo_frame (addRow (copySelectedCells sparseGrid)) undo).
  left. reflexivity.
Defined.

(** X5: the selection between two cells does not depend on which of them
    comes first. *)
Theorem getSelectionBetween_symmetric :
  forall start end_ : string,
    getSelectionBetween start end_ = getSelectionBetween end_ start.
Proof.
  intros start end_. unfold getSelectionBetween.
  now rewrite (Z.min_comm (cellColumn start)), (Z.max_comm (cellColumn start)),
    (Z.min_comm (cellRow start)), (Z.max_comm (cellRow start)).
Qed.

Lemma length_upto :
  forall lo hi, lo <= hi + 1 -> lengthZ (upto lo hi) = hi - lo + 1.
Proof.
  intros lo hi H. unfold upto, lengthZ.
  rewrite length_map, length_seq. lia.
Qed.

Lemma length_flat_map_const :
  forall (A B : Type) (f : A -> list B) (n : nat) (l : list A),
    (forall a, List.length (f a) = n) ->
    List.length (flat_map f l) = (List.length l * n)%nat.
Proof.
  intros A B f n l H. induction l as [|a l IH]; simpl; [reflexivity|].
  rewrite List.length_app, H, IH. lia.
Qed.

(** X6: the selection between two cells is the whole rectangle: its size
    is the product of the two spans. *)
Theorem getSelectionBetween_size :
  forall start end_ : string,
    lengthZ (getSelectionBetween start end_)
    = (Z.abs (cellRow start - cellRow end_) + 1)
      * (Z.abs (cellColumn start - cellColumn end_) + 1).
Proof.
  intros start end_. unfold getSelectionBetween.
  set (c0 := Z.min _ _). set (c1 := Z.max _ _).
  set (r0 := Z.min _ _). set (r1 := Z.max _ _).
  unfold lengthZ.
  rewrite (length_flat_map_const _ _ _ (List.length (upto c0 c1))).
  - pose proof (length_upto r0 r1 ltac:(subst r0 r1; lia)) as Hr.
    pose proof (length_upto c0 c1 ltac:(subst c0 c1; lia)) as Hc.
    unfold lengthZ in Hr, Hc.
    rewrite Nat2Z.inj_mul, Hr, Hc. subst c0 c1 r0 r1. lia.
  - intros row. now rewrite length_map.
Qed.

(** X7: [updateCell] writes the addressed cell, taking from the patch the
    properties it has and keeping the others (those of an empty cell when
    the cell is new); every other cell, the size of the grid, the
    selection and the clipboard stay. *)
Theorem updateCell_lookup :
  forall (cellId : string) (data : PartialCellData) (st : SheetState),
    get (cells (updateCell cellId data st)) cellId
    = Some (mergeCell (orElse (get (cells st) cellId) createEmptyCell) data)
    /\ (forall other, other <> cellId ->
          get (cells (updateCell cellId data st)) other = get (cells st) other)
    /\ rows (updateCell cellId data st) = rows st
    /\ cols (updateCell cellId data st) = cols st
    /\ selectedCells (updateCell cellId data st) = selectedCells st
    /\ clipboard (updateCell cellId data st) = clipboard st.
Proof.
  intros cellId data st. unfold updateCell.
  cbn [cells rows cols selectedCells clipboard setCells saveState setHistory].
  split; [apply get_set_same|].
  split; [|repeat split].
  intros other Hne. apply get_set_other. congruence.
Qed.

(** A fold of writes of one value [f k] per key. *)
Lemma get_fold_set :
  forall (A : Type) (f : string -> A) (keys : list string) (o : obj A) (k : string),
    get (fold_left (fun acc key => set acc key (f key)) keys o) k
    = if existsb (String.eqb k) keys then Some (f k) else get o k.
Proof.
  intros A f keys. induction keys as [|key keys IH]; intros o k; cbn [fold_left existsb].
  - reflexivity.
  - rewrite IH.
    destruct (existsb (String.eqb k) keys); [now rewrite orb_true_r|].
    rewrite orb_false_r.
    destruct (String.eqb k key) eqn:E.
    + apply String.eqb_eq in E. subst key. apply get_set_same.
    + apply String.eqb_neq in E. apply get_set_other. congruence.
Qed.

(** X8: [cutSelection] on a non-empty selection empties every selected
    cell, leaves the others, and puts on the clipboard every selected
    cell as it was, an empty cell standing for one that did not exist. *)
Theorem cutSelection_moves_cells :
  forall (st : SheetState),
    selectedCells st <> [] ->
    exists clip,
      clipboard (cutSelection st) = Some clip
      /\ type clip = Some cut
      /\ (forall k,
            get (cells (cutSelection st)) k
            = if existsb (String.eqb k) (selectedCells st)
              then Some createEmptyCell else get (cells st) k)
      /\ (forall k,
            get (clip_cells clip) k
            = if existsb (String.eqb k) (selectedCells st)
              then Some (cellOrEmpty (cells st) k) else None).
Proof.
  intros st Hsel. unfold cutSelection.
  cbn [selectedCells saveState setHistory].
  destruct (selectedCells st) as [|c sel] eqn:E; [contradiction|].
  destruct (getTopLeftCell (c :: sel)) as [tl|] eqn:Etl.
  - eexists. cbn [clipboard cells setCells setClipboard].
    split; [reflexivity|]. split; [reflexivity|]. split.
    + intros k. apply (get_fold_set _ (fun _ => createEmptyCell)).
    + intros k. cbn [clip_cells selectionClipboard]. unfold copyAll.
      apply (get_fold_set _ (cellOrEmpty (cells st))).
  - exfalso. unfold getTopLeftCell in Etl. cbn [fold_left fst snd below] in Etl.
    set (step := fun (acc : option Z * option Z) (cellId : string) => _) in Etl.
    assert (forall l a b, exists a' b', fold_left step l (Some a, Some b) = (Some a', Some b')) as Hf.
    { induction l as [|x l IH]; intros a b; cbn [fold_left]; [eauto|].
      unfold step at 2. cbn [fst snd].
      destruct (below _ (Some a)), (below _ (Some b)); apply IH. }
    destruct (Hf sel (cellColumn c) (cellRow c)) as (a' & b' & Hab).
    rewrite Hab in Etl. discriminate.
Qed.

Lemma cutSelection_moves_cells_witness :
  selectedCells sparseGrid <> []
  /\ getCellValue (cells (cutSelection sparseGrid)) "A1" = ""
  /\ getCellValue (cells (cutSelection sparseGrid)) "E5" = "old".
Proof.
  assert (selectedCells sparseGrid <> []) as Hsel by (vm_compute; discriminate).
  split; [exact Hsel|].
  destruct (cutSelection_moves_cells sparseGrid Hsel) as (clip & _ & _ & Hcells & _).
  unfold getCellValue. rewrite (Hcells "A1"), (Hcells "E5").
  split; vm_compute; reflexivity.
Defined.

Lemma get_fold_copyExisting :
  forall (source : obj CellData) (keys : list string) (o : obj CellData) (k : string),
    get (fold_left (copyExisting source) keys o) k
    = if existsb (String.eqb k) keys
      then match get source k with
           | Some c => Some c
           | None => get o k
           end
      else get o k.
Proof.
  intros source keys. induction keys as [|key keys IH]; intros o k; cbn [fold_left existsb].
  - reflexivity.
  - rewrite IH. unfold copyExisting.
    destruct (String.eqb k key) eqn:E.
    + apply String.eqb_eq in E. subst key. cbn [orb].
      destruct (get source k) as [c|] eqn:Es.
      * rewrite get_set_same. now destruct (existsb _ keys).
      * now destruct (existsb _ keys).
    + cbn [orb]. apply String.eqb_neq in E.
      destruct (get source key) as [c|];
        [rewrite get_set_other by congruence|]; reflexivity.
Qed.

(** A non-empty selection has a top-left cell. *)
Lemma getTopLeftCell_nonempty :
  forall (c : string) (sel : list string),
    exists tl, getTopLeftCell (c :: sel) = Some tl.
Proof.
  intros c sel. unfold getTopLeftCell. cbn [fold_left fst snd below].
  set (step := fun (acc : option Z * option Z) (cellId : string) => _).
  assert (forall l a b, exists a' b', fold_left step l (Some a, Some b) = (Some a', Some b')) as Hf.
  { induction l as [|x l IH]; intros a b; cbn [fold_left]; [eauto|].
    unfold step at 2. cbn [fst snd].
    destruct (below _ (Some a)), (below _ (Some b)); apply IH. }
  destruct (Hf sel (cellColumn c) (cellRow c)) as (a' & b' & ->).
  eauto.
Qed.

(** X9: the two copy actions differ on cells that do not exist:
    [copySelectedCells] snapshots the selected cells that exist,
    [copySelection] snapshots every selected cell, an empty cell standing
    for one that does not exist.  Neither changes the grid. *)
Theorem copy_snapshots :
  forall (st : SheetState),
    selectedCells st <> [] ->
    exists clip1 clip2,
      clipboard (copySelectedCells st) = Some clip1
      /\ clipboard (copySelection st) = Some clip2
      /\ (forall k,
            get (clip_cells clip1) k
            = if existsb (String.eqb k) (selectedCells st) then get (cells st) k else None)
      /\ (forall k,
            get (clip_cells clip2) k
            = if existsb (String.eqb k) (selectedCells st)
              then Some (cellOrEmpty (cells st) k) else None)
      /\ cells (copySelectedCells st) = cells st
      /\ cells (copySelection st) = cells st.
Proof.
  intros st Hsel. unfold copySelectedCells, copySelection.
  destruct (selectedCells st) as [|c sel] eqn:E; [contradiction|].
  destruct (getTopLeftCell_nonempty c sel) as [tl ->].
  do 2 eexists. cbn [clipboard cells setClipboard].
  split; [reflexivity|]. split; [reflexivity|].
  split; [|split; [|split; reflexivity]].
  - intros k. cbn [clip_cells]. rewrite get_fold_copyExisting. cbn [get].
    destruct (existsb _ _); [|reflexivity]. now destruct (get (cells st) k).
  - intros k. cbn [clip_cells selectionClipboard]. unfold copyAll.
    apply (get_fold_set _ (cellOrEmpty (cells st))).
Qed.

Lemma copy_snapshots_witness :
  selectedCells sparseGrid <> []
  /\ exists clip1 clip2,
       clipboard (copySelectedCells sparseGrid) = Some clip1
       /\ clipboard (copySelection sparseGrid) = Some clip2
       /\ get (clip_cells clip1) "B2" = None
       /\ get (clip_cells clip2) "B2" = Some createEmptyCell.
Proof.
  assert (selectedCells sparseGrid <> []) as Hsel by (vm_compute; discriminate).
  split; [exact Hsel|].
  destruct (copy_snapshots sparseGrid Hsel) as (clip1 & clip2 & H1 & H2 & Hc1 & Hc2 & _).
  exists clip1, clip2. split; [exact H1|]. split; [exact H2|].
  rewrite (Hc1 "B2"), (Hc2 "B2"). split; vm_compute; reflexivity.
Defined.

Lemma In_upto :
  forall lo hi x, lo <= x <= hi -> In x (upto lo hi).
Proof.
  intros lo hi x H. unfold upto.
  apply in_map_iff. exists (Z.to_nat (x - lo)). split; [lia|].
  apply in_seq. lia.
Qed.


(** X10: after a confirmed [clearSpreadsheet] every cell of the grid is
    present and empty, no other cell is left, so every lookup shows the
    empty text; the size of the grid stays.  A declined confirmation
    changes nothing. *)
Theorem clearSpreadsheet_blank :
  forall (st : SheetState),
    (forall c r,
        0 <= c < cols st -> 1 <= r <= rows st ->
        get (cells (clearSpreadsheet true st)) (indexToColumnLetter c ++ ofInt r)
        = Some blankCell)
    /\ (forall ref,
          get (cells (clearSpreadsheet true st)) ref = Some blankCell
          \/ get (cells (clearSpreadsheet true st)) ref = None)
    /\ (forall ref, getCellValue (cells (clearSpreadsheet true st)) ref = "")
    /\ rows (clearSpreadsheet true st) = rows st
    /\ cols (clearSpreadsheet true st) = cols st
    /\ clearSpreadsheet false st = st.
Proof.
  intros st. unfold clearSpreadsheet.
  cbn [cells rows cols setCells saveState setHistory].
  set (ids := flat_map _ _).
  assert (forall k,
             get (fold_left (fun acc cellId => set acc cellId blankCell) ids []) k
             = if existsb (String.eqb k) ids then Some blankCell else None) as Hget
      by (intros k; apply (get_fold_set _ (fun _ => blankCell))).
  fold blankCell.
  split; [|split; [|split; [|repeat split]]].
  - intros c r Hc Hr. rewrite Hget.
    replace (existsb _ ids) with true; [reflexivity|].
    symmetry. apply existsb_exists.
    exists (indexToColumnLetter c ++ ofInt r). split; [|apply String.eqb_refl].
    subst ids. apply in_flat_map. exists c. split; [apply In_upto; lia|].
    apply in_map_iff. exists r. split; [reflexivity|apply In_upto; lia].
  - intros ref. rewrite Hget. destruct (existsb _ ids); auto.
  - intros ref. unfold getCellValue. rewrite Hget. now destruct (existsb _ ids).
Qed.

Lemma fold_min_bound :
  forall (f : string -> Z) (l : list string) (a : Z),
    exists m,
      fold_left (fun (acc : option Z) x => if below (f x) acc then Some (f x) else acc)
        l (Some a) = Some m
      /\ m <= a /\ (forall x, In x l -> m <= f x).
Proof.
  intros f. induction l as [|y l IH]; intros a; cbn [fold_left].
  - exists a. repeat split; [lia|intros x []].
  - cbn [below]. destruct (f y <? a) eqn:E.
    + apply Z.ltb_lt in E. destruct (IH (f y)) as (m & -> & Hm & Hall).
      exists m. repeat split; [lia|].
      intros x [<-|Hx]; [exact Hm|auto].
    + apply Z.ltb_ge in E. destruct (IH a) as (m & -> & Hm & Hall).
      exists m. repeat split; [exact Hm|].
      intros x [<-|Hx]; [lia|auto].
Qed.

Lemma fold_max_bound :
  forall (f : string -> Z) (l : list string) (a : Z),
    let m := fold_left (fun (acc : Z) x => if acc <? f x then f x else acc) l a in
    a <= m /\ (forall x, In x l -> f x <= m).
Proof.
  intros f. induction l as [|y l IH]; intros a; cbn [fold_left].
  - split; [lia|intros x []].
  - destruct (a <? f y) eqn:E.
    + apply Z.ltb_lt in E. destruct (IH (f y)) as (Hm & Hall).
      split; [lia|]. intros x [<-|Hx]; [exact Hm|auto].
    + apply Z.ltb_ge in E. destruct (IH a) as (Hm & Hall).
      split; [exact Hm|]. intros x [<-|Hx]; [lia|auto].
Qed.

Lemma fold_pair_min :
  forall (l : list string) (a b : option Z),
    fold_left
      (fun (acc : option Z * option Z) (cellId : string) =>
         (if below (cellColumn cellId) (fst acc) then Some (cellColumn cellId) else fst acc,
          if below (cellRow cellId) (snd acc) then Some (cellRow cellId) else snd acc))
      l (a, b)
    = (fold_left (fun acc x => if below (cellColumn x) acc then Some (cellColumn x) else acc) l a,
       fold_left (fun acc x => if below (cellRow x) acc then Some (cellRow x) else acc) l b).
Proof.
  induction l as [|y l IH]; intros a b; cbn [fold_left fst snd]; [reflexivity|apply IH].
Qed.

Lemma fold_pair_max :
  forall (l : list string) (a b : Z),
    fold_left
      (fun (acc : Z * Z) (cellId : string) =>
         (if fst acc <? cellColumn cellId then cellColumn cellId else fst acc,
          if snd acc <? cellRow cellId then cellRow cellId else snd acc))
      l (a, b)
    = (fold_left (fun acc x => if acc <? cellColumn x then cellColumn x else acc) l a,
       fold_left (fun acc x => if acc <? cellRow x then cellRow x else acc) l b).
Proof.
  induction l as [|y l IH]; intros a b; cbn [fold_left fst snd]; [reflexivity|apply IH].
Qed.

(** X11: the two corners that the copy actions record bound the
    selection: every selected cell has its column and its row between
    those of [getTopLeftCell] and of [getBottomRightCell]. *)
Theorem selection_corners_bound :
  forall (sel : list string),
    sel <> [] ->
    exists minCol minRow maxCol maxRow,
      getTopLeftCell sel = Some (indexToColumnLetter minCol ++ ofInt minRow)
      /\ getBottomRightCell sel = indexToColumnLetter maxCol ++ ofInt maxRow
      /\ forall cellId, In cellId sel ->
           minCol <= cellColumn cellId <= maxCol
           /\ minRow <= cellRow cellId <= maxRow.
Proof.
  intros [|c sel] Hne; [contradiction|].
  unfold getTopLeftCell, getBottomRightCell.
  rewrite fold_pair_max.
  cbn [fold_left fst snd below]. rewrite fold_pair_min.
  destruct (fold_min_bound cellColumn sel (cellColumn c)) as (mc & -> & Hmc & Hmcs).
  destruct (fold_min_bound cellRow sel (cellRow c)) as (mr & -> & Hmr & Hmrs).
  pose proof (fold_max_bound cellColumn (c :: sel) (-1)) as [_ Hxc].
  pose proof (fold_max_bound cellRow (c :: sel) (-1)) as [_ Hxr].
  cbn [fold_left] in Hxc, Hxr.
  do 4 eexists. split; [reflexivity|]. split; [reflexivity|].
  intros cellId Hin.
  specialize (Hxc cellId Hin). specialize (Hxr cellId Hin).
  destruct Hin as [<-|Hin].
  - repeat split; assumption.
  - specialize (Hmcs cellId Hin). specialize (Hmrs cellId Hin).
    repeat split; assumption.
Qed.

Lemma selection_corners_bound_witness :
  getSelectionBetween "B2" "C4" <> []
  /\ getTopLeftCell (getSelectionBetween "B2" "C4") = Some "B2"
  /\ exists minCol minRow maxCol maxRow,
       getTopLeftCell (getSelectionBetween "B2" "C4")
       = Some (indexToColumnLetter minCol ++ ofInt minRow)
       /\ getBottomRightCell (getSelectionBetween "B2" "C4")
          = indexToColumnLetter maxCol ++ ofInt maxRow.
Proof.
  assert (getSelectionBetween "B2" "C4" <> []) as Hne by (vm_compute; discriminate).
  split; [exact Hne|]. split; [reflexivity|].
  destruct (selection_corners_bound _ Hne) as (a & b & c & d & H1 & H2 & _).
  exists a, b, c, d. split; assumption.
Defined.

(** X12: a drag from [a] to [b] selects the rectangle between them and
    leaves the grid alone; once the drag has ended, moving over a cell
    selects nothing new. *)
Theorem drag_selects_rectangle :
  forall (st : SheetState) (a b : string),
    a <> "" ->
    selectedCells (handleDrag b (startDrag a st)) = getSelectionBetween a b
    /\ cells (handleDrag b (startDrag a st)) = cells st
    /\ handleDrag b (endDrag (startDrag a st)) = endDrag (startDrag a st).
Proof.
  intros st a b Ha. unfold handleDrag.
  cbn [isDragging dragStart startDrag endDrag negb].
  unfold truthy.
  replace (String.eqb a "") with false
    by (symmetry; apply String.eqb_neq; exact Ha).
  repeat split.
Qed.

Lemma drag_selects_rectangle_witness :
  "B2" <> ""
  /\ selectedCells (handleDrag "A1" (startDrag "B2" initialState))
     = ["A1"; "B1"; "A2"; "B2"].
Proof.
  split; [discriminate|].
  destruct (drag_selects_rectangle initialState "B2" "A1") as [H _]; [discriminate|].
  rewrite H. reflexivity.
Defined.

(** ** Column letters *)

Lemma columnLetterToIndex_letterValue :
  forall col, columnLetterToIndex col = letterValue 0 col - 1.
Proof. reflexivity. Qed.

Lemma letterValue_app :
  forall a b r, letterValue r (a ++ b) = letterValue (letterValue r a) b.
Proof.
  induction a as [|c a IH]; intros b r; [reflexivity|].
  cbn [append]. unfold letterValue in *. cbn. apply IH.
Qed.

Lemma code_fromCharCode :
  forall n, 0 <= n < 256 ->
    exists c, fromCharCode n = String c EmptyString /\ code c = n.
Proof.
  intros n H. unfold fromCharCode. eexists. split; [reflexivity|].
  unfold code. rewrite N_ascii_embedding.
  - rewrite Z2N.id; [apply Z.mod_small; lia|apply Z.mod_pos_bound; lia].
  - change 256%N with (Z.to_N 256). apply Z2N.inj_lt; try lia.
    + apply Z.mod_pos_bound; lia.
    + apply Z.mod_pos_bound; lia.
Qed.

(** With enough turns the loop of [indexToColumnLetter] puts in front of
    [letter] the letters whose value is [index]. *)
Lemma indexToColumnLetterLoop_value :
  forall (fuel : nat) (index : Z) (letter : string),
    0 <= index <= Z.of_nat fuel ->
    exists front,
      indexToColumnLetterLoop fuel index letter = front ++ letter
      /\ letterValue 0 front = index
      /\ upperLetters front = true.
Proof.
  induction fuel as [|fuel IH]; intros index letter H.
  - exists "". cbn. repeat split. lia.
  - cbn [indexToColumnLetterLoop].
    destruct (0 <? index) eqn:E.
    + apply Z.ltb_lt in E.
      assert (0 <= (index - 1) mod 26 < 26) as Hm by (apply Z.mod_pos_bound; lia).
      assert (0 <= (index - 1) / 26 <= index - 1) as Hd.
      { split; [apply Z.div_pos; lia|].
        apply Z.div_le_upper_bound; lia. }
      destruct (code_fromCharCode (65 + (index - 1) mod 26)) as (c & Hc & Hcode); [lia|].
      rewrite Hc.
      destruct (IH ((index - 1) / 26) (String c "" ++ letter)) as (front & -> & Hv & Hu);
        [lia|].
      exists (front ++ String c "").
      split; [|split].
      * clear. induction front; simpl; [reflexivity|]. now f_equal.
      * rewrite letterValue_app, Hv. unfold letterValue. rewrite Hcode.
        pose proof (Z.div_mod (index - 1) 26). lia.
      * unfold upperLetters in *. clear - Hu Hcode Hm.
        induction front as [|x front IHf]; cbn [append allChars] in *.
        -- unfold isUpper. rewrite Hcode.
           replace (65 <=? 65 + (index - 1) mod 26) with true
             by (symmetry; apply Z.leb_le; lia).
           replace (65 + (index - 1) mod 26 <=? 90) with true
             by (symmetry; apply Z.leb_le; lia).
           reflexivity.
        -- apply andb_true_iff in Hu. destruct Hu as [Hx Hf].
           rewrite Hx. cbn [andb]. apply IHf. exact Hf.
    + apply Z.ltb_ge in E. exists "". repeat split. cbn. lia.
Qed.

(** The letters of a column index from 0 on: upper-case, not empty, and
    of value [index + 1]. *)
Lemma indexToColumnLetter_letters :
  forall index : Z,
    0 <= index ->
    letterValue 0 (indexToColumnLetter index) = index + 1
    /\ upperLetters (indexToColumnLetter index) = true
    /\ indexToColumnLetter index <> "".
Proof.
  intros index H. unfold indexToColumnLetter.
  destruct (indexToColumnLetterLoop_value (Z.to_nat (index + 1)) (index + 1) "")
    as (front & Hf & Hv & Hu); [lia|].
  rewrite Hf.
  assert (front ++ "" = front) as -> by (clear; induction front; simpl; congruence).
  split; [exact Hv|]. split; [exact Hu|].
  intros ->. cbn in Hv. lia.
Qed.

(** X13: [columnLetterToIndex] undoes [indexToColumnLetter]: for every
    column index from 0 on, the letters written for it are upper-case and
    read back as the same index. *)
Theorem columnLetterToIndex_indexToColumnLetter :
  forall index : Z,
    0 <= index ->
    columnLetterToIndex (indexToColumnLetter index) = index
    /\ upperLetters (indexToColumnLetter index) = true
    /\ indexToColumnLetter index <> "".
Proof.
  intros index H.
  destruct (indexToColumnLetter_letters index H) as (Hv & Hu & Hne).
  split; [|split; assumption].
  rewrite columnLetterToIndex_letterValue, Hv. lia.
Qed.

Lemma columnLetterToIndex_indexToColumnLetter_witness :
  0 <= 701
  /\ indexToColumnLetter 701 = "ZZ"
  /\ columnLetterToIndex (indexToColumnLetter 701) = 701.
Proof.
  split; [lia|]. split; [reflexivity|].
  apply (columnLetterToIndex_indexToColumnLetter 701). lia.
Defined.

(** A column index below zero has no letters. *)
Lemma indexToColumnLetter_negative :
  forall index, index < 0 -> indexToColumnLetter index = "".
Proof.
  intros index H. unfold indexToColumnLetter.
  destruct (Z.to_nat (index + 1)) eqn:E; [reflexivity|].
  cbn [indexToColumnLetterLoop].
  now replace (0 <? index + 1) with false by (symmetry; apply Z.ltb_ge; lia).
Qed.

Lemma append_nil_r : forall s : string, s ++ "" = s.
Proof. induction s; simpl; congruence. Qed.

Lemma append_assoc_string :
  forall a b c : string, (a ++ b) ++ c = a ++ (b ++ c).
Proof. induction a; intros; simpl; congruence. Qed.

(** A non-empty string ends with a character. *)
Lemma string_snoc :
  forall s : string,
    s <> "" ->
    exists front c,
      s = front ++ String c ""
      /\ (String.length front < String.length s)%nat.
Proof.
  induction s as [|a s IH]; intros H; [contradiction|].
  destruct s as [|b s].
  - exists "", a. split; [reflexivity|simpl; lia].
  - destruct IH as (front & c & E & Hl); [discriminate|].
    exists (String a front), c. split; [simpl; now rewrite <- E|simpl in *; lia].
Qed.

Lemma allChars_app :
  forall p a b, allChars p (a ++ b) = allChars p a && allChars p b.
Proof.
  induction a as [|c a IH]; intros b; cbn [append allChars]; [reflexivity|].
  now rewrite IH, andb_assoc.
Qed.

Lemma letterValue_upper_nonneg :
  forall s r, upperLetters s = true -> 0 <= r -> r <= letterValue r s.
Proof.
  unfold upperLetters.
  induction s as [|c s IH]; intros r Hu Hr; [cbn; lia|].
  cbn [allChars] in Hu. apply andb_true_iff in Hu. destruct Hu as [Hc Hs].
  unfold isUpper in Hc. apply andb_true_iff in Hc. destruct Hc as [H1 H2].
  apply Z.leb_le in H1, H2.
  change (letterValue r (String c s)) with (letterValue (r * 26 + (code c - 64)) s).
  specialize (IH (r * 26 + (code c - 64)) Hs). lia.
Qed.

Lemma fromCharCode_code :
  forall c, fromCharCode (code c) = String c "".
Proof.
  intros c. unfold fromCharCode, code.
  assert (0 <= Z.of_N (N_of_ascii c) < 256) as H.
  { pose proof (N_ascii_bounded c). lia. }
  rewrite Z.mod_small by exact H.
  now rewrite N2Z.id, ascii_N_embedding.
Qed.

(** With enough turns the loop of [indexToColumnLetter] writes upper-case
    letters back from their value. *)
Lemma indexToColumnLetterLoop_letters :
  forall (n : nat) (s : string),
    String.length s = n ->
    upperLetters s = true ->
    forall (fuel : nat) (letter : string),
      letterValue 0 s <= Z.of_nat fuel ->
      indexToColumnLetterLoop fuel (letterValue 0 s) letter = s ++ letter.
Proof.
  induction n as [n IH] using lt_wf_ind. intros s Hn Hu fuel letter Hf.
  destruct s as [|a0 s0] eqn:Es.
  - cbn. destruct fuel; reflexivity.
  - rewrite <- Es in *.
    destruct (string_snoc s) as (front & c & E & Hl); [rewrite Es; discriminate|].
    unfold upperLetters in Hu. rewrite E, allChars_app in Hu.
    apply andb_true_iff in Hu. destruct Hu as [Hfront Hc].
    cbn [allChars] in Hc. rewrite andb_true_r in Hc.
    pose proof Hc as Hc'. unfold isUpper in Hc'.
    apply andb_true_iff in Hc'. destruct Hc' as [H1 H2].
    apply Z.leb_le in H1, H2.
    pose proof (letterValue_upper_nonneg front 0 Hfront ltac:(lia)) as Hv.
    assert (letterValue 0 s = letterValue 0 front * 26 + (code c - 64)) as Eval.
    { rewrite E, letterValue_app. reflexivity. }
    rewrite Eval in *.
    set (v := letterValue 0 front) in *.
    destruct fuel as [|fuel]; [lia|].
    cbn [indexToColumnLetterLoop].
    replace (0 <? v * 26 + (code c - 64)) with true by (symmetry; apply Z.ltb_lt; lia).
    replace (v * 26 + (code c - 64) - 1) with ((code c - 65) + v * 26) by lia.
    rewrite Z.mod_add, Z.div_add by lia.
    rewrite Z.mod_small, Z.div_small by lia.
    replace (65 + (code c - 65)) with (code c) by lia.
    rewrite fromCharCode_code. cbn [Z.add].
    subst v. rewrite (IH (String.length front)); try reflexivity.
    + rewrite E. now rewrite append_assoc_string.
    + lia.
    + exact Hfront.
    + lia.
Qed.

(** X14: [indexToColumnLetter] undoes [columnLetterToIndex] on upper-case
    letters, so the two are inverse bijections between the texts over A-Z
    and the indices from -1 (no letter) on. *)
Theorem indexToColumnLetter_columnLetterToIndex :
  forall col : string,
    upperLetters col = true ->
    indexToColumnLetter (columnLetterToIndex col) = col.
Proof.
  intros col Hu. unfold indexToColumnLetter.
  rewrite columnLetterToIndex_letterValue.
  replace (letterValue 0 col - 1 + 1) with (letterValue 0 col) by lia.
  rewrite (indexToColumnLetterLoop_letters (String.length col) col eq_refl Hu).
  - apply append_nil_r.
  - pose proof (letterValue_upper_nonneg col 0 Hu ltac:(lia)). lia.
Qed.

Lemma indexToColumnLetter_columnLetterToIndex_witness :
  upperLetters "ABC" = true
  /\ columnLetterToIndex "ABC" = 730
  /\ indexToColumnLetter (columnLetterToIndex "ABC") = "ABC".
Proof.
  split; [reflexivity|]. split; [reflexivity|].
  apply (indexToColumnLetter_columnLetterToIndex "ABC"). reflexivity.
Defined.

(** ** Decimal rows *)

Lemma parseDigits_digitsValue : forall ds, parseDigits ds = digitsValue 0 ds.
Proof. reflexivity. Qed.

Lemma digitsValue_uint :
  forall (d e : Decimal.uint),
    Z.of_N (DecimalPos.Unsigned.of_lu (Decimal.revapp d e))
    = digitsValue (Z.of_N (DecimalPos.Unsigned.of_lu e)) (NilEmpty.string_of_uint d).
Proof.
  induction d as [|d IH|d IH|d IH|d IH|d IH|d IH|d IH|d IH|d IH|d IH]; intros e;
    cbn [Decimal.revapp NilEmpty.string_of_uint];
    [reflexivity|..];
    rewrite IH;
    match goal with
    | |- digitsValue ?a ?s = digitsValue ?b (String ?c ?s) =>
        change (digitsValue b (String c s)) with (digitsValue (b * 10 + digitValue c) s);
        f_equal
    end;
    cbn [DecimalPos.Unsigned.of_lu];
    match goal with
    | |- _ = _ + digitValue ?c => change (digitValue c) with (code c - 48)
    end;
    match goal with
    | |- context [code ?c] =>
        let v := eval vm_compute in (code c) in change (code c) with v
    end;
    lia.
Qed.

Lemma allChars_digits_uint :
  forall d : Decimal.uint, allChars isDigit (NilEmpty.string_of_uint d) = true.
Proof.
  induction d; cbn [NilEmpty.string_of_uint allChars]; try reflexivity;
    rewrite IHd; reflexivity.
Qed.

Lemma string_of_uint_nonempty :
  forall d : Decimal.uint, d <> Decimal.Nil -> NilEmpty.string_of_uint d <> "".
Proof.
  intros [] H; try discriminate. contradiction.
Qed.

(** The decimal text of a natural row: digits only, not empty, and read
    back by [parseInt] as the same number. *)
Lemma ofInt_digits :
  forall n : Z,
    0 <= n ->
    allChars isDigit (ofInt n) = true
    /\ ofInt n <> ""
    /\ parseDigits (ofInt n) = n.
Proof.
  intros [|p|p] H; [repeat split; discriminate| |lia].
  unfold ofInt. cbn [Z.to_int NilZero.string_of_int].
  unfold NilZero.string_of_uint.
  pose proof (DecimalPos.Unsigned.to_uint_nonnil p) as Hn.
  destruct (Pos.to_uint p) as [|d|d|d|d|d|d|d|d|d|d] eqn:E; [contradiction|..];
    rewrite <- E;
    (split; [apply allChars_digits_uint|];
     split; [apply string_of_uint_nonempty; rewrite E; discriminate|];
     rewrite parseDigits_digitsValue;
     change 0 with (Z.of_N (DecimalPos.Unsigned.of_lu Decimal.Nil));
     rewrite <- digitsValue_uint;
     change (Decimal.revapp (Pos.to_uint p) Decimal.Nil) with (Decimal.rev (Pos.to_uint p));
     rewrite <- DecimalPos.Unsigned.of_uint_alt, DecimalPos.Unsigned.of_to;
     reflexivity).
Qed.

(** ** References *)

Lemma code_inj : forall c d : ascii, code c = code d -> c = d.
Proof.
  unfold code. intros c d H. apply N2Z.inj in H.
  rewrite <- (ascii_N_embedding c), <- (ascii_N_embedding d). now rewrite H.
Qed.

Lemma prefix_nil : forall s : string, String.prefix "" s = true.
Proof. destruct s; reflexivity. Qed.

Lemma startsWith_dollar :
  forall (c : ascii) (t : string), startsWith (String c t) "$" = (code c =? 36).
Proof.
  intros c t. unfold startsWith. cbn [String.prefix].
  destruct (ascii_dec "$" c) as [<-|Hne].
  - now rewrite prefix_nil.
  - symmetry. apply Z.eqb_neq. intros H. apply Hne. apply code_inj.
    rewrite H. reflexivity.
Qed.

Lemma trimEnd_no_white :
  forall s, allChars (fun c => negb (isWhite c)) s = true -> trimEnd s = s.
Proof.
  induction s as [|c s IH]; intros H; [reflexivity|].
  cbn [allChars] in H. apply andb_true_iff in H. destruct H as [Hc Hs].
  cbn [trimEnd]. rewrite (IH Hs).
  destruct s; [|reflexivity].
  apply negb_true_iff in Hc. now rewrite Hc.
Qed.

(** A text without white space is its own [trim]. *)
Lemma trim_no_white :
  forall s, allChars (fun c => negb (isWhite c)) s = true -> trim s = s.
Proof.
  intros s H. unfold trim.
  assert (trimStart s = s) as ->.
  { destruct s as [|c s]; [reflexivity|].
    cbn [allChars] in H. apply andb_true_iff in H. destruct H as [Hc _].
    apply negb_true_iff in Hc. cbn [trimStart]. now rewrite Hc. }
  now apply trimEnd_no_white.
Qed.

Lemma digits_no_white :
  forall s, allChars isDigit s = true -> allChars (fun c => negb (isWhite c)) s = true.
Proof.
  induction s as [|c s IH]; intros H; [reflexivity|].
  cbn [allChars] in *. apply andb_true_iff in H. destruct H as [Hc Hs].
  rewrite (IH Hs), andb_true_r.
  unfold isDigit in Hc. apply andb_true_iff in Hc. destruct Hc as [H1 H2].
  apply Z.leb_le in H1, H2. unfold isWhite. apply negb_true_iff.
  replace (code c <=? 13) with false by (symmetry; apply Z.leb_gt; lia).
  replace (code c =? 32) with false by (symmetry; apply Z.eqb_neq; lia).
  now rewrite andb_false_r.
Qed.

(** What an upper-case letter is not. *)
Lemma upper_letter_facts :
  forall l : ascii,
    65 <= code l <= 90 ->
    isLetter l = true /\ isLower l = false /\ isWhite l = false
    /\ (code l =? 36) = false.
Proof.
  intros l H. unfold isLetter, isUpper, isLower, isWhite.
  replace (65 <=? code l) with true by (symmetry; apply Z.leb_le; lia).
  replace (code l <=? 90) with true by (symmetry; apply Z.leb_le; lia).
  replace (97 <=? code l) with false by (symmetry; apply Z.leb_gt; lia).
  replace (code l <=? 13) with false by (symmetry; apply Z.leb_gt; lia).
  replace (code l =? 32) with false by (symmetry; apply Z.eqb_neq; lia).
  replace (code l =? 36) with false by (symmetry; apply Z.eqb_neq; lia).
  rewrite andb_false_r. repeat split.
Qed.

(** What a digit is not. *)
Lemma digit_facts :
  forall d : ascii,
    isDigit d = true ->
    isLetter d = false /\ (code d =? 36) = false.
Proof.
  intros d H. unfold isDigit in H. apply andb_true_iff in H. destruct H as [H1 H2].
  apply Z.leb_le in H1, H2. unfold isLetter, isUpper, isLower.
  replace (65 <=? code d) with false by (symmetry; apply Z.leb_gt; lia).
  replace (97 <=? code d) with false by (symmetry; apply Z.leb_gt; lia).
  replace (code d =? 36) with false by (symmetry; apply Z.eqb_neq; lia).
  repeat split.
Qed.

(** [parseReference] on a one-letter column, a row in digits and any
    absolute markers. *)
Lemma parseReference_canonical :
  forall (l : ascii) (digits : string) (colAbs rowAbs : bool),
    65 <= code l <= 90 ->
    digits <> "" ->
    allChars isDigit digits = true ->
    let text := (if colAbs then "$" else "") ++ String l ""
                ++ (if rowAbs then "$" else "") ++ digits in
    parseReference text
    = Some (mkReference (code l - 65) (parseDigits digits) colAbs rowAbs text).
Proof.
  intros l digits colAbs rowAbs Hl Hne Hd text.
  destruct (upper_letter_facts l Hl) as (Hletter & Hlower & Hwhite & Hdollar).
  destruct digits as [|d0 ds]; [contradiction|].
  pose proof Hd as Hd0. cbn [allChars] in Hd0.
  apply andb_true_iff in Hd0. destruct Hd0 as [Hd0 _].
  destruct (digit_facts d0 Hd0) as (Hd0letter & Hd0dollar).
  pose proof (digits_no_white _ Hd) as Hdw.
  assert (allChars (fun c => negb (isWhite c)) text = true) as Htw.
  { subst text. destruct colAbs, rowAbs; cbn [append allChars];
      rewrite ?Hwhite; cbn [negb andb];
      try (change (isWhite "$") with false; cbn [negb andb]); exact Hdw. }
  unfold parseReference.
  rewrite (trim_no_white text Htw).
  assert (String.eqb text "" = false) as -> by (subst text; destruct colAbs; reflexivity).
  assert (upperChar l = l) as Hup by (unfold upperChar; now rewrite Hlower).
  subst text.
  destruct colAbs, rowAbs; cbn [append];
    rewrite !startsWith_dollar;
    rewrite ?Hdollar; try (change (code "$" =? 36) with true);
    cbv iota; cbn [substring_from drop span fst];
    rewrite Hletter;
    rewrite ?Hd0letter; try (change (isLetter "$") with false);
    cbv iota; cbn [fst toUpperCase mapChars String.length substring_from drop];
    rewrite ?startsWith_dollar, ?Hd0dollar; try (change (code "$" =? 36) with true);
    cbv iota; cbn [substring_from drop];
    rewrite Hd, Hup;
    unfold columnIndexOf; reflexivity.
Qed.

(** X15: the text of an Address with a one-letter column (index 0 to 25)
    and a natural row, with or without absolute markers, is read back by
    [parseReference] as the same Address. *)
Theorem decode_encode_one_letter :
  forall a : Address,
    0 <= column a < 26 ->
    0 <= addrRow a ->
    decode (encode a) = Some a.
Proof.
  intros [col r colAbs rowAbs] Hc Hr. cbn [column addrRow] in Hc, Hr.
  unfold decode, encode. cbn [column addrRow columnAbsolute rowAbsolute_].
  destruct (ofInt_digits r Hr) as (Hd & Hne & Hv).
  assert (indexToColumnLetter col = fromCharCode (65 + col)) as ->.
  { unfold indexToColumnLetter.
    replace (Z.to_nat (col + 1)) with (S (Z.to_nat col)) by lia.
    cbn [indexToColumnLetterLoop].
    replace (0 <? col + 1) with true by (symmetry; apply Z.ltb_lt; lia).
    replace (col + 1 - 1) with col by lia.
    rewrite Z.mod_small, Z.div_small by lia.
    destruct (Z.to_nat col); cbn [indexToColumnLetterLoop Z.ltb Z.compare];
      apply append_nil_r. }
  destruct (code_fromCharCode (65 + col)) as (l & -> & Hl); [lia|].
  rewrite (parseReference_canonical l (ofInt r) colAbs rowAbs); try assumption; [|lia].
  cbn [colIndex row colAbsolute rowAbsolute].
  rewrite Hv, Hl. f_equal. f_equal. lia.
Qed.

Lemma decode_encode_one_letter_witness :
  0 <= column (mkAddress 25 100 true false) < 26
  /\ 0 <= addrRow (mkAddress 25 100 true false)
  /\ encode (mkAddress 25 100 true false) = "$Z100"
  /\ decode (encode (mkAddress 25 100 true false)) = Some (mkAddress 25 100 true false).
Proof.
  split; [cbn; lia|]. split; [cbn; lia|]. split; [reflexivity|].
  apply (decode_encode_one_letter (mkAddress 25 100 true false)); cbn; lia.
Defined.

(** ** Cell ids *)

Lemma span_all :
  forall (p : ascii -> bool) (a b : string),
    allChars p a = true ->
    match b with
    | EmptyString => True
    | String c _ => p c = false
    end ->
    span p (a ++ b) = (a, b).
Proof.
  induction a as [|x a IH]; intros b Ha Hb.
  - destruct b as [|c b]; [reflexivity|]. cbn [append span]. now rewrite Hb.
  - cbn [allChars] in Ha. apply andb_true_iff in Ha. destruct Ha as [Hx Ha].
    cbn [append span]. rewrite Hx, (IH b Ha Hb). reflexivity.
Qed.

Lemma firstRun_here :
  forall (p : ascii -> bool) (c : ascii) (t : string),
    p c = true -> firstRun p (String c t) = Some (fst (span p (String c t))).
Proof.
  intros p c t H. cbn [firstRun]. now rewrite H.
Qed.

Lemma firstRun_skip :
  forall (p : ascii -> bool) (a b : string),
    allChars (fun c => negb (p c)) a = true ->
    firstRun p (a ++ b) = firstRun p b.
Proof.
  induction a as [|x a IH]; intros b H; [reflexivity|].
  cbn [allChars] in H. apply andb_true_iff in H. destruct H as [Hx Ha].
  apply negb_true_iff in Hx. cbn [append firstRun]. rewrite Hx. now apply IH.
Qed.

Lemma upper_not_digit :
  forall s, upperLetters s = true -> allChars (fun c => negb (isDigit c)) s = true.
Proof.
  unfold upperLetters.
  induction s as [|c s IH]; intros H; [reflexivity|].
  cbn [allChars] in *. apply andb_true_iff in H. destruct H as [Hc Hs].
  rewrite (IH Hs), andb_true_r.
  unfold isUpper in Hc. apply andb_true_iff in Hc. destruct Hc as [H1 H2].
  apply Z.leb_le in H1, H2. unfold isDigit. apply negb_true_iff.
  replace (code c <=? 57) with false by (symmetry; apply Z.leb_gt; lia).
  now rewrite andb_false_r.
Qed.

Lemma digit_not_upper :
  forall c, isDigit c = true -> isUpper c = false.
Proof.
  intros c H. unfold isDigit in H. apply andb_true_iff in H. destruct H as [H1 H2].
  apply Z.leb_le in H1, H2. unfold isUpper.
  now replace (65 <=? code c) with false by (symmetry; apply Z.leb_gt; lia).
Qed.

(** The column and the row that the store reads from an id made of
    upper-case letters and digits. *)
Lemma cellColumn_cellRow_canonical :
  forall (letters digits : string),
    letters <> "" -> upperLetters letters = true ->
    digits <> "" -> allChars isDigit digits = true ->
    cellColumn (letters ++ digits) = columnLetterToIndex letters
    /\ cellRow (letters ++ digits) = parseDigits digits.
Proof.
  intros letters digits Hl Hu Hd Hdig.
  unfold cellColumn, cellRow.
  destruct digits as [|d0 ds]; [contradiction|].
  pose proof Hdig as Hd0. cbn [allChars] in Hd0.
  apply andb_true_iff in Hd0. destruct Hd0 as [Hd0 _].
  split.
  - destruct letters as [|l0 ls]; [contradiction|].
    pose proof Hu as Hl0. unfold upperLetters in Hl0. cbn [allChars] in Hl0.
    apply andb_true_iff in Hl0. destruct Hl0 as [Hl0 _].
    change (String l0 ls ++ String d0 ds) with (String l0 (ls ++ String d0 ds)).
    rewrite firstRun_here by exact Hl0.
    change (String l0 (ls ++ String d0 ds)) with (String l0 ls ++ String d0 ds).
    rewrite span_all; [reflexivity|exact Hu|].
    now apply digit_not_upper.
  - rewrite firstRun_skip by (now apply upper_not_digit).
    rewrite firstRun_here by exact Hd0.
    rewrite <- (append_nil_r (String d0 ds)) at 1.
    rewrite span_all; [reflexivity|exact Hdig|exact I].
Qed.

(** The column and the row of an id that [createCellId] makes. *)
Lemma cellId_parse :
  forall col row : Z,
    0 <= col -> 0 <= row ->
    cellColumn (createCellId row (ColIndex col)) = col
    /\ cellRow (createCellId row (ColIndex col)) = row.
Proof.
  intros col row Hc Hr. unfold createCellId.
  destruct (indexToColumnLetter_letters col Hc) as (Hv & Hu & Hne).
  destruct (ofInt_digits row Hr) as (Hd & Hdne & Hp).
  destruct (cellColumn_cellRow_canonical _ _ Hne Hu Hdne Hd) as [-> ->].
  split; [|exact Hp].
  rewrite columnLetterToIndex_letterValue, Hv. lia.
Qed.

(** X16: the id that [createCellId] makes for a column index and a row is
    read back by the store (the letter run as the column, the digit run
    as the row) as the same column and row, so two ids are equal only for
    the same cell. *)
Theorem cellId_round_trip :
  forall col row : Z,
    0 <= col -> 0 <= row ->
    cellColumn (createCellId row (ColIndex col)) = col
    /\ cellRow (createCellId row (ColIndex col)) = row
    /\ parseCellId (createCellId row (ColIndex col))
       = Some (row, indexToColumnLetter col)
    /\ (forall col' row',
          0 <= col' -> 0 <= row' ->
          createCellId row' (ColIndex col') = createCellId row (ColIndex col) ->
          col' = col /\ row' = row).
Proof.
  pose proof cellId_parse as Hparse.
  intros col row Hc Hr.
  destruct (Hparse col row Hc Hr) as [H1 H2].
  split; [exact H1|]. split; [exact H2|]. split.
  - unfold parseCellId, createCellId.
    destruct (indexToColumnLetter_letters col Hc) as (Hv & Hu & Hne).
    destruct (ofInt_digits row Hr) as (Hd & Hdne & Hp).
    destruct (indexToColumnLetter col) as [|l0 ls] eqn:El; [contradiction|].
    destruct (ofInt row) as [|d0 ds] eqn:Ed; [contradiction|].
    pose proof Hu as Hl0. unfold upperLetters in Hl0. cbn [allChars] in Hl0.
    apply andb_true_iff in Hl0. destruct Hl0 as [Hl0 _].
    pose proof Hd as Hd0. cbn [allChars] in Hd0.
    apply andb_true_iff in Hd0. destruct Hd0 as [Hd0 _].
    rewrite (firstRun_skip isDigit) by (now apply upper_not_digit).
    rewrite (firstRun_here isDigit) by exact Hd0.
    change (String l0 ls ++ String d0 ds) with (String l0 (ls ++ String d0 ds)).
    rewrite firstRun_here by exact Hl0.
    change (String l0 (ls ++ String d0 ds)) with (String l0 ls ++ String d0 ds).
    rewrite span_all; [|exact Hu|now apply digit_not_upper].
    rewrite <- (append_nil_r (String d0 ds)) at 1.
    rewrite span_all; [|exact Hd|exact I].
    cbn [fst]. now rewrite Hp.
  - intros col' row' Hc' Hr' E.
    destruct (Hparse col' row' Hc' Hr') as [H1' H2'].
    rewrite E in H1', H2'. split; congruence.
Qed.

Lemma cellId_round_trip_witness :
  0 <= 27 /\ 0 <= 12
  /\ createCellId 12 (ColIndex 27) = "AB12"
  /\ cellColumn (createCellId 12 (ColIndex 27)) = 27.
Proof.
  split; [lia|]. split; [lia|]. split; [reflexivity|].
  apply (cellId_round_trip 27 12); lia.
Defined.

(** The destination of the cell at [(col, row)] is the cell moved by the
    two offsets, when that is inside the grid. *)
Lemma destination_cellIdAt :
  forall (state : SheetState) (colOffset rowOffset col row : Z),
    0 <= col -> 0 <= row ->
    destination state colOffset rowOffset (cellIdAt col row)
    = if inGrid state (col + colOffset) (row + rowOffset)
      then Some (cellIdAt (col + colOffset) (row + rowOffset))
      else None.
Proof.
  intros state co ro col row Hc Hr.
  unfold destination, inGrid.
  unfold cellIdAt in *. destruct (cellId_parse col row Hc Hr) as [-> ->].
  destruct (_ || _); reflexivity.
Qed.

Lemma inGrid_nonneg :
  forall state col row, inGrid state col row = true -> 0 <= col /\ 0 < row.
Proof.
  unfold inGrid. intros state col row H.
  apply negb_true_iff in H.
  apply orb_false_iff in H. destruct H as [H Hr2].
  apply orb_false_iff in H. destruct H as [H Hr1].
  apply orb_false_iff in H. destruct H as [Hc1 Hc2].
  apply Z.ltb_ge in Hc1. apply Z.leb_gt in Hr1. lia.
Qed.

(** X17: pasting a well-formed snapshot moves every cell by the offset
    between the target and the snapshot's top-left corner: the cell
    snapshotted at column [col] and row [row] is found at column
    [col + (targetCol - sourceCol)] and row [row + (targetRow -
    sourceRow)] whenever that place is inside the grid. *)
Theorem pasteCells_translates :
  forall (st : SheetState) (clip : ClipboardData)
         (targetCol targetRow sourceCol sourceRow col row : Z) (cellData : CellData),
    clipboard st = Some clip ->
    wellFormedSnapshot (clip_cells clip) ->
    topLeft clip = cellIdAt sourceCol sourceRow ->
    0 <= sourceCol -> 0 <= sourceRow -> 0 <= targetCol -> 0 <= targetRow ->
    0 <= col -> 0 <= row ->
    In (cellIdAt col row, cellData) (clip_cells clip) ->
    inGrid st (col + (targetCol - sourceCol)) (row + (targetRow - sourceRow)) = true ->
    get (cells (pasteCells (cellIdAt targetCol targetRow) st))
        (cellIdAt (col + (targetCol - sourceCol)) (row + (targetRow - sourceRow)))
    = Some cellData.
Proof.
  intros st clip tc tr sc sr col row cellData Hclip [Hnd Hwf] Htl Hsc Hsr Htc Htr Hc Hr
         Hin Hgrid.
  assert (clipboard (saveState st) = Some clip) as Hclip' by exact Hclip.
  unfold pasteCells. rewrite Hclip'. cbn [cells setCells].
  rewrite Htl.
  destruct (cellId_parse tc tr Htc Htr) as [Etc Etr].
  destruct (cellId_parse sc sr Hsc Hsr) as [Esc Esr].
  unfold cellIdAt at 1 2 3 4. rewrite Etc, Etr, Esc, Esr.
  destruct (in_split _ _ Hin) as (before & after & Hsplit).
  rewrite Hsplit.
  apply paste_written.
  - rewrite destination_cellIdAt by assumption.
    change (inGrid (saveState st)) with (inGrid st). now rewrite Hgrid.
  - intros [k d] Hk Hdest. cbn [fst] in Hdest.
    rewrite Hsplit, map_app in Hnd. cbn [map fst] in Hnd.
    apply NoDup_remove_2 in Hnd.
    destruct (Hwf k) as (c' & r' & Hc' & Hr' & ->).
    { rewrite Hsplit. apply in_map_iff. exists (k, d). split; [reflexivity|].
      apply in_or_app. right. right. exact Hk. }
    rewrite destination_cellIdAt in Hdest by assumption.
    destruct (inGrid (saveState st) (c' + (tc - sc)) (r' + (tr - sr))) eqn:Eg;
      [|discriminate].
    injection Hdest as Hdest.
    destruct (inGrid_nonneg _ _ _ Eg) as [G1 G2].
    destruct (inGrid_nonneg _ _ _ Hgrid) as [G3 G4].
    assert (c' + (tc - sc) = col + (tc - sc) /\ r' + (tr - sr) = row + (tr - sr)) as [E1 E2].
    { pose proof (cellId_parse (c' + (tc - sc)) (r' + (tr - sr)) G1 ltac:(lia)) as [P1 P2].
      pose proof (cellId_parse (col + (tc - sc)) (row + (tr - sr)) G3 ltac:(lia)) as [Q1 Q2].
      unfold cellIdAt in Hdest. rewrite Hdest in P1, P2. split; congruence. }
    apply Hnd. apply in_or_app. right.
    apply in_map_iff. exists (cellIdAt c' r', d). split; [|exact Hk].
    cbn [fst]. f_equal; lia.
Qed.

Lemma pasteCells_translates_witness :
  getCellValue (cells (pasteCells (cellIdAt 3 4) (copySelectedCells sparseGrid)))
    (cellIdAt (1 + (3 - 0)) (1 + (4 - 1)))
  = "2".
Proof.
  assert (exists clip,
             clipboard (copySelectedCells sparseGrid) = Some clip
             /\ wellFormedSnapshot (clip_cells clip)
             /\ topLeft clip = cellIdAt 0 1
             /\ In (cellIdAt 1 1, mergeCell createEmptyCell (typed "2")) (clip_cells clip))
    as (clip & Hclip & Hwf & Htl & Hin).
  { eexists. split; [vm_compute; reflexivity|].
    cbn [clip_cells topLeft].
    split; [split|split].
    - repeat constructor; cbn [In]; intuition discriminate.
    - intros k Hk. cbn [map fst In] in Hk.
      destruct Hk as [<-|[<-|[<-|[]]]];
        [exists 0, 1|exists 1, 1|exists 0, 2]; repeat split; lia.
    - reflexivity.
    - right. left. reflexivity. }
  unfold getCellValue.
  rewrite (pasteCells_translates (copySelectedCells sparseGrid) clip 3 4 0 1 1 1
             (mergeCell createEmptyCell (typed "2")) Hclip Hwf Htl);
    try lia; try exact Hin; reflexivity.
Defined.

(** ** More on the formula evaluator *)

Ltac call_branch name n :=
  intros;
  unfold evaluateFormula;
  match goal with
  | |- context [startsWith ?f "="] =>
      change (startsWith f "=") with true
  end;
  cbn [negb];
  match goal with
  | |- context [substring_from 1 (?p ++ ?b ++ ")")] =>
      change (substring_from 1 (p ++ b ++ ")")) with (name ++ b ++ ")")
  end;
  rewrite !toUpperCase_app;
  change (toUpperCase name) with name;
  change (toUpperCase ")") with ")";
  match goal with
  | |- context [name ++ ?B ++ ")"] =>
      let Hs := fresh "Hs" in
      pose proof (slice_call name B n ltac:(simpl; lia)) as Hs;
      cbn [Z.of_nat Pos.of_succ_nat Pos.succ drop] in Hs;
      rewrite Hs;
      rewrite (startsWith_app name (B ++ ")"))
        || (reduce_tests; rewrite (startsWith_app name (B ++ ")")))
  end;
  reduce_tests;
  reflexivity.

(** X18: in the eight branches whose [slice] starts at the length of the
    function name, the argument is the text between the parentheses in
    upper case: the five range functions evaluate over
    [parseRange] of it and the three text functions look up the cell of
    that name.  Function names and references are thereby
    case-insensitive. *)
Theorem evaluateFormula_argument :
  forall (body : string) (getCellValue : string -> string),
    evaluateFormula ("=SUM(" ++ body ++ ")") getCellValue
    = toString (sumValues (numericValues getCellValue (parseRange (toUpperCase body) None)))
    /\ evaluateFormula ("=AVERAGE(" ++ body ++ ")") getCellValue
       = (let values := numericValues getCellValue (parseRange (toUpperCase body) None) in
          toString (div (sumValues values) (lengthOf values)))
    /\ evaluateFormula ("=MAX(" ++ body ++ ")") getCellValue
       = toString (Math_max (map Number
            (numericValues getCellValue (parseRange (toUpperCase body) None))))
    /\ evaluateFormula ("=MIN(" ++ body ++ ")") getCellValue
       = toString (Math_min (map Number
            (numericValues getCellValue (parseRange (toUpperCase body) None))))
    /\ evaluateFormula ("=COUNT(" ++ body ++ ")") getCellValue
       = toString (lengthOf (numericValues getCellValue (parseRange (toUpperCase body) None)))
    /\ evaluateFormula ("=TRIM(" ++ body ++ ")") getCellValue
       = trim (getCellValue (toUpperCase body))
    /\ evaluateFormula ("=UPPER(" ++ body ++ ")") getCellValue
       = toUpperCase (getCellValue (toUpperCase body))
    /\ evaluateFormula ("=LOWER(" ++ body ++ ")") getCellValue
       = toLowerCase (getCellValue (toUpperCase body)).
Proof.
  intros body g.
  split; [call_branch "SUM(" 4%nat|].
  split; [call_branch "AVERAGE(" 8%nat|].
  split; [call_branch "MAX(" 4%nat|].
  split; [call_branch "MIN(" 4%nat|].
  split; [call_branch "COUNT(" 6%nat|].
  split; [call_branch "TRIM(" 5%nat|].
  split; [call_branch "UPPER(" 6%nat|].
  call_branch "LOWER(" 6%nat.
Qed.

Lemma code_ascii_of :
  forall n, 0 <= n < 256 -> code (ascii_of_N (Z.to_N n)) = n.
Proof.
  intros n H. unfold code. rewrite N_ascii_embedding.
  - apply Z2N.id. lia.
  - change 256%N with (Z.to_N 256). apply Z2N.inj_lt; lia.
Qed.

Lemma code_bounded : forall c, 0 <= code c < 256.
Proof.
  intros c. unfold code. pose proof (N_ascii_bounded c). lia.
Qed.

Lemma upperChar_idempotent : forall c, upperChar (upperChar c) = upperChar c.
Proof.
  intros c. unfold upperChar at 2 3.
  destruct (isLower c) eqn:E.
  - unfold isLower in E. apply andb_true_iff in E. destruct E as [H1 H2].
    apply Z.leb_le in H1, H2.
    unfold upperChar, isLower. rewrite code_ascii_of by lia.
    now replace (97 <=? code c - 32) with false by (symmetry; apply Z.leb_gt; lia).
  - unfold upperChar. now rewrite E.
Qed.

(** Upper-casing twice is upper-casing once. *)
Lemma toUpperCase_idempotent : forall s, toUpperCase (toUpperCase s) = toUpperCase s.
Proof.
  unfold toUpperCase.
  induction s as [|c s IH]; cbn [mapChars]; [reflexivity|].
  now rewrite upperChar_idempotent, IH.
Qed.

(** X19: a recognized formula evaluates as its upper-case form does:
    neither the case of the function name nor that of the references
    matters. *)
Theorem evaluateFormula_case_insensitive :
  forall (formula : string) (getCellValue : string -> string),
    recognized formula = true ->
    evaluateFormula formula getCellValue
    = evaluateFormula (toUpperCase formula) getCellValue.
Proof.
  intros formula g H.
  unfold recognized in H. apply andb_true_iff in H. destruct H as [Heq Hrec].
  pose proof (startsWith_split _ _ Heq) as E.
  cbn [String.length drop append] in E.
  destruct formula as [|c rest]; [discriminate|].
  cbn [drop] in E. injection E as ->.
  unfold cleanOf in Hrec. cbn [substring_from drop] in Hrec.
  unfold evaluateFormula.
  change (toUpperCase (String "=" rest)) with (String "=" (toUpperCase rest)).
  change (startsWith (String "=" rest) "=") with (String.prefix "" rest).
  change (startsWith (String "=" (toUpperCase rest)) "=")
    with (String.prefix "" (toUpperCase rest)).
  rewrite !prefix_nil. cbn [negb substring_from drop].
  rewrite toUpperCase_idempotent.
  set (clean := toUpperCase rest) in *.
  cbn [existsb functionNames] in Hrec.
  repeat match goal with
         | |- context [startsWith clean ?p] =>
             let T := fresh "T" in
             destruct (startsWith clean p) eqn:T; [reflexivity|]
         end.
  discriminate Hrec.
Qed.

Lemma evaluateFormula_case_insensitive_witness :
  recognized "=sum(a1:a2)" = true
  /\ evaluateFormula "=sum(a1:a2)" (fun ref => if String.eqb ref "A1" then "2" else "3")
     = "5".
Proof.
  split; [reflexivity|].
  rewrite (evaluateFormula_case_insensitive "=sum(a1:a2)"); reflexivity.
Defined.

(** ** Ranges *)


Lemma split_no_separator :
  forall (sep : ascii) (s : string),
    allChars (fun c => negb (Ascii.eqb c sep)) s = true -> split sep s = [s].
Proof.
  induction s as [|c s IH]; intros H; [reflexivity|].
  cbn [allChars] in H. apply andb_true_iff in H. destruct H as [Hc Hs].
  apply negb_true_iff in Hc. cbn [split]. rewrite Hc, (IH Hs). reflexivity.
Qed.

Lemma split_at_separator :
  forall (sep : ascii) (a b : string),
    allChars (fun c => negb (Ascii.eqb c sep)) a = true ->
    split sep (a ++ String sep b) = a :: split sep b.
Proof.
  induction a as [|c a IH]; intros b H.
  - cbn [append split]. now rewrite Ascii.eqb_refl.
  - cbn [allChars] in H. apply andb_true_iff in H. destruct H as [Hc Ha].
    apply negb_true_iff in Hc. cbn [append split]. rewrite Hc, (IH b Ha). reflexivity.
Qed.





(** ** CSV export and import *)

Lemma isChar_eq :
  forall n c, 0 <= n < 256 -> isChar n c = true -> c = ascii_of_N (Z.to_N n).
Proof.
  intros n c Hn H. unfold isChar in H. apply Z.eqb_eq in H.
  subst n. unfold code. rewrite N2Z.id. now rewrite ascii_N_embedding.
Qed.

Lemma pushChar_append :
  forall cur c v, (Functions.pushChar cur c ++ v)%string = (cur ++ String c v)%string.
Proof.
  intros cur c v. unfold Functions.pushChar.
  induction cur as [|d cur IH]; cbn [append]; [reflexivity|now rewrite IH].
Qed.

(** An unquoted field is read character by character. *)
Lemma csvLoop_plain :
  forall v vs cur rest,
    includesChar "," v = false ->
    includesChar (ascii_of_N 34) v = false ->
    csvLoop (mkCsv vs cur false) false (v ++ rest)
    = csvLoop (mkCsv vs (cur ++ v) false) false rest.
Proof.
  induction v as [|c v IH]; intros vs cur rest Hc Hq.
  - cbn [append]. now rewrite append_nil_r.
  - cbn [includesChar] in Hc, Hq.
    apply orb_false_iff in Hc. destruct Hc as [Hc1 Hc2].
    apply orb_false_iff in Hq. destruct Hq as [Hq1 Hq2].
    cbn [append csvLoop].
    assert (isChar 34 c = false) as E1.
    { destruct (isChar 34 c) eqn:E; [|reflexivity].
      apply isChar_eq in E; [|lia]. subst c. discriminate Hq1. }
    assert (isChar 44 c = false) as E2.
    { destruct (isChar 44 c) eqn:E; [|reflexivity].
      apply isChar_eq in E; [|lia]. subst c. discriminate Hc1. }
    rewrite E1, E2. cbn [andb SheetStore.values currentValue SheetStore.inQuotes].
    rewrite (IH _ _ _ Hc2 Hq2), pushChar_append. reflexivity.
Qed.

(** Inside quotes, the doubled quotes of the value are read as one each,
    up to the closing quote. *)
Lemma csvLoop_quoted :
  forall v vs cur rest,
    startsWith rest doubleQuote = false ->
    csvLoop (mkCsv vs cur true) false (doubleQuotes v ++ doubleQuote ++ rest)
    = csvLoop (mkCsv vs (cur ++ v) false) false rest.
Proof.
  induction v as [|c v IH]; intros vs cur rest Hr.
  - cbn [doubleQuotes append doubleQuote csvLoop].
    change (isChar 34 (ascii_of_N 34)) with true. cbv iota.
    cbn [SheetStore.values currentValue SheetStore.inQuotes andb negb].
    rewrite Hr. now rewrite append_nil_r.
  - cbn [doubleQuotes]. destruct (isChar 34 c) eqn:E.
    + cbn [append csvLoop]. rewrite E.
      cbn [SheetStore.values currentValue SheetStore.inQuotes andb negb].
      pose proof (isChar_eq 34 c ltac:(lia) E) as ->.
      assert (forall x, startsWith (String (ascii_of_N (Z.to_N 34)) x) doubleQuote = true) as Hs.
      { intros x. unfold startsWith, doubleQuote. cbn. now destruct x. }
      rewrite Hs. rewrite (IH _ _ _ Hr), pushChar_append. reflexivity.
    + cbn [append csvLoop]. rewrite E.
      cbn [SheetStore.values currentValue SheetStore.inQuotes andb negb].
      rewrite andb_false_r.
      rewrite (IH _ _ _ Hr), pushChar_append. reflexivity.
Qed.

(** One formatted field, followed by text that does not start with a quote. *)
Lemma csvLoop_formatValue :
  forall v vs rest,
    startsWith rest doubleQuote = false ->
    csvLoop (mkCsv vs "" false) false (formatValue v ++ rest)
    = csvLoop (mkCsv vs v false) false rest.
Proof.
  intros v vs rest Hr. unfold formatValue.
  destruct (includesChar "," v || includesChar (ascii_of_N 34) v) eqn:E.
  - rewrite !append_assoc_string.
    change (doubleQuote ++ (doubleQuotes v ++ doubleQuote ++ rest))%string
      with (String (ascii_of_N 34) (doubleQuotes v ++ doubleQuote ++ rest)).
    cbn [csvLoop]. change (isChar 34 (ascii_of_N 34)) with true. cbv iota.
    cbn [SheetStore.values currentValue SheetStore.inQuotes andb negb].
    now rewrite (csvLoop_quoted v vs "" rest Hr).
  - apply orb_false_iff in E. destruct E as [Hc Hq].
    now rewrite (csvLoop_plain v vs "" rest Hc Hq).
Qed.

(** A row of formatted fields is read back as the fields. *)
Lemma csvLoop_row :
  forall l v vs,
    csvLoop (mkCsv vs "" false) false (join "," (map formatValue (v :: l)))
    = mkCsv (vs ++ removelast (v :: l)) (last (v :: l) "") false.
Proof.
  induction l as [|w l IH]; intros v vs.
  - cbn [map join removelast last].
    rewrite <- (append_nil_r (formatValue v)).
    rewrite csvLoop_formatValue by reflexivity.
    cbn [csvLoop]. now rewrite app_nil_r.
  - change (join "," (map formatValue (v :: w :: l)))
      with (formatValue v ++ String "," (join "," (map formatValue (w :: l))))%string.
    rewrite csvLoop_formatValue by reflexivity.
    cbn [csvLoop]. change (isChar 34 ",") with false. change (isChar 44 ",") with true.
    cbv iota. cbn [SheetStore.values currentValue SheetStore.inQuotes andb negb].
    rewrite IH. rewrite <- app_assoc. reflexivity.
Qed.

Lemma csvValues_row :
  forall l, l <> [] -> csvValues (join "," (map formatValue l)) = l.
Proof.
  intros [|v l] H; [contradiction|].
  unfold csvValues. rewrite csvLoop_row.
  cbn [SheetStore.values currentValue]. rewrite app_nil_l.
  symmetry. apply app_removelast_last. discriminate.
Qed.

Lemma exportBounds_nonneg :
  forall cells, 0 <= fst (exportBounds cells) /\ 0 <= snd (exportBounds cells).
Proof.
  intros cells. unfold exportBounds.
  assert (forall ks acc, 0 <= fst acc /\ 0 <= snd acc ->
            0 <= fst (fold_left
              (fun (acc : Z * Z) (id : string) =>
                 let '(maxRow, maxCol) := acc in
                 let colNum := cellColumn id in
                 let rowNum := cellRow id in
                 (if maxRow <? rowNum then rowNum else maxRow,
                  if maxCol <? colNum then colNum else maxCol)) ks acc)
            /\ 0 <= snd (fold_left
              (fun (acc : Z * Z) (id : string) =>
                 let '(maxRow, maxCol) := acc in
                 let colNum := cellColumn id in
                 let rowNum := cellRow id in
                 (if maxRow <? rowNum then rowNum else maxRow,
                  if maxCol <? colNum then colNum else maxCol)) ks acc)) as H.
  { induction ks as [|k ks IH]; intros [r c] [Hr Hc]; [now split|].
    cbn [fold_left]. apply IH. cbn [fst snd] in *.
    destruct (r <? cellRow k) eqn:E1; destruct (c <? cellColumn k) eqn:E2;
      cbn [fst snd]; try apply Z.ltb_lt in E1; try apply Z.ltb_lt in E2; lia. }
  apply H. cbn. lia.
Qed.

Lemma upto_nonempty : forall lo hi, lo <= hi -> Functions.upto lo hi <> [].
Proof.
  intros lo hi H. unfold Functions.upto.
  replace (Z.to_nat (hi - lo + 1)) with (S (Z.to_nat (hi - lo))) by lia.
  cbn [seq map]. discriminate.
Qed.

(** X21: every row of the exported text is read back by the line parser
    of [importFromCSV] as the values of the row's cells, from column A to
    the last used column: commas and quotes inside a value survive the
    quoting of [exportToCSV]. *)
Theorem exportRow_parsed_back :
  forall (cells : obj CellData) (row : Z),
    csvValues (exportRow cells (snd (exportBounds cells)) row)
    = map (fun col => getCellValue cells (indexToColumnLetter col ++ ofInt row))
          (Functions.upto 0 (snd (exportBounds cells))).
Proof.
  intros cells row. unfold exportRow.
  rewrite <- (map_map (fun col => getCellValue cells (indexToColumnLetter col ++ ofInt row))
                      formatValue).
  apply csvValues_row.
  intros H. apply map_eq_nil in H. revert H. apply upto_nonempty.
  apply exportBounds_nonneg.
Qed.

(** *** Where the imported fields go *)

Lemma cellIdAt_inj :
  forall c r c' r',
    0 <= c -> 0 <= r -> 0 <= c' -> 0 <= r' ->
    cellIdAt c r = cellIdAt c' r' -> c = c' /\ r = r'.
Proof.
  intros c r c' r' Hc Hr Hc' Hr' E. unfold cellIdAt in E.
  destruct (cellId_parse c r Hc Hr) as [E1 E2].
  destruct (cellId_parse c' r' Hc' Hr') as [E3 E4].
  rewrite E in E1, E2. split; congruence.
Qed.

Lemma importValue_fold_other :
  forall (rowIndex : Z) (xs : list string) (s : nat) (acc : ImportAcc) (key : string),
    (forall c, Z.of_nat s <= c -> key <> cellIdAt c (rowIndex + 1)) ->
    get (fst (fst (fold_left (importValue rowIndex)
                     (combine (map Z.of_nat (seq s (List.length xs))) xs) acc))) key
    = get (fst (fst acc)) key.
Proof.
  induction xs as [|x xs IH]; intros s acc key H; [reflexivity|].
  cbn [List.length seq map combine fold_left].
  rewrite IH by (intros c Hc; apply H; lia).
  destruct acc as [[nc mr] mc]. cbn [importValue fst].
  apply get_set_other. intros E. apply (H (Z.of_nat s)); [lia|]. now symmetry.
Qed.

Lemma importValue_fold_hit :
  forall (rowIndex : Z) (xs : list string) (s : nat) (acc : ImportAcc) (j : nat) (v : string),
    0 <= rowIndex + 1 ->
    nth_error xs j = Some v ->
    get (fst (fst (fold_left (importValue rowIndex)
                     (combine (map Z.of_nat (seq s (List.length xs))) xs) acc)))
        (cellIdAt (Z.of_nat (s + j)) (rowIndex + 1))
    = Some (importedCell v).
Proof.
  induction xs as [|x xs IH]; intros s acc j v Hr Hj; [now destruct j|].
  cbn [List.length seq map combine fold_left].
  destruct j as [|j].
  - cbn [nth_error] in Hj. injection Hj as ->.
    rewrite importValue_fold_other.
    + destruct acc as [[nc mr] mc]. cbn [importValue fst].
      replace (s + 0)%nat with s by lia. apply get_set_same.
    + intros c Hc E. apply cellIdAt_inj in E; lia.
  - cbn [nth_error] in Hj.
    replace (s + S j)%nat with (S s + j)%nat by lia. now apply IH.
Qed.

Lemma importLine_fold_other :
  forall (lines : list string) (s : nat) (acc : ImportAcc) (key : string),
    (forall i line c,
        nth_error lines i = Some line -> trim line <> "" -> 0 <= c ->
        key <> cellIdAt c (Z.of_nat (s + i) + 1)) ->
    get (fst (fst (fold_left importLine
                     (combine (map Z.of_nat (seq s (List.length lines))) lines) acc))) key
    = get (fst (fst acc)) key.
Proof.
  induction lines as [|l lines IH]; intros s acc key H; [reflexivity|].
  cbn [List.length seq map combine fold_left].
  rewrite IH.
  - destruct acc as [[nc mr] mc]. cbn [importLine].
    destruct (String.eqb (trim l) "") eqn:E; [reflexivity|].
    apply String.eqb_neq in E.
    pose proof (importValue_fold_other (Z.of_nat s) (csvValues l) 0 (nc, mr, mc) key) as P.
    unfold indexed.
    destruct (fold_left _ _ _) as [[nc' mr'] mc']. cbn [fst] in *.
    apply P. intros c Hc. specialize (H 0%nat l c eq_refl E ltac:(lia)).
    now replace (s + 0)%nat with s in H by lia.
  - intros i line c Hi Hl Hc.
    replace (S s + i)%nat with (s + S i)%nat by lia.
    now apply (H (S i) line c).
Qed.

Lemma importLine_fold_hit :
  forall (lines : list string) (s : nat) (acc : ImportAcc) (i : nat) (line : string)
         (j : nat) (v : string),
    nth_error lines i = Some line ->
    trim line <> "" ->
    nth_error (csvValues line) j = Some v ->
    get (fst (fst (fold_left importLine
                     (combine (map Z.of_nat (seq s (List.length lines))) lines) acc)))
        (cellIdAt (Z.of_nat j) (Z.of_nat (s + i) + 1))
    = Some (importedCell v).
Proof.
  induction lines as [|l lines IH]; intros s acc i line j v Hi Hl Hj; [now destruct i|].
  cbn [List.length seq map combine fold_left].
  destruct i as [|i].
  - cbn [nth_error] in Hi. injection Hi as ->.
    rewrite importLine_fold_other.
    + destruct acc as [[nc mr] mc]. cbn [importLine].
      apply String.eqb_neq in Hl. rewrite Hl.
      pose proof (importValue_fold_hit (Z.of_nat s) (csvValues line) 0 (nc, mr, mc) j v
                    ltac:(lia) Hj) as P.
      unfold indexed.
      destruct (fold_left _ _ _) as [[nc' mr'] mc']. cbn [fst] in *.
      replace (s + 0)%nat with s by lia. exact P.
    + intros i' line' c _ _ Hc E. apply cellIdAt_inj in E; lia.
  - cbn [nth_error] in Hi.
    replace (s + S i)%nat with (S s + i)%nat by lia. now apply (IH (S s) _ i line).
Qed.

Lemma importLoaded_cells :
  forall content state,
    cells (importLoaded content state)
    = fst (fst (fold_left importLine (indexed (split (ascii_of_N 10) content)) ([], 0, 0))).
Proof.
  intros content state. unfold importLoaded.
  destruct (fold_left _ _ _) as [[nc mr] mc]. reflexivity.
Qed.

(** X22: the field number [colIndex] of the line number [rowIndex] of an
    imported text (both counted from 0, the line not blank) becomes the
    cell in column [colIndex] and row [rowIndex + 1]; no later line
    overwrites it. A field that starts with [=] is kept as the formula,
    any other as the value. *)
Theorem importLoaded_places_fields :
  forall (content : string) (state : SheetState) (rowIndex colIndex : nat)
         (line v : string),
    nth_error (split (ascii_of_N 10) content) rowIndex = Some line ->
    trim line <> "" ->
    nth_error (csvValues line) colIndex = Some v ->
    get (cells (importLoaded content state))
        (cellIdAt (Z.of_nat colIndex) (Z.of_nat rowIndex + 1))
    = Some (importedCell v).
Proof.
  intros content state rowIndex colIndex line v Hi Hl Hj.
  rewrite importLoaded_cells. unfold indexed.
  exact (importLine_fold_hit _ 0 _ rowIndex line colIndex v Hi Hl Hj).
Qed.

Lemma importLoaded_places_fields_witness :
  get (cells (importLoaded ("a,b" ++ String (ascii_of_N 10) "c,=SUM(A1:A2)") initialState))
      (cellIdAt 1 2)
  = Some (importedCell "=SUM(A1:A2)").
Proof.
  apply (importLoaded_places_fields _ initialState 1 1 "c,=SUM(A1:A2)" "=SUM(A1:A2)").
  - reflexivity.
  - discriminate.
  - reflexivity.
Defined.

(** *** Export, then import *)

Lemma trim_blank :
  forall s, trim s = "" <-> allChars isWhite s = true.
Proof.
  assert (forall t, trimEnd t = "" -> allChars isWhite t = true) as HE.
  { induction t as [|c t IH]; intros H; [reflexivity|].
    cbn [trimEnd] in H. destruct (trimEnd t) eqn:E; [|discriminate].
    destruct (isWhite c) eqn:W; [|discriminate].
    cbn [allChars]. rewrite W. now apply IH. }
  intros s. unfold trim. split.
  - induction s as [|c s IH]; intros H; [reflexivity|].
    cbn [trimStart] in H. cbn [allChars].
    destruct (isWhite c) eqn:W.
    + now apply IH.
    + apply HE in H. cbn [allChars] in H. now rewrite W in H.
  - induction s as [|c s IH]; intros H; [reflexivity|].
    cbn [allChars] in H. apply andb_true_iff in H. destruct H as [W Hs].
    cbn [trimStart]. rewrite W. now apply IH.
Qed.

Lemma allChars_doubleQuotes :
  forall p v, allChars p v = true -> allChars p (doubleQuotes v) = true.
Proof.
  induction v as [|c v IH]; intros H; [reflexivity|].
  cbn [allChars] in H. apply andb_true_iff in H. destruct H as [Hc Hv].
  cbn [doubleQuotes]. destruct (isChar 34 c); cbn [allChars]; rewrite Hc, (IH Hv); reflexivity.
Qed.

Lemma allChars_formatValue :
  forall p v,
    p (ascii_of_N 34) = true -> allChars p v = true -> allChars p (formatValue v) = true.
Proof.
  intros p v Hq Hv. unfold formatValue.
  destruct (_ || _); [|exact Hv].
  rewrite !allChars_app, (allChars_doubleQuotes p v Hv).
  unfold doubleQuote. cbn [allChars]. now rewrite Hq.
Qed.

Lemma allChars_join :
  forall p sep l,
    allChars p sep = true -> (forall v, In v l -> allChars p v = true) ->
    allChars p (join sep l) = true.
Proof.
  intros p sep l Hs. induction l as [|x l IH]; intros H; [reflexivity|].
  destruct l as [|y l]; [apply H; now left|].
  change (join sep (x :: y :: l)) with (x ++ sep ++ join sep (y :: l))%string.
  rewrite !allChars_app, Hs, (H x (or_introl eq_refl)), IH; [reflexivity|].
  intros v Hv. apply H. now right.
Qed.

Lemma allChars_join_inv :
  forall p sep l v,
    allChars p (join sep l) = true -> In v l -> allChars p v = true.
Proof.
  intros p sep l. induction l as [|x l IH]; intros v H Hv; [contradiction|].
  destruct l as [|y l].
  - destruct Hv as [<-|[]]. exact H.
  - change (join sep (x :: y :: l)) with (x ++ sep ++ join sep (y :: l))%string in H.
    rewrite !allChars_app in H.
    apply andb_true_iff in H. destruct H as [Hx H].
    apply andb_true_iff in H. destruct H as [_ H].
    destruct Hv as [<-|Hv]; [exact Hx|]. now apply IH.
Qed.

(** A row of the export is blank for the import only if every value of
    it is white space. *)
Lemma blank_row :
  forall l v,
    trim (join "," (map formatValue l)) = "" -> In v l -> trim v = "".
Proof.
  intros l v H Hv. apply trim_blank in H. apply trim_blank.
  pose proof (allChars_join_inv isWhite "," _ (formatValue v) H (in_map formatValue l v Hv)) as F.
  unfold formatValue in F. destruct (_ || _); [|exact F].
  unfold doubleQuote in F. cbn [append allChars] in F. discriminate F.
Qed.

Lemma includesChar_allChars :
  forall c s,
    includesChar c s = false -> allChars (fun d => negb (Ascii.eqb d c)) s = true.
Proof.
  induction s as [|d s IH]; intros H; [reflexivity|].
  cbn [includesChar] in H. apply orb_false_iff in H. destruct H as [H1 H2].
  cbn [allChars]. now rewrite H1, (IH H2).
Qed.

Lemma getCellValue_plain :
  forall cells key, plainCells cells -> plainValue (getCellValue cells key).
Proof.
  intros cells key H. unfold getCellValue.
  destruct (get cells key) as [c|] eqn:E; [exact (H key c E)|].
  repeat split.
Qed.

Lemma exportRow_one_line :
  forall cells maxCol row,
    plainCells cells ->
    allChars (fun d => negb (Ascii.eqb d (ascii_of_N 10))) (exportRow cells maxCol row) = true.
Proof.
  intros cells maxCol row H. unfold exportRow.
  apply allChars_join; [reflexivity|].
  intros v Hv. apply in_map_iff in Hv. destruct Hv as (col & <- & _).
  apply allChars_formatValue; [reflexivity|].
  apply includesChar_allChars. apply (getCellValue_plain cells _ H).
Qed.

Lemma fold_lines_append :
  forall (A : Type) (f : A -> string) (l : list A) (a b : string),
    fold_left (fun csvContent row => csvContent ++ f row ++ String (ascii_of_N 10) "") l (a ++ b)
    = (a ++ fold_left (fun csvContent row => csvContent ++ f row ++ String (ascii_of_N 10) "") l b)%string.
Proof.
  induction l as [|x l IH]; intros a b; [reflexivity|].
  cbn [fold_left]. rewrite append_assoc_string. apply IH.
Qed.

(** The exported text has one line per row, and an empty one at the end. *)
Lemma split_fold_lines :
  forall (A : Type) (f : A -> string) (l : list A),
    (forall x, allChars (fun d => negb (Ascii.eqb d (ascii_of_N 10))) (f x) = true) ->
    split (ascii_of_N 10)
      (fold_left (fun csvContent row => csvContent ++ f row ++ String (ascii_of_N 10) "") l "")
    = (map f l ++ [""])%list.
Proof.
  intros A f l H. induction l as [|x l IH]; [reflexivity|].
  cbn [fold_left map app]. cbn [append].
  rewrite <- (append_nil_r (f x ++ String (ascii_of_N 10) "")).
  rewrite fold_lines_append. rewrite append_assoc_string. cbn [append].
  rewrite split_at_separator by apply H. now rewrite IH.
Qed.

Lemma nth_error_upto :
  forall lo hi x,
    lo <= x <= hi -> nth_error (Functions.upto lo hi) (Z.to_nat (x - lo)) = Some x.
Proof.
  intros lo hi x H. unfold Functions.upto.
  rewrite nth_error_map.
  rewrite (nth_error_nth' _ 0%nat) by (rewrite length_seq; lia).
  rewrite seq_nth by lia. cbn [option_map]. f_equal. lia.
Qed.

Lemma csvValues_exportRow :
  forall cells maxCol row,
    0 <= maxCol ->
    csvValues (exportRow cells maxCol row)
    = map (fun col => getCellValue cells (indexToColumnLetter col ++ ofInt row))
          (Functions.upto 0 maxCol).
Proof.
  intros cells maxCol row H. unfold exportRow.
  rewrite <- (map_map (fun col => getCellValue cells (indexToColumnLetter col ++ ofInt row))
                      formatValue).
  apply csvValues_row.
  intros E. apply map_eq_nil in E. revert E. now apply upto_nonempty.
Qed.

(** X23: exporting a sheet and importing the text again gives back the
    value of every cell from column A to the last used column and from
    row 1 to the last used row, provided the values are plain: no line
    break inside, no leading [=] and not white space only. *)
Theorem export_import_values :
  forall (state other : SheetState) (col row : Z),
    plainCells (cells state) ->
    0 <= col <= snd (exportBounds (cells state)) ->
    1 <= row <= fst (exportBounds (cells state)) ->
    getCellValue (cells (importLoaded (exportToCSV state) other)) (cellIdAt col row)
    = getCellValue (cells state) (cellIdAt col row).
Proof.
  intros state other col row Hp Hcol Hrow.
  rewrite importLoaded_cells. unfold exportToCSV.
  destruct (exportBounds (cells state)) as [maxRow maxCol]. cbn [fst snd] in Hcol, Hrow.
  rewrite (split_fold_lines _ (exportRow (cells state) maxCol))
    by (intros x; now apply exportRow_one_line).
  set (lines := (map (exportRow (cells state) maxCol) (Functions.upto 1 maxRow) ++ [""])%list).
  set (line := exportRow (cells state) maxCol row).
  assert (nth_error lines (Z.to_nat (row - 1)) = Some line) as Hi.
  { unfold lines. rewrite nth_error_app1.
    - rewrite nth_error_map, nth_error_upto by lia. reflexivity.
    - rewrite length_map. unfold Functions.upto. rewrite length_map, length_seq. lia. }
  assert (nth_error (csvValues line) (Z.to_nat col)
          = Some (getCellValue (cells state) (cellIdAt col row))) as Hj.
  { unfold line. rewrite csvValues_exportRow by lia.
    rewrite nth_error_map.
    replace (Z.to_nat col) with (Z.to_nat (col - 0)) by lia.
    rewrite nth_error_upto by lia. reflexivity. }
  unfold indexed, getCellValue at 1.
  destruct (String.eqb (trim line) "") eqn:E.
  - apply String.eqb_eq in E.
    rewrite importLine_fold_other.
    + cbn [fst get]. symmetry.
      apply (getCellValue_plain (cells state) (cellIdAt col row) Hp).
      unfold line, exportRow in E.
      rewrite <- (map_map (fun c => getCellValue (cells state) (indexToColumnLetter c ++ ofInt row))
                          formatValue) in E.
      apply (blank_row _ _ E).
      apply nth_error_In with (n := Z.to_nat col).
      unfold line in Hj. rewrite csvValues_exportRow in Hj by lia. exact Hj.
    + intros i l c Hl Hne Hc Eq.
      apply cellIdAt_inj in Eq; [|lia|lia|lia|lia].
      destruct Eq as [_ Er].
      replace i with (Z.to_nat (row - 1)) in Hl by lia.
      rewrite Hi in Hl. injection Hl as <-. now apply Hne.
  - apply String.eqb_neq in E.
    pose proof (importLine_fold_hit lines 0 ([], 0, 0) _ line _ _ Hi E Hj) as P.
    replace (Z.of_nat (Z.to_nat col)) with col in P by lia.
    replace (Z.of_nat (0 + Z.to_nat (row - 1)) + 1) with row in P by lia.
    rewrite P. unfold importedCell. cbn [value].
    destruct (getCellValue_plain (cells state) (cellIdAt col row) Hp) as (_ & -> & _).
    reflexivity.
Qed.

Lemma export_import_values_witness :
  getCellValue
    (cells (importLoaded
              (exportToCSV (updateCell "B2" (mkPartial None (Some "say, hi") None None)
                                       initialState))
              initialState))
    (cellIdAt 1 2)
  = "say, hi".
Proof.
  rewrite (export_import_values _ initialState 1 2).
  - reflexivity.
  - intros cellId c H.
    let v := eval vm_compute in
      (cells (updateCell "B2" (mkPartial None (Some "say, hi") None None) initialState)) in
    change (get v cellId = Some c) in H.
    cbn [get] in H.
    destruct (String.eqb "B2" cellId); [|discriminate].
    injection H as <-. repeat split. intros E. discriminate E.
  - vm_compute. split; discriminate.
  - vm_compute. split; discriminate.
Defined.

(** ** [pasteSelection] after [copySelection] *)

Lemma firstRun_letters :
  forall letters rest,
    letters <> "" -> upperLetters letters = true ->
    match rest with
    | EmptyString => True
    | String c _ => isUpper c = false
    end ->
    firstRun isUpper (letters ++ rest) = Some letters.
Proof.
  intros letters rest Hl Hu Hr.
  destruct letters as [|l0 ls]; [contradiction|].
  pose proof Hu as Hl0. unfold upperLetters in Hl0. cbn [allChars] in Hl0.
  apply andb_true_iff in Hl0. destruct Hl0 as [Hl0 _].
  change (String l0 ls ++ rest) with (String l0 (ls ++ rest)).
  rewrite firstRun_here by exact Hl0.
  change (String l0 (ls ++ rest)) with (String l0 ls ++ rest).
  now rewrite span_all.
Qed.

Lemma parseCellId_canonical :
  forall (letters digits : string),
    letters <> "" -> upperLetters letters = true ->
    digits <> "" -> allChars isDigit digits = true ->
    parseCellId (letters ++ digits) = Some (parseDigits digits, letters).
Proof.
  intros letters digits Hl Hu Hd Hdig. unfold parseCellId.
  destruct digits as [|d0 ds]; [contradiction|].
  pose proof Hdig as Hd0. cbn [allChars] in Hd0.
  apply andb_true_iff in Hd0. destruct Hd0 as [Hd0 _].
  rewrite (firstRun_letters letters (String d0 ds) Hl Hu (digit_not_upper d0 Hd0)).
  rewrite firstRun_skip by (now apply upper_not_digit).
  rewrite firstRun_here by exact Hd0.
  rewrite <- (append_nil_r (String d0 ds)) at 1.
  rewrite span_all; [reflexivity|exact Hdig|exact I].
Qed.

Lemma parseCellId_cellIdAt :
  forall col row,
    0 <= col -> 0 <= row ->
    parseCellId (cellIdAt col row) = Some (row, indexToColumnLetter col).
Proof.
  intros col row Hc Hr. unfold cellIdAt, createCellId.
  destruct (indexToColumnLetter_letters col Hc) as (_ & Hu & Hne).
  destruct (ofInt_digits row Hr) as (Hd & Hdne & Hp).
  rewrite (parseCellId_canonical _ _ Hne Hu Hdne Hd). now rewrite Hp.
Qed.

(** The decimal text of an integer starts with a digit or a minus sign. *)
Lemma ofInt_head :
  forall n, exists x t, ofInt n = String x t /\ isUpper x = false.
Proof.
  intros n. destruct (Z_lt_le_dec n 0) as [Hn|Hn].
  - destruct n as [|p|p]; try lia.
    unfold ofInt. cbn [Z.to_int NilZero.string_of_int].
    eexists. eexists. split; reflexivity.
  - destruct (ofInt_digits n Hn) as (Hd & Hne & _).
    destruct (ofInt n) as [|x t]; [contradiction|].
    exists x, t. split; [reflexivity|].
    cbn [allChars] in Hd. apply andb_true_iff in Hd. destruct Hd as [Hx _].
    now apply digit_not_upper.
Qed.

Lemma cellColumn_concatenated :
  forall col d rest,
    0 <= col ->
    cellColumn ((indexToColumnLetter col ++ ofInt d) ++ rest) = col.
Proof.
  intros col d rest Hc. unfold cellColumn.
  destruct (indexToColumnLetter_letters col Hc) as (Hv & Hu & Hne).
  destruct (ofInt_head d) as (x & t & E & Hx).
  rewrite append_assoc_string, E.
  rewrite (firstRun_letters _ (String x t ++ rest) Hne Hu Hx).
  cbn [orElse]. rewrite columnLetterToIndex_letterValue, Hv. lia.
Qed.

Lemma cellIdAt_not_empty :
  forall col row, 0 <= col -> cellIdAt col row <> "".
Proof.
  intros col row Hc E. unfold cellIdAt, createCellId in E.
  destruct (indexToColumnLetter_letters col Hc) as (_ & _ & Hne).
  destruct (indexToColumnLetter col); [contradiction|discriminate].
Qed.

(** X24: a single cell taken by [copySelection] and put by
    [pasteSelection] on a single selected cell does not arrive there:
    the column of the source is a text, so the column offset is glued to
    it as digits, and the copy is written under the key made of the
    source's column letters, the column offset and the target row.  The
    target cell is left as it was. *)
Theorem pasteSelection_single_cell :
  forall (st : SheetState) (col row col' row' : Z),
    0 <= col -> 0 <= row -> 0 <= col' -> 0 <= row' ->
    selectedCells st = [cellIdAt col row] ->
    id (cellOrEmpty (cells st) (cellIdAt col row)) = None ->
    let target := cellIdAt col' row' in
    let pasted :=
      pasteSelection
        (setSelectedCells (Many [target]) (setSelectedCell (Some target) (copySelection st))) in
    get (cells pasted) (indexToColumnLetter col ++ ofInt (col' - col) ++ ofInt row')
    = Some (pastedCell (cellOrEmpty (cells st) (cellIdAt col row)))
    /\ get (cells pasted) target = get (cells st) target.
Proof.
  intros st col row col' row' Hc Hr Hc' Hr' Hsel Hid target pasted.
  assert (cells pasted
          = set (cells st)
                ((indexToColumnLetter col ++ ofInt (col' - col)) ++ ofInt (row + (row' - row)))
                (pastedCell (cellOrEmpty (cells st) (cellIdAt col row)))) as E.
  { unfold pasted, copySelection. rewrite Hsel.
    destruct (getTopLeftCell_nonempty (cellIdAt col row) []) as (tl & ->).
    unfold pasteSelection.
    cbn [setSelectedCells setSelection setSelectedCell setClipboard saveState setHistory
         clipboard selectedCell selectedCells cells truthy].
    pose proof (cellIdAt_not_empty col' row' Hc') as Hne.
    apply String.eqb_neq in Hne. change (cellIdAt col' row') with target in Hne.
    rewrite Hne.
    cbn [data selectionClipboard map mapM].
    unfold withId at 1. rewrite Hid. cbn [id].
    unfold calculatePasteOffset. cbn [mapM].
    rewrite (parseCellId_cellIdAt col row Hc Hr).
    unfold target. rewrite (parseCellId_cellIdAt col' row' Hc' Hr').
    cbn [map fst snd minOf fold_left below].
    destruct (indexToColumnLetter_letters col Hc) as (Hv & _ & _).
    destruct (indexToColumnLetter_letters col' Hc') as (Hv' & _ & _).
    rewrite !columnLetterToIndex_letterValue, Hv, Hv'.
    cbn [pasteData]. unfold withId at 1. rewrite Hid. cbn [id].
    rewrite (parseCellId_cellIdAt col row Hc Hr).
    replace (col' + 1 - 1 - (col + 1 - 1)) with (col' - col) by lia.
    cbn [setCells cells]. reflexivity. }
  rewrite E. replace (row + (row' - row)) with row' by lia.
  rewrite <- append_assoc_string. split; [apply get_set_same|].
  apply get_set_other. intros K.
  pose proof (f_equal cellColumn K) as Kc.
  rewrite cellColumn_concatenated in Kc by exact Hc.
  unfold target in Kc. destruct (cellId_parse col' row' Hc' Hr') as [Ec _].
  unfold cellIdAt in Kc. rewrite Ec in Kc. subst col'.
  pose proof (f_equal String.length K) as Kl.
  unfold target, cellIdAt, createCellId in Kl.
  rewrite !string_length_app in Kl.
  replace (col - col) with 0 in Kl by lia.
  change (String.length (ofInt 0)) with 1%nat in Kl. lia.
Qed.

Lemma pasteSelection_single_cell_witness :
  get (cells (pasteSelection
                (setSelectedCells (Many [cellIdAt 3 4])
                   (setSelectedCell (Some (cellIdAt 3 4))
                      (copySelection
                         (setSelectedCells (Many ["A1"])
                            (updateCell "A1" (mkPartial None (Some "x") None None)
                                        initialState)))))))
      "A34"
  = Some {| id := None; value := "x"; formula := ""; style := style createEmptyCell |}
  /\ get (cells (pasteSelection
                (setSelectedCells (Many [cellIdAt 3 4])
                   (setSelectedCell (Some (cellIdAt 3 4))
                      (copySelection
                         (setSelectedCells (Many ["A1"])
                            (updateCell "A1" (mkPartial None (Some "x") None None)
                                        initialState)))))))
      "D4"
     = None.
Proof.
  exact (pasteSelection_single_cell
           (setSelectedCells (Many ["A1"])
              (updateCell "A1" (mkPartial None (Some "x") None None) initialState))
           0 1 3 4 ltac:(lia) ltac:(lia) ltac:(lia) ltac:(lia) eq_refl eq_refl).
Defined.

(** ** The grid after an import *)

Lemma importValue_fold_bounds :
  forall (rowIndex : Z) (xs : list string) (s : nat) (acc : ImportAcc),
    let acc' := fold_left (importValue rowIndex)
                  (combine (map Z.of_nat (seq s (List.length xs))) xs) acc in
    snd (fst acc') = snd (fst acc)
    /\ snd acc <= snd acc'
    /\ forall j, (j < List.length xs)%nat -> Z.of_nat (s + j) <= snd acc'.
Proof.
  induction xs as [|x xs IH]; intros s acc; cbn zeta.
  - cbn [List.length seq map combine fold_left]. repeat split; [lia|]. intros j Hj. inversion Hj.
  - cbn [List.length seq map combine fold_left].
    destruct (IH (S s) (importValue rowIndex acc (Z.of_nat s, x))) as (H1 & H2 & H3).
    destruct acc as [[nc mr] mc]. cbn [importValue fst snd] in *.
    split; [exact H1|]. split.
    + destruct (mc <? Z.of_nat s) eqn:E; [apply Z.ltb_lt in E|]; lia.
    + intros [|j] Hj.
      * destruct (mc <? Z.of_nat s) eqn:E; [|apply Z.ltb_ge in E]; lia.
      * replace (s + S j)%nat with (S s + j)%nat by lia. apply H3. lia.
Qed.

Lemma importLine_fold_bounds :
  forall (lines : list string) (s : nat) (acc : ImportAcc),
    let acc' := fold_left importLine
                  (combine (map Z.of_nat (seq s (List.length lines))) lines) acc in
    snd (fst acc) <= snd (fst acc')
    /\ snd acc <= snd acc'
    /\ forall i line j,
         nth_error lines i = Some line -> trim line <> "" ->
         (j < List.length (csvValues line))%nat ->
         Z.of_nat (s + i) <= snd (fst acc') /\ Z.of_nat j <= snd acc'.
Proof.
  induction lines as [|l lines IH]; intros s acc; cbn zeta.
  - cbn [List.length seq map combine fold_left]. repeat split; try lia; now destruct i.
  - cbn [List.length seq map combine fold_left].
    destruct (IH (S s) (importLine acc (Z.of_nat s, l))) as (H1 & H2 & H3).
    assert (snd (fst acc) <= snd (fst (importLine acc (Z.of_nat s, l)))
            /\ snd acc <= snd (importLine acc (Z.of_nat s, l))
            /\ (trim l <> "" ->
                Z.of_nat s <= snd (fst (importLine acc (Z.of_nat s, l)))
                /\ forall j, (j < List.length (csvValues l))%nat ->
                     Z.of_nat j <= snd (importLine acc (Z.of_nat s, l)))) as (G1 & G2 & G3).
    { destruct acc as [[nc mr] mc]. cbn [importLine].
      destruct (String.eqb (trim l) "") eqn:E.
      - apply String.eqb_eq in E. cbn [fst snd]. repeat split; try lia; contradiction.
      - pose proof (importValue_fold_bounds (Z.of_nat s) (csvValues l) 0 (nc, mr, mc)) as P.
        cbn zeta in P. unfold indexed.
        destruct (fold_left (importValue _) _ _) as [[nc' mr'] mc']. cbn [fst snd] in *.
        destruct P as (P1 & P2 & P3). subst mr'.
        destruct (mr <? Z.of_nat s) eqn:L; [apply Z.ltb_lt in L|apply Z.ltb_ge in L];
          (split; [lia|]); (split; [lia|]); intros _; (split; [lia|]);
          intros j Hj; apply (P3 j Hj). }
    split; [lia|]. split; [lia|].
    intros [|i] line j Hi Hl Hj.
    + cbn [nth_error] in Hi. injection Hi as ->.
      destruct (G3 Hl) as [G4 G5]. specialize (G5 j Hj).
      replace (s + 0)%nat with s by lia. lia.
    + cbn [nth_error] in Hi.
      replace (s + S i)%nat with (S s + i)%nat by lia.
      now apply (H3 i line j).
Qed.

(** X25: an import never shrinks the grid and always makes it large
    enough for what it reads: the cell of every field of every non-blank
    line lies inside the new grid. *)
Theorem importLoaded_fits_grid :
  forall (content : string) (state : SheetState) (rowIndex colIndex : nat)
         (line v : string),
    nth_error (split (ascii_of_N 10) content) rowIndex = Some line ->
    trim line <> "" ->
    nth_error (csvValues line) colIndex = Some v ->
    rows state <= rows (importLoaded content state)
    /\ cols state <= cols (importLoaded content state)
    /\ Z.of_nat rowIndex + 1 <= rows (importLoaded content state)
    /\ Z.of_nat colIndex < cols (importLoaded content state).
Proof.
  intros content state rowIndex colIndex line v Hi Hl Hj.
  pose proof (importLine_fold_bounds (split (ascii_of_N 10) content) 0 ([], 0, 0)) as P.
  cbn zeta in P. unfold importLoaded, indexed.
  destruct (fold_left _ _ _) as [[nc mr] mc]. cbn [fst snd] in P.
  destruct P as (_ & _ & P).
  assert (colIndex < List.length (csvValues line))%nat as Hlen.
  { apply nth_error_Some. rewrite Hj. discriminate. }
  destruct (P rowIndex line colIndex Hi Hl Hlen) as [P1 P2].
  cbn [rows cols setCells setRows setCols]. lia.
Qed.

Lemma importLoaded_fits_grid_witness :
  rows initialState <= rows (importLoaded "a,b,c" initialState)
  /\ cols initialState <= cols (importLoaded "a,b,c" initialState)
  /\ Z.of_nat 0 + 1 <= rows (importLoaded "a,b,c" initialState)
  /\ Z.of_nat 2 < cols (importLoaded "a,b,c" initialState).
Proof.
  apply (importLoaded_fits_grid "a,b,c" initialState 0 2 "a,b,c" "c").
  - reflexivity.
  - discriminate.
  - reflexivity.
Defined.

(** ** References and open ranges *)

Lemma removeChar_absent :
  forall c s, includesChar c s = false -> removeChar c s = s.
Proof.
  induction s as [|d s IH]; intros H; [reflexivity|].
  cbn [includesChar] in H. apply orb_false_iff in H. destruct H as [H1 H2].
  cbn [removeChar]. now rewrite H1, (IH H2).
Qed.

Lemma removeChar_removes :
  forall c s, includesChar c (removeChar c s) = false.
Proof.
  induction s as [|d s IH]; [reflexivity|].
  cbn [removeChar]. destruct (Ascii.eqb d c) eqn:E; [exact IH|].
  cbn [includesChar]. now rewrite E, IH.
Qed.

Lemma normalizeReference_removeChar :
  forall ref currentCell, normalizeReference ref currentCell = removeChar "$" ref.
Proof.
  intros ref currentCell. unfold normalizeReference.
  destruct (_ || _) eqn:E; [reflexivity|].
  apply orb_false_iff in E. destruct E as [_ E].
  symmetry. now apply removeChar_absent.
Qed.

(** X26: [normalizeReference] does not depend on the current cell: with
    or without one, the result is the reference with every [$] taken
    out, so it never contains a [$], and a reference without [$] comes
    back as it is. *)
Theorem normalizeReference_drops_dollars :
  forall (ref : string) (currentCell : option string),
    normalizeReference ref currentCell = normalizeReference ref None
    /\ includesChar "$" (normalizeReference ref currentCell) = false
    /\ (includesChar "$" ref = false -> normalizeReference ref currentCell = ref).
Proof.
  intros ref currentCell. rewrite !normalizeReference_removeChar.
  split; [reflexivity|]. split; [apply removeChar_removes|apply removeChar_absent].
Qed.

(** X27: a range text that ends in a colon is not parsed: whatever
    stands before the colon comes back as the only cell of the range,
    trimmed and without its [$], whether or not it is a cell reference. *)
Theorem parseRange_open_range :
  forall (start : string) (currentCell : option string),
    includesChar ":" start = false ->
    trim start <> "" ->
    parseRange (start ++ ":") currentCell = [removeChar "$" (trim start)].
Proof.
  intros start currentCell Hc Ht. unfold parseRange.
  assert (String.eqb (start ++ ":") "" = false) as ->.
  { destruct start; reflexivity. }
  assert (String.eqb (trim (start ++ ":")) "" = false) as ->.
  { apply String.eqb_neq. intros E. apply trim_blank in E.
    rewrite allChars_app in E. cbn in E. now rewrite andb_false_r in E. }
  cbn [orb].
  rewrite (split_at_separator ":" start "" (includesChar_allChars _ _ Hc)).
  cbn [split nth trim trimStart trimEnd String.eqb].
  now rewrite normalizeReference_removeChar.
Qed.

Lemma parseRange_open_range_witness :
  parseRange (" $b$2 " ++ ":") None = ["b2"].
Proof.
  apply (parseRange_open_range " $b$2 " None).
  - reflexivity.
  - discriminate.
Defined.

(** ** Blank cells in the numeric functions *)

Lemma evaluateFormula_count_branch :
  forall body getCellValue,
    evaluateFormula ("=COUNT(" ++ body ++ ")") getCellValue
    = toString (lengthOf (numericValues getCellValue (parseRange (toUpperCase body) None))).
Proof. call_branch "COUNT(" 6%nat. Qed.

Lemma evaluateFormula_sum_branch :
  forall body getCellValue,
    evaluateFormula ("=SUM(" ++ body ++ ")") getCellValue
    = toString (sumValues (numericValues getCellValue (parseRange (toUpperCase body) None))).
Proof. call_branch "SUM(" 4%nat. Qed.

Lemma Number_blank : forall v, trim v = "" -> Number v = S754_zero false.
Proof. intros v H. unfold Number. now rewrite H. Qed.

Lemma numericValues_blank :
  forall (getCellValue : string -> string) (range : list string),
    (forall ref, In ref range -> trim (getCellValue ref) = "") ->
    numericValues getCellValue range = map getCellValue range.
Proof.
  intros g range H. unfold numericValues.
  induction range as [|r range IH]; [reflexivity|].
  cbn [map filter]. rewrite (Number_blank _ (H r (or_introl eq_refl))).
  cbn [isNaN negb]. f_equal. apply IH. intros ref Hr. apply H. now right.
Qed.

Lemma sumValues_blank :
  forall (getCellValue : string -> string) (range : list string),
    (forall ref, In ref range -> trim (getCellValue ref) = "") ->
    sumValues (map getCellValue range) = S754_zero false.
Proof.
  intros g range H. unfold sumValues.
  change (ofZ 0) with (S754_zero false).
  induction range as [|r range IH]; [reflexivity|].
  cbn [map fold_left]. rewrite (Number_blank _ (H r (or_introl eq_refl))).
  change (add (S754_zero false) (S754_zero false)) with (S754_zero false).
  apply IH. intros ref Hr. apply H. now right.
Qed.

(** X28: a cell that is empty or holds white space only is a number for
    the numeric functions, namely 0: over a range of such cells COUNT
    gives the number of cells of the range, and SUM gives 0. *)
Theorem blank_cells_are_numbers :
  forall (body : string) (getCellValue : string -> string),
    (forall ref, In ref (parseRange (toUpperCase body) None) ->
                 trim (getCellValue ref) = "") ->
    evaluateFormula ("=COUNT(" ++ body ++ ")") getCellValue
    = toString (lengthOf (parseRange (toUpperCase body) None))
    /\ evaluateFormula ("=SUM(" ++ body ++ ")") getCellValue = "0".
Proof.
  intros body g H. split.
  - rewrite evaluateFormula_count_branch, (numericValues_blank g _ H).
    unfold lengthOf. now rewrite length_map.
  - rewrite evaluateFormula_sum_branch, (numericValues_blank g _ H),
      (sumValues_blank g _ H).
    reflexivity.
Qed.

Lemma blank_cells_are_numbers_witness :
  evaluateFormula ("=COUNT(" ++ "a1:a3" ++ ")") (fun _ => " ") = "3"
  /\ evaluateFormula ("=SUM(" ++ "a1:a3" ++ ")") (fun _ => " ") = "0".
Proof.
  apply (blank_cells_are_numbers "a1:a3" (fun _ => " ")).
  intros ref _. reflexivity.
Defined.

(** ** The parameters of FIND_AND_REPLACE *)

Lemma splitLoop_plain :
  forall text prm cur qc rest,
    plainParameter text ->
    splitLoop (mkSplit prm cur false qc) (text ++ rest)
    = splitLoop (mkSplit prm (cur ++ text) false qc) rest.
Proof.
  unfold plainParameter.
  induction text as [|c text IH]; intros prm cur qc rest H.
  - cbn [append]. now rewrite append_nil_r.
  - cbn [allChars] in H. apply andb_true_iff in H. destruct H as [Hc Ht].
    apply negb_true_iff in Hc. apply orb_false_iff in Hc. destruct Hc as [Hq Hk].
    cbn [append splitLoop]. unfold splitStep at 1.
    cbn [Functions.inQuotes quoteChar params currentParam].
    rewrite Hq, Hk. cbn [andb].
    rewrite (IH _ _ _ _ Ht), pushChar_append. reflexivity.
Qed.

Lemma splitLoop_inside_quotes :
  forall body q prm cur rest,
    isQuote q = true ->
    includesChar q body = false ->
    splitLoop (mkSplit prm cur true (Some q)) (body ++ String q rest)
    = splitLoop (mkSplit prm (cur ++ body ++ String q "") false (Some q)) rest.
Proof.
  induction body as [|c body IH]; intros q prm cur rest Hq Hb.
  - cbn [append splitLoop]. unfold splitStep at 1.
    cbn [Functions.inQuotes quoteChar params currentParam].
    rewrite Hq, Ascii.eqb_refl. cbn [andb orb negb]. reflexivity.
  - cbn [includesChar] in Hb. apply orb_false_iff in Hb. destruct Hb as [Hc Hb].
    cbn [append splitLoop]. unfold splitStep at 1.
    cbn [Functions.inQuotes quoteChar params currentParam].
    rewrite (Ascii.eqb_sym q c), Hc. cbn [negb orb]. rewrite !andb_false_r.
    cbv iota.
    rewrite (IH _ _ _ _ Hq Hb), pushChar_append. reflexivity.
Qed.

Lemma splitLoop_parameter :
  forall text prm cur qc rest,
    parameterText text ->
    exists qc',
      splitLoop (mkSplit prm cur false qc) (text ++ rest)
      = splitLoop (mkSplit prm (cur ++ text) false qc') rest.
Proof.
  intros text prm cur qc rest [H|(q & body & Hq & Hb & ->)].
  - exists qc. now apply splitLoop_plain.
  - exists (Some q). cbn [append splitLoop]. unfold splitStep at 1.
    cbn [Functions.inQuotes quoteChar params currentParam].
    rewrite Hq. cbn [andb orb negb].
    rewrite append_assoc_string. cbn [append].
    rewrite (splitLoop_inside_quotes body q _ _ rest Hq Hb), pushChar_append.
    reflexivity.
Qed.

Lemma splitLoop_parameters :
  forall ps p prm qc,
    Forall parameterText (ps ++ [p]) ->
    exists qc',
      splitLoop (mkSplit prm "" false qc) (join "," (ps ++ [p]))
      = mkSplit (prm ++ map trim ps) p false qc'.
Proof.
  induction ps as [|x ps IH]; intros p prm qc H.
  - apply Forall_inv in H. cbn [app join map].
    destruct (splitLoop_parameter p prm "" qc "" H) as (qc' & E).
    rewrite append_nil_r in E. cbn [append] in E. cbn [splitLoop] in E.
    exists qc'. now rewrite E, app_nil_r.
  - cbn [app] in H. pose proof (Forall_inv H) as Hx. apply Forall_inv_tail in H.
    assert (join "," ((x :: ps) ++ [p]) = x ++ String "," (join "," (ps ++ [p]))) as ->.
    { cbn [app]. destruct (ps ++ [p])%list eqn:E; [|reflexivity].
      now destruct ps. }
    destruct (splitLoop_parameter x prm "" qc (String "," (join "," (ps ++ [p]))) Hx)
      as (qc1 & ->).
    cbn [append splitLoop]. unfold splitStep at 1.
    cbn [Functions.inQuotes quoteChar params currentParam].
    change (isQuote ",") with false. cbn [andb negb]. change (Ascii.eqb "," ",") with true.
    cbn [andb]. cbv iota.
    destruct (IH p (prm ++ [trim x])%list qc1 H) as (qc' & ->).
    exists qc'. cbn [map]. now rewrite <- app_assoc.
Qed.

(** X29: [splitParameters] cuts at the commas outside quotes only.  For
    a text made of parameters joined by commas, each of them either free
    of quotes and commas or enclosed in a pair of equal quotes, the
    result is the list of the trimmed parameters; an empty last
    parameter is left out, an empty one elsewhere is kept. *)
Theorem splitParameters_parameters :
  forall (ps : list string) (p : string),
    Forall parameterText (ps ++ [p]) ->
    splitParameters (join "," (ps ++ [p]))
    = (map trim ps ++ (if String.eqb p "" then [] else [trim p]))%list.
Proof.
  intros ps p H. unfold splitParameters.
  destruct (splitLoop_parameters ps p [] None H) as (qc & ->).
  cbn [currentParam params app].
  destruct p; [now rewrite app_nil_r|reflexivity].
Qed.

Lemma splitParameters_parameters_witness :
  splitParameters (join "," ([" A1:B2 "; "'a,b'"; ""] ++ ["x"]))
  = ["A1:B2"; "'a,b'"; ""; "x"].
Proof.
  apply (splitParameters_parameters [" A1:B2 "; "'a,b'"; ""] "x").
  cbn [app].
  apply Forall_cons; [now left|].
  apply Forall_cons; [right; exists "'"%char, "a,b"; repeat split|].
  apply Forall_cons; [now left|].
  apply Forall_cons; [now left|].
  apply Forall_nil.
Defined.

(** ** The two functions that read their arguments one character early *)

Lemma evaluateFormula_find_and_replace_params :
  forall (args : string) (getCellValue : string -> string),
    evaluateFormula ("=FIND_AND_REPLACE(" ++ args ++ ")") getCellValue
    = match splitParameters ("(" ++ toUpperCase args) with
      | [rangeStr; findText; replaceText] =>
          join ", "
            (map (fun value => replaceAll value (stripQuotes findText) (stripQuotes replaceText))
                 (map getCellValue (parseRange rangeStr None)))
      | _ => expected3
      end.
Proof.
  intros args g.
  unfold evaluateFormula.
  change (startsWith ("=FIND_AND_REPLACE(" ++ args ++ ")") "=") with true.
  cbn [negb].
  change (substring_from 1 ("=FIND_AND_REPLACE(" ++ args ++ ")"))
    with ("FIND_AND_REPLACE(" ++ args ++ ")").
  rewrite !toUpperCase_app.
  change (toUpperCase "FIND_AND_REPLACE(") with "FIND_AND_REPLACE(".
  change (toUpperCase ")") with ")".
  set (B := toUpperCase args).
  assert (startsWith ("FIND_AND_REPLACE(" ++ B ++ ")") "FIND_AND_REPLACE(" = true) as Hp
      by apply startsWith_app.
  pose proof (slice_call "FIND_AND_REPLACE(" B 16 ltac:(simpl; lia)) as Hs.
  change (Z.of_nat 16) with 16 in Hs.
  change (drop 16 "FIND_AND_REPLACE(") with "(" in Hs.
  rewrite Hs, Hp.
  reduce_tests.
  reflexivity.
Qed.

Lemma allChars_impl :
  forall (p q : ascii -> bool) (s : string),
    (forall c, q c = true -> p c = true) ->
    allChars q s = true -> allChars p s = true.
Proof.
  intros p q s H. induction s as [|c s IH]; intros Hs; [reflexivity|].
  cbn [allChars] in *. apply andb_true_iff in Hs. destruct Hs as [Hc Hs].
  now rewrite (H c Hc), (IH Hs).
Qed.

Lemma allChars_toUpperCase :
  forall (p : ascii -> bool) (s : string),
    (forall c, p c = true -> p (upperChar c) = true) ->
    allChars p s = true -> allChars p (toUpperCase s) = true.
Proof.
  intros p s H. unfold toUpperCase.
  induction s as [|c s IH]; intros Hs; [reflexivity|].
  cbn [allChars mapChars] in *. apply andb_true_iff in Hs. destruct Hs as [Hc Hs].
  now rewrite (H c Hc), (IH Hs).
Qed.

(** What [toUpperCase] changes is a letter before and after. *)
Lemma upperChar_cases :
  forall c, upperChar c = c \/ (97 <= code c <= 122 /\ 65 <= code (upperChar c) <= 90).
Proof.
  intros c. unfold upperChar. destruct (isLower c) eqn:E; [right|now left].
  unfold isLower in E. apply andb_true_iff in E. destruct E as [H1 H2].
  apply Z.leb_le in H1, H2. rewrite code_ascii_of by lia. lia.
Qed.

Lemma not_char_upperChar :
  forall (q c : ascii),
    (code q < 65 \/ 90 < code q) ->
    negb (Ascii.eqb c q) = true -> negb (Ascii.eqb (upperChar c) q) = true.
Proof.
  intros q c Hq H. destruct (upperChar_cases c) as [->|[_ Hu]]; [exact H|].
  apply negb_true_iff. apply Ascii.eqb_neq. intros E. rewrite E in Hu. lia.
Qed.

Lemma isQuote_code : forall q, isQuote q = true -> code q = 34 \/ code q = 39.
Proof.
  intros q H. unfold isQuote in H. apply orb_true_iff in H.
  destruct H as [H|H]; apply Z.eqb_eq in H; lia.
Qed.

Lemma plain_upperChar :
  forall c,
    negb (isQuote c || Ascii.eqb c ",") = true ->
    negb (isQuote (upperChar c) || Ascii.eqb (upperChar c) ",") = true.
Proof.
  intros c H. destruct (upperChar_cases c) as [->|[_ Hu]]; [exact H|].
  apply negb_true_iff. apply orb_false_iff. split.
  - destruct (isQuote (upperChar c)) eqn:E; [|reflexivity].
    apply isQuote_code in E. lia.
  - apply Ascii.eqb_neq. intros E. rewrite E in Hu. change (code ",") with 44 in Hu. lia.
Qed.

Lemma allChars_includesChar :
  forall c s,
    allChars (fun d => negb (Ascii.eqb d c)) s = true -> includesChar c s = false.
Proof.
  induction s as [|d s IH]; intros H; [reflexivity|].
  cbn [allChars] in H. apply andb_true_iff in H. destruct H as [H1 H2].
  apply negb_true_iff in H1. cbn [includesChar]. now rewrite H1, (IH H2).
Qed.

Lemma parameterText_toUpperCase :
  forall text, parameterText text -> parameterText (toUpperCase text).
Proof.
  intros text [H|(q & body & Hq & Hb & ->)].
  - left. unfold plainParameter in *.
    apply allChars_toUpperCase; [exact plain_upperChar|exact H].
  - right. exists q, (toUpperCase body).
    assert (upperChar q = q) as Eq.
    { destruct (upperChar_cases q) as [E|[Hl _]]; [exact E|].
      apply isQuote_code in Hq. lia. }
    split; [exact Hq|]. split.
    + apply allChars_includesChar. apply allChars_toUpperCase.
      * intros c. apply not_char_upperChar. apply isQuote_code in Hq. lia.
      * now apply includesChar_allChars.
    + change (toUpperCase (String q (body ++ String q "")))
        with (String (upperChar q) (toUpperCase (body ++ String q ""))).
      rewrite toUpperCase_app.
      change (toUpperCase (String q "")) with (String (upperChar q) "").
      now rewrite Eq.
Qed.

Lemma toUpperCase_fixed :
  forall s, allChars (fun c => negb (isLower c)) s = true -> toUpperCase s = s.
Proof.
  unfold toUpperCase.
  induction s as [|c s IH]; intros H; [reflexivity|].
  cbn [allChars] in H. apply andb_true_iff in H. destruct H as [Hc Hs].
  apply negb_true_iff in Hc. cbn [mapChars]. unfold upperChar at 1.
  now rewrite Hc, (IH Hs).
Qed.

(** The characters of a cell id are upper-case letters and digits. *)
Lemma allChars_cellIdAt :
  forall (p : ascii -> bool) (col row : Z),
    0 <= col -> 0 <= row ->
    (forall c, 48 <= code c <= 57 \/ 65 <= code c <= 90 -> p c = true) ->
    allChars p (cellIdAt col row) = true.
Proof.
  intros p col row Hc Hr H. unfold cellIdAt, createCellId.
  destruct (indexToColumnLetter_letters col Hc) as (_ & Hu & _).
  destruct (ofInt_digits row Hr) as (Hd & _ & _).
  rewrite allChars_app. apply andb_true_iff. split.
  - apply (allChars_impl p isUpper); [|exact Hu].
    intros c E. apply H. unfold isUpper in E. apply andb_true_iff in E.
    destruct E as [E1 E2]. apply Z.leb_le in E1, E2. lia.
  - apply (allChars_impl p isDigit); [|exact Hd].
    intros c E. apply H. unfold isDigit in E. apply andb_true_iff in E.
    destruct E as [E1 E2]. apply Z.leb_le in E1, E2. lia.
Qed.

Lemma not_char_code :
  forall (q c : ascii), code c <> code q -> negb (Ascii.eqb c q) = true.
Proof.
  intros q c H. apply negb_true_iff. apply Ascii.eqb_neq. intros ->. now apply H.
Qed.

Lemma allChars_range :
  forall (p : ascii -> bool) (col0 row0 col1 row1 : Z),
    0 <= col0 -> 0 <= row0 -> 0 <= col1 -> 0 <= row1 ->
    (forall c, 48 <= code c <= 58 \/ 65 <= code c <= 90 -> p c = true) ->
    allChars p (cellIdAt col0 row0 ++ ":" ++ cellIdAt col1 row1) = true.
Proof.
  intros p c0 r0 c1 r1 H0 H1 H2 H3 H.
  rewrite !allChars_app.
  rewrite !allChars_cellIdAt by (try assumption; intros c Hc; apply H; lia).
  cbn [allChars]. rewrite H; [reflexivity|]. change (code ":") with 58. lia.
Qed.

(** X30: REMOVE_DUPLICATES and FIND_AND_REPLACE take their arguments
    from one character before the end of the function name's
    parenthesis, so the range starts with that parenthesis and does not
    parse.  Over every range START:END of two cell ids both formulas
    show the empty text, whatever the cells hold and whatever is to be
    found and replaced. *)
Theorem early_slice_shows_nothing :
  forall (col0 row0 col1 row1 : Z) (findText replaceText : string)
         (getCellValue : string -> string),
    0 <= col0 -> 0 <= row0 -> 0 <= col1 -> 0 <= row1 ->
    parameterText findText -> parameterText replaceText -> replaceText <> "" ->
    let range := cellIdAt col0 row0 ++ ":" ++ cellIdAt col1 row1 in
    evaluateFormula ("=REMOVE_DUPLICATES(" ++ range ++ ")") getCellValue = ""
    /\ evaluateFormula
         ("=FIND_AND_REPLACE(" ++ range ++ "," ++ findText ++ "," ++ replaceText ++ ")")
         getCellValue = "".
Proof.
  intros c0 r0 c1 r1 findText replaceText g H0 H1 H2 H3 Hf Hr Hne range.
  assert (toUpperCase range = range) as Eup.
  { apply toUpperCase_fixed. apply allChars_range; try assumption.
    intros c Hc. unfold isLower. apply negb_true_iff.
    replace (97 <=? code c) with false by (symmetry; apply Z.leb_gt; lia). reflexivity. }
  assert (parseRange ("(" ++ range) None = []) as Epr.
  { apply parseRange_paren. unfold range.
    change (":" ++ cellIdAt c1 r1) with (String ":" (cellIdAt c1 r1)).
    rewrite split_at_separator, split_no_separator
      by (apply allChars_cellIdAt; try assumption; intros c Hc; apply not_char_code;
          change (code ":") with 58; lia).
    rewrite trim_no_white.
    - now apply cellIdAt_not_empty.
    - apply allChars_cellIdAt; try assumption.
      intros c Hc. unfold isWhite. apply negb_true_iff.
      replace (code c <=? 13) with false by (symmetry; apply Z.leb_gt; lia).
      replace (code c =? 32) with false by (symmetry; apply Z.eqb_neq; lia).
      now rewrite andb_false_r. }
  split.
  - rewrite evaluateFormula_remove_duplicates_range, Eup, Epr. reflexivity.
  - transitivity
      (evaluateFormula
         ("=FIND_AND_REPLACE(" ++ (range ++ "," ++ findText ++ "," ++ replaceText) ++ ")") g).
    { apply (f_equal (fun s => evaluateFormula ("=FIND_AND_REPLACE(" ++ s) g)).
      now rewrite !append_assoc_string. }
    rewrite evaluateFormula_find_and_replace_params.
    rewrite !toUpperCase_app, Eup.
    change (toUpperCase ",") with ",".
    set (F := toUpperCase findText). set (P := toUpperCase replaceText).
    assert (("(" ++ range ++ "," ++ F ++ "," ++ P)%string
            = join "," (app ["(" ++ range; F] [P])) as ->.
    { reflexivity. }
    assert (Forall parameterText (app ["(" ++ range; F] [P])) as Hall.
    { cbn [app].
      apply Forall_cons.
      - left. unfold plainParameter. cbn [append allChars].
        change (negb (isQuote "(" || Ascii.eqb "(" ",")) with true. cbn [andb].
        apply allChars_range; try assumption.
        intros c Hc. apply negb_true_iff. apply orb_false_iff. split.
        + destruct (isQuote c) eqn:E; [|reflexivity]. apply isQuote_code in E. lia.
        + apply negb_true_iff. apply not_char_code. change (code ",") with 44. lia.
      - apply Forall_cons; [now apply parameterText_toUpperCase|].
        apply Forall_cons; [now apply parameterText_toUpperCase|apply Forall_nil]. }
    unfold splitParameters.
    destruct (splitLoop_parameters _ _ [] None Hall) as (qc & ->).
    cbn [currentParam params app map].
    assert (P <> "") as HP.
    { unfold P. destruct replaceText; [contradiction|discriminate]. }
    destruct P as [|p0 P']; [contradiction|].
    rewrite (trim_no_white ("(" ++ range)).
    + rewrite Epr. reflexivity.
    + cbn [append allChars]. change (negb (isWhite "(")) with true. cbn [andb].
      apply allChars_range; try assumption.
      intros c Hc. unfold isWhite. apply negb_true_iff.
      replace (code c <=? 13) with false by (symmetry; apply Z.leb_gt; lia).
      replace (code c =? 32) with false by (symmetry; apply Z.eqb_neq; lia).
      now rewrite andb_false_r.
Qed.

Lemma early_slice_shows_nothing_witness :
  evaluateFormula ("=REMOVE_DUPLICATES(" ++ (cellIdAt 0 1 ++ ":" ++ cellIdAt 0 3) ++ ")")
    (fun _ => "x") = ""
  /\ evaluateFormula
       ("=FIND_AND_REPLACE(" ++ (cellIdAt 0 1 ++ ":" ++ cellIdAt 0 3) ++ ","
          ++ "x" ++ "," ++ "'y'" ++ ")")
       (fun _ => "x") = "".
Proof.
  apply (early_slice_shows_nothing 0 1 0 3 "x" "'y'" (fun _ => "x")); try lia.
  - now left.
  - right. exists "'"%char, "y". repeat split.
  - discriminate.
Defined.
